(** * agent-browser: daemon, session files and focus-guard protocol

    A shallow embedding of [src/daemon.ts] (session locator, liveness check,
    bind-then-persist startup, per-connection line protocol) together with
    models of the command executor and the snapshot builder, whose sources
    ([actions.ts], [snapshot.ts], [protocol.ts]) are exercised by
    [actions.test.ts] and [snapshot.test.ts].

    Part I holds the definitions, Part II the theorems, Part III further
    properties of [daemon.ts]: the session hash and files, the startup and
    the files it leaves, the request-line filter, shutdown, and the ways the
    process ends. *)

From Stdlib Require Import ZArith Ascii String List Bool Lia DecimalString DecimalPos.
From stdpp Require Import base option gmap strings list.
From Equations Require Import Equations.

Local Open Scope Z_scope.

(* ===================================================================== *)
(** * Part I. Definitions *)
(* ===================================================================== *)

(** ** JavaScript string primitives

    A JavaScript string is modelled as a [string] whose characters stand for
    code units below 256; every function below is the restriction of the
    ECMAScript operation of the same name to such strings. *)
Module Js.

(** ECMAScript WhiteSpace and LineTerminator code units below 256: TAB, LF,
    VT, FF, CR, SPACE and NBSP.  [String.prototype.trim], [trimStart] and the
    regular-expression class [\s] all use this set. *)
Definition isWhiteSpace (c : ascii) : bool :=
  match N_of_ascii c with
  | 9 | 10 | 11 | 12 | 13 | 32 | 160 => true
  | _ => false
  end%N.

Fixpoint trimStart (s : string) : string :=
  match s with
  | EmptyString => EmptyString
  | String c r => if isWhiteSpace c then trimStart r else s
  end.

Fixpoint trimEnd (s : string) : string :=
  match s with
  | EmptyString => EmptyString
  | String c r =>
      match trimEnd r with
      | EmptyString => if isWhiteSpace c then EmptyString else String c EmptyString
      | r' => String c r'
      end
  end.

Definition trim (s : string) : string := trimEnd (trimStart s).

(** Truthiness of a string value: the empty string is falsy. *)
Definition truthy (s : string) : bool :=
  match s with EmptyString => false | String _ _ => true end.

(** [s.indexOf(c)] for a one-character needle; [None] stands for [-1]. *)
Fixpoint indexOf (c : ascii) (s : string) : option nat :=
  match s with
  | EmptyString => None
  | String a r => if Ascii.eqb a c then Some O else S <$> indexOf c r
  end.

Fixpoint take (n : nat) (s : string) : string :=
  match n, s with
  | S n', String c r => String c (take n' r)
  | _, _ => EmptyString
  end.

Fixpoint drop (n : nat) (s : string) : string :=
  match n, s with
  | S n', String _ r => drop n' r
  | _, _ => s
  end.

(** [s.substring(a, b)]: the arguments are swapped when [a > b] and clamped to
    the length. *)
Definition substring (a b : nat) (s : string) : string :=
  take (Nat.max a b - Nat.min a b) (drop (Nat.min a b) s).

(** [s.substring(a)]. *)
Definition substringFrom (a : nat) (s : string) : string := drop a s.

Fixpoint startsWith (p s : string) : bool :=
  match p, s with
  | EmptyString, _ => true
  | String a p', String b s' => Ascii.eqb a b && startsWith p' s'
  | String _ _, EmptyString => false
  end.

(** [s.includes(needle)]. *)
Fixpoint includes (needle s : string) : bool :=
  startsWith needle s ||
  match s with
  | EmptyString => false
  | String _ r => includes needle r
  end.

Definition lowerChar (c : ascii) : ascii :=
  let n := N_of_ascii c in
  if ((65 <=? n) && (n <=? 90))%N then ascii_of_N (n + 32) else c.

Definition upperChar (c : ascii) : ascii :=
  let n := N_of_ascii c in
  if ((97 <=? n) && (n <=? 122))%N then ascii_of_N (n - 32) else c.

(** [s.toLowerCase()] on the ASCII letters. *)
Fixpoint toLowerCase (s : string) : string :=
  match s with
  | EmptyString => EmptyString
  | String c r => String (lowerChar c) (toLowerCase r)
  end.

Definition digitValue (c : ascii) : option Z :=
  let n := N_of_ascii c in
  if ((48 <=? n) && (n <=? 57))%N then Some (Z.of_N (n - 48)) else None.

(** The longest prefix of decimal digits, read as a number; [acc] is [None]
    until a first digit has been seen. *)
Fixpoint parseDigits (s : string) (acc : option Z) : option Z :=
  match s with
  | EmptyString => acc
  | String c r =>
      match digitValue c with
      | Some d => parseDigits r (Some (10 * default 0 acc + d))
      | None => acc
      end
  end.

(** [parseInt(s, 10)]; [None] stands for [NaN]. *)
Definition parseInt10 (s : string) : option Z :=
  match trimStart s with
  | String "-" r => Z.opp <$> parseDigits r None
  | String "+" r => parseDigits r None
  | t => parseDigits t None
  end.

(** [s.split(sep)] for a separator that is one character of a class. *)
Fixpoint splitBy (sep : ascii -> bool) (s : string) : list string :=
  match s with
  | EmptyString => [EmptyString]
  | String c r =>
      if sep c then EmptyString :: splitBy sep r
      else match splitBy sep r with
           | piece :: rest => String c piece :: rest
           | [] => [String c EmptyString]
           end
  end.

(** [n.toString()] and [String(n)] for an integer. *)
Definition numberToString (n : Z) : string :=
  NilZero.string_of_int (Z.to_int n).

(** [x | 0]: wrap to a signed 32-bit integer. *)
Definition toInt32 (z : Z) : Z :=
  let m := z mod 2 ^ 32 in
  if m <? 2 ^ 31 then m else m - 2 ^ 32.

(** The line-feed character and the double quote, which string literals of
    this file do not spell out. *)
Definition LF : ascii := ascii_of_nat 10.
Definition DQ : string := String (ascii_of_nat 34) EmptyString.
Definition NL : string := String LF EmptyString.

(** Cutting a string after its first occurrence of [c] leaves a shorter
    string: the measure of the line loop. *)
Lemma drop_after_indexOf c s i :
  indexOf c s = Some i -> (String.length (drop (i + 1) s) < String.length s)%nat.
Proof.
  revert i. induction s as [|a r IH]; intros i; simpl; [discriminate|].
  destruct (Ascii.eqb a c).
  - intros [= <-]. simpl. lia.
  - destruct (indexOf c r) as [j|]; simpl; [|discriminate].
    intros [= <-]. specialize (IH j eq_refl). simpl. lia.
Qed.

End Js.

(** ** Session locator and session files ([daemon.ts], lines 53-205) *)
Module Session.

(** What the daemon process sees of its host: [process.env],
    [process.platform === 'win32'], [os.homedir()], [os.tmpdir()],
    [process.pid] and the module variable [currentSession]. *)
Record Host := {
  env : gmap string string;
  isWindows : bool;
  homedir : string;
  tmpdir : string;
  pid : Z;
  currentSession : string;
}.

(** The file system, as far as the daemon uses it: path to content. *)
Abbreviation Files := (gmap string string).

(** [process.env.NAME] used as a condition or with [||]: unset and empty are
    both falsy. *)
Definition envTruthy (h : Host) (name : string) : option string :=
  match env h !! name with
  | Some v => if Js.truthy v then Some v else None
  | None => None
  end.

(** [process.env.AGENT_BROWSER_SESSION || 'default']: the initial value of
    [currentSession]. *)
Definition initialSession (e : gmap string string) : string :=
  match e !! "AGENT_BROWSER_SESSION" with
  | Some v => if Js.truthy v then v else "default"
  | None => "default"
  end.

(** [path.join(dir, name)] for a directory and a file name without
    separators.  The file system below is keyed by the path as a text: what
    [path.join] normalises and what a file system folds (the case of letters
    on Windows and macOS) is not modelled, and no theorem tells two sessions'
    files apart. *)
Definition pathJoin (h : Host) (dir name : string) : string :=
  dir +:+ (if isWindows h then "\" else "/") +:+ name.

Fixpoint hashLoop (session : string) (hash : Z) : Z :=
  match session with
  | EmptyString => hash
  | String c r =>
      let hash1 := Js.toInt32 (Z.shiftl hash 5) - hash + Z.of_N (N_of_ascii c) in
      hashLoop r (Js.toInt32 hash1)
  end.

Definition getPortForSession (session : string) : Z :=
  let hash := hashLoop session 0 in
  49152 + (Z.abs hash mod 16383).

Definition getAppDir (h : Host) : string :=
  match envTruthy h "XDG_RUNTIME_DIR" with
  | Some d => pathJoin h d "agent-browser"
  | None =>
      if Js.truthy (homedir h) then pathJoin h (homedir h) ".agent-browser"
      else pathJoin h (tmpdir h) "agent-browser"
  end.

Definition getSocketDir (h : Host) : string :=
  match envTruthy h "AGENT_BROWSER_SOCKET_DIR" with
  | Some d => d
  | None => getAppDir h
  end.

(** [session ?? currentSession]. *)
Definition sessionOr (h : Host) (session : option string) : string :=
  default (currentSession h) session.

Definition getSocketPath (h : Host) (session : option string) : string :=
  let sess := sessionOr h session in
  if isWindows h then Js.numberToString (getPortForSession sess)
  else pathJoin h (getSocketDir h) (sess +:+ ".sock").

Definition getPortFile (h : Host) (session : option string) : string :=
  pathJoin h (getSocketDir h) (sessionOr h session +:+ ".port").

Definition getPidFile (h : Host) (session : option string) : string :=
  pathJoin h (getSocketDir h) (sessionOr h session +:+ ".pid").

Definition getStreamPortFile (h : Host) (session : option string) : string :=
  pathJoin h (getSocketDir h) (sessionOr h session +:+ ".stream").

Definition existsSync (fs : Files) (path : string) : bool :=
  bool_decide (is_Some (fs !! path)).

(** [if (fs.existsSync(p)) fs.unlinkSync(p)].  In this model of the file
    system unlinking an existing path succeeds, so the [catch] of
    [cleanupSocket] is never entered. *)
Definition unlinkIfExists (path : string) (fs : Files) : Files :=
  if existsSync fs path then delete path fs else fs.

Definition cleanupSocket (h : Host) (session : option string) (fs : Files) : Files :=
  let pidFile := getPidFile h session in
  let streamPortFile := getStreamPortFile h session in
  let fs := unlinkIfExists pidFile fs in
  let fs := unlinkIfExists streamPortFile fs in
  if isWindows h then unlinkIfExists (getPortFile h session) fs
  else unlinkIfExists (getSocketPath h session) fs.

(** [process.kill(pid, 0)] returns normally exactly when the argument is a
    number and the host lets the process signal that pid; [canSignal] is the
    host's process table. *)
Definition killProbe (canSignal : Z -> bool) (pid : option Z) : bool :=
  match pid with
  | Some p => canSignal p
  | None => false
  end.

(** [isDaemonRunning(session)]: the answer and the file system it leaves. *)
Definition isDaemonRunning (h : Host) (canSignal : Z -> bool)
    (session : option string) (fs : Files) : bool * Files :=
  let pidFile := getPidFile h session in
  match fs !! pidFile with
  | None => (false, fs)
  | Some content =>
      let pid := Js.parseInt10 (Js.trim content) in
      if killProbe canSignal pid then (true, fs)
      else (false, cleanupSocket h session fs)
  end.

(** The files [cleanupSocket] is responsible for: the pid file, the
    stream-port file and the port file (TCP platform) or the socket. *)
Definition sessionFiles (h : Host) (session : option string) : list string :=
  [ getPidFile h session; getStreamPortFile h session;
    if isWindows h then getPortFile h session else getSocketPath h session ].

End Session.

(** ** Startup: bind the listener, then persist the pid file
    ([daemon.ts], [startDaemon], lines 211-257 and 381-436, and the entry
    point, lines 495-502) *)
Module Startup.
Import Session.

(** What [server.listen] is asked to bind. *)
Inductive Target :=
| TcpPort (port : Z)
| UnixSocket (path : string).

(** A [NodeJS.ErrnoException]: [err.code] and [err.message]. *)
Record ListenError := { code : string; message : string }.

Inductive ListenOutcome :=
| Listening
| Failed (err : ListenError).

(** The host's answers: whether binding a target succeeds, and whether
    [streamServer.start()] on a port returns or throws. *)
Record Network := {
  listen : Target -> ListenOutcome;
  streamStarts : Z -> bool;
}.

(** What the startup sequence does, in order. *)
Inductive Event :=
| EvCleanup
| EvWriteFile (path content : string)
| EvListen (target : Target)
| EvListening
| EvError (err : ListenError)
| EvResolve
| EvReject (err : ListenError)
| EvExit (status : Z).

Inductive Outcome :=
| Resolved
| Rejected (err : ListenError).

(** The state threaded through startup: the files, the log of events, the
    number of callbacks that [server.listen(..., cb)] has registered with
    [once('listening', cb)] and that have not run, and the promise. *)
Record State := {
  files : Files;
  trace : list Event;
  listeningOnce : nat;
  settled : option Outcome;
}.

Definition emit (ev : Event) (st : State) : State :=
  {| files := files st; trace := trace st ++ [ev];
     listeningOnce := listeningOnce st; settled := settled st |}.

Definition writeFileSync (path content : string) (st : State) : State :=
  {| files := <[path := content]> (files st);
     trace := trace st ++ [EvWriteFile path content];
     listeningOnce := listeningOnce st; settled := settled st |}.

Definition cleanup (h : Host) (st : State) : State :=
  {| files := cleanupSocket h None (files st);
     trace := trace st ++ [EvCleanup];
     listeningOnce := listeningOnce st; settled := settled st |}.

(** [resolve()] and [reject(err)]: only the first call settles the promise. *)
Definition settle (o : Outcome) (st : State) : State :=
  {| files := files st; trace := trace st;
     listeningOnce := listeningOnce st;
     settled := match settled st with Some o' => Some o' | None => Some o end |}.

Definition resolve (st : State) : State := settle Resolved (emit EvResolve st).
Definition reject (err : ListenError) (st : State) : State :=
  settle (Rejected err) (emit (EvReject err) st).

(** [server.listen(target, cb)]: the callback is registered for the next
    'listening' event.  Binding a Unix socket creates the socket file, here
    at the path asked for (a path too long for the socket address is bound
    under a shortened name; no theorem relies on where the file is, only on
    [cleanupSocket] removing what is at the path). *)
Definition callListen (target : Target) (st : State) : State :=
  {| files := files st; trace := trace st ++ [EvListen target];
     listeningOnce := S (listeningOnce st); settled := settled st |}.

Definition bound (target : Target) (st : State) : State :=
  {| files := match target with
              | UnixSocket path => <[path := ""]> (files st)
              | TcpPort _ => files st
              end;
     trace := trace st ++ [EvListening];
     listeningOnce := listeningOnce st; settled := settled st |}.

(** The 'listening' event runs every registered callback once and forgets
    them. *)
Definition fireListening (cb : State -> State) (st : State) : State :=
  let st' := Nat.iter (listeningOnce st) cb st in
  {| files := files st'; trace := trace st';
     listeningOnce := O; settled := settled st' |}.

(** The callback of the TCP branch (lines 405-413); [actualPort] is
    [server.address().port]. *)
Definition tcpListening (h : Host) (actualPort : Z) (st : State) : State :=
  let st := writeFileSync (getPortFile h None) (Js.numberToString actualPort) st in
  let st := writeFileSync (getPidFile h None) (Js.numberToString (pid h)) st in
  resolve st.

(** The callback of the Unix branch (lines 428-434). *)
Definition unixListening (h : Host) (st : State) : State :=
  let st := writeFileSync (getPidFile h None) (Js.numberToString (pid h)) st in
  resolve st.

(** [tryPort(port, attempt)] (lines 391-414).  The [once('error')] handler
    registered by an attempt is the one the failure of that attempt runs. *)
Equations? tryPort (h : Host) (net : Network) (port : Z) (attempt : nat)
    (st : State) : State by wf (4 - attempt)%nat lt :=
tryPort h net port attempt st with listen net (TcpPort port) := {
  | Listening =>
      fireListening (tcpListening h port)
        (bound (TcpPort port) (callListen (TcpPort port) st))
  | Failed err with String.eqb (code err) "EADDRINUSE", lt_dec attempt 4 := {
      | true, left _ =>
          tryPort h net (port + 1) (S attempt)
            (emit (EvError err) (callListen (TcpPort port) st))
      | _, _ =>
          reject err (cleanup h (emit (EvError err) (callListen (TcpPort port) st)))
    }
}.
Proof. lia. Qed.

(** The promise of lines 384-436. *)
Definition bindListener (h : Host) (net : Network) (st : State) : State :=
  if isWindows h then
    let basePort := getPortForSession (currentSession h) in
    tryPort h net basePort 0 st
  else
    let socketPath := getSocketPath h None in
    let st := callListen (UnixSocket socketPath) st in
    match listen net (UnixSocket socketPath) with
    | Listening => fireListening (unixListening h) (bound (UnixSocket socketPath) st)
    | Failed err => reject err (cleanup h (emit (EvError err) st))
    end.

(** [options?.streamPort ?? (env ? parseInt(env, 10) : 0)]; [None] is
    [NaN]. *)
Definition streamPortOf (h : Host) (option_streamPort : option Z) : option Z :=
  match option_streamPort with
  | Some p => Some p
  | None =>
      match envTruthy h "AGENT_BROWSER_STREAM_PORT" with
      | Some v => Js.parseInt10 v
      | None => Some 0
      end
  end.

(** Lines 244-257: a stream server that fails to start is only logged. *)
Definition startStream (h : Host) (net : Network) (option_streamPort : option Z)
    (st : State) : State :=
  match streamPortOf h option_streamPort with
  | Some streamPort =>
      if (0 <? streamPort) && streamStarts net streamPort then
        writeFileSync (getStreamPortFile h None) (Js.numberToString streamPort) st
      else st
  | None => st
  end.

(** [startDaemon(options)] up to the settling of the bind promise.
    Directories and the log file are not part of the model. *)
Definition startDaemon (h : Host) (net : Network) (option_streamPort : option Z)
    (fs : Files) : State :=
  let st := {| files := fs; trace := []; listeningOnce := O; settled := None |} in
  let st := cleanup h st in
  let st := startStream h net option_streamPort st in
  bindListener h net st.

(** The entry point: [startDaemon().catch(err => { cleanupSocket();
    process.exit(1) })]. *)
Definition daemonMain (h : Host) (net : Network) (fs : Files) : State :=
  let st := startDaemon h net None fs in
  match settled st with
  | Some (Rejected _) => emit (EvExit 1) (cleanup h st)
  | _ => st
  end.

(** The targets of the [server.listen] calls of a trace, in order. *)
Definition listenTargets (tr : list Event) : list Target :=
  omap (fun ev => match ev with EvListen t => Some t | _ => None end) tr.

Definition isPidWrite (h : Host) (ev : Event) : bool :=
  match ev with
  | EvWriteFile path _ => bool_decide (path = getPidFile h None)
  | _ => false
  end.

(** *** The vocabulary of the startup theorems *)
Section Vocabulary.
Variable h : Host.

(** No event of the trace writes the pid file. *)
Definition noPidWrite (tr : list Event) : Prop :=
  Forall (fun ev => isPidWrite h ev = false) tr.

(** Nothing has been bound yet: no 'listening' event and no write of the pid
    file. *)
Definition unbound (tr : list Event) : Prop :=
  Forall (fun ev => isPidWrite h ev = false /\ ev <> EvListening) tr.

(** Every write of the pid file comes after a 'listening' event. *)
Definition pidAfterBind (tr : list Event) : Prop :=
  forall pre ev post,
    tr = pre ++ ev :: post -> isPidWrite h ev = true -> EvListening ∈ pre.

(** The state before the bind: nothing has written the pid file, it does
    not exist, and the promise is pending. *)
Definition beforeBind (st : State) : Prop :=
  unbound (trace st) /\ settled st = None
  /\ files st !! getPidFile h None = None.

(** The events of a 'listening' callback. *)
Definition callbackEvent (ev : Event) : Prop :=
  match ev with EvWriteFile _ _ | EvResolve => True | _ => False end.

(** The state after the bind promise has settled: resolved, with the pid
    file written only after the 'listening' event, or rejected, with no pid
    file written at all. *)
Definition afterBind (st : State) : Prop :=
  (exists tr0 tail,
      trace st = tr0 ++ EvListening :: tail
      /\ unbound tr0 /\ Forall callbackEvent tail
      /\ settled st = Some Resolved
      /\ files st !! getPidFile h None = Some (Js.numberToString (pid h)))
  \/ (exists err,
      unbound (trace st)
      /\ settled st = Some (Rejected err)
      /\ files st !! getPidFile h None = None).

(** What a 'listening' callback does to a state. *)
Definition isCallback (cb : State -> State) : Prop :=
  forall st, exists evs,
    trace (cb st) = trace st ++ evs /\ Forall callbackEvent evs
    /\ files (cb st) !! getPidFile h None = Some (Js.numberToString (pid h))
    /\ settled (cb st) = Some (default Resolved (settled st)).

End Vocabulary.

(** The ports [tryPort] asks for: consecutive, and at most as many as
    attempts are left. *)
Definition portsFrom (port : Z) (n : nat) : list Target :=
  (fun i => TcpPort (port + Z.of_nat i)) <$> seq 0 n.

End Startup.

(** ** Wire protocol values ([protocol.ts] is not among the sources) *)
Module Protocol.

(** A JSON scalar of a command. *)
Inductive Value :=
| VString (s : string)
| VBool (b : bool)
| VNumber (n : Z).

(** Modelled from the spec: the Command of section 3, [{id, action,
    action-specific fields}]; the fields are kept by name. *)
Record Command := {
  id : string;
  action : string;
  fields : gmap string Value;
}.

(** Modelled from the spec: the Response of sections 3 and 6,
    [{id, success, result}] or [{id, success: false, error}]. *)
Inductive Response :=
| Success (id : string) (data : string)
| Failure (id : string) (error : string).

Definition responseId (r : Response) : string :=
  match r with Success i _ => i | Failure i _ => i end.

Definition success (r : Response) : bool :=
  match r with Success _ _ => true | Failure _ _ => false end.

(** Modelled from the spec: the result of [parse(line)] (section 4.2),
    [{success: true, command}] or [{success: false, id?, error}]. *)
Inductive ParseResult :=
| ParseSuccess (command : Command)
| ParseFailure (id : option string) (error : string).

(** Modelled from the spec: [errorResponse(id, message)] of [protocol.ts],
    which "builds a failure Response". *)
Definition errorResponse (id message : string) : Response := Failure id message.

(** A call that returns a value or throws; a thrown value is kept as the
    message the daemon would report for it
    ([err instanceof Error ? err.message : String(err)]). *)
Inductive Result (A : Type) :=
| Returned (a : A)
| Threw (message : string).
Arguments Returned {A} a.
Arguments Threw {A} message.

End Protocol.

(** ** The connection handler ([daemon.ts], [startDaemon], lines 259-379) *)
Module Daemon.
Import Session Protocol.

(** [parseCommand] and [serializeResponse] of [protocol.ts], which the
    handler calls and whose source is not available. *)
Class Codec := {
  parseCommand : string -> ParseResult;
  serializeResponse : Response -> string;
}.

Record Proxy := { server : string; bypass : option string }.

(** The command that auto-launch synthesizes (lines 331-343). *)
Record LaunchCommand := {
  launch_id : string;
  launch_action : string;
  headless : bool;
  executablePath : option string;
  extensions : option (list string);
  profile : option string;
  storageState : option string;
  args : option (list string);
  userAgent : option string;
  proxy : option Proxy;
  ignoreHTTPSErrors : bool;
}.

(** The browser manager ([browser.isLaunched()], [browser.launch(...)]) and
    [executeCommand(command, browser)] of [actions.ts], over a browser state
    [B]. *)
Class Engine (B : Type) := {
  isLaunched : B -> bool;
  launch : LaunchCommand -> B -> Result unit * B;
  executeCommand : Command -> B -> Result Response * B;
}.

Definition isComma (c : ascii) : bool := Ascii.eqb c ",".
Definition isCommaOrNewline (c : ascii) : bool := Ascii.eqb c "," || Ascii.eqb c Js.LF.

(** [env.split(sep).map(x => x.trim()).filter(x => x.length > 0)]. *)
Definition envList (sep : ascii -> bool) (v : string) : list string :=
  filter (fun x => Is_true (Js.truthy x)) (Js.trim <$> Js.splitBy sep v).

Definition launchFromEnv (h : Host) : LaunchCommand :=
  let extensions := envList isComma <$> envTruthy h "AGENT_BROWSER_EXTENSIONS" in
  let args := envList isCommaOrNewline <$> envTruthy h "AGENT_BROWSER_ARGS" in
  let proxyBypass := envTruthy h "AGENT_BROWSER_PROXY_BYPASS" in
  let proxy :=
    (fun proxyServer => {| server := proxyServer; bypass := proxyBypass |})
      <$> envTruthy h "AGENT_BROWSER_PROXY" in
  let ignoreHTTPSErrors :=
    bool_decide (env h !! "AGENT_BROWSER_IGNORE_HTTPS_ERRORS" = Some "1") in
  {| launch_id := "auto";
     launch_action := "launch";
     headless := negb (bool_decide (env h !! "AGENT_BROWSER_HEADED" = Some "1"));
     executablePath := env h !! "AGENT_BROWSER_EXECUTABLE_PATH";
     extensions := extensions;
     profile := env h !! "AGENT_BROWSER_PROFILE";
     storageState := env h !! "AGENT_BROWSER_STATE";
     args := args;
     userAgent := env h !! "AGENT_BROWSER_USER_AGENT";
     proxy := proxy;
     ignoreHTTPSErrors := ignoreHTTPSErrors |}.

(** The verbs of the request-line pattern (line 274). *)
Definition httpVerbs : list string :=
  ["GET"; "POST"; "PUT"; "DELETE"; "HEAD"; "OPTIONS"; "PATCH"; "CONNECT"; "TRACE"].

(** Matching a literal of ASCII letters under the [i] flag: what is left of
    the subject after the literal, if it matches. *)
Fixpoint matchLiteralCI (literal subject : string) : option string :=
  match literal, subject with
  | EmptyString, _ => Some subject
  | String a l', String b s' =>
      if Ascii.eqb (Js.upperChar a) (Js.upperChar b) then matchLiteralCI l' s' else None
  | String _ _, EmptyString => None
  end.

(** [/^(GET|POST|PUT|DELETE|HEAD|OPTIONS|PATCH|CONNECT|TRACE)\s/i.test(s)]. *)
Definition httpRequestLine (s : string) : bool :=
  existsb (fun verb =>
             match matchLiteralCI verb s with
             | Some (String c _) => Js.isWhiteSpace c
             | _ => false
             end) httpVerbs.

(** Per-connection state: the closure variables [buffer] and [httpChecked],
    and whether [socket.destroy()] has been called. *)
Record Conn := {
  buffer : string;
  httpChecked : bool;
  destroyed : bool;
}.

(** State shared by all connections: the browser manager and
    [shuttingDown]. *)
Record Shared (B : Type) := {
  browser : B;
  shuttingDown : bool;
}.
Arguments browser {B} _.
Arguments shuttingDown {B} _.

(** What a handler does to the outside: the request-line test, a
    [socket.write(serializeResponse(response) + NL)], [socket.destroy()], and
    the [setTimeout] that closes the server, removes the session files and
    exits. *)
Inductive Event :=
| HttpTest (subject : string)
| SockWrite (response : Response)
| SockDestroy
| ScheduleShutdown.

(** The text a [SockWrite] puts on the socket. *)
Definition wireText `{Codec} (response : Response) : string :=
  serializeResponse response +:+ Js.NL.

(** How the body of the [while] loop ends: [continue]/fall-through, or the
    [return] of the close branch. *)
Inductive Flow := Continue | Return.

Section Handler.
Context `{Codec} {B : Type} `{Engine B}.
Variable h : Host.

(** Lines 297-349: launch the browser first when it is not launched and the
    command is neither launch nor close; a failure is rethrown. *)
Definition autoLaunch (command : Command) (d : Shared B) : Result unit * Shared B :=
  if negb (isLaunched (browser d))
     && negb (String.eqb (action command) "launch")
     && negb (String.eqb (action command) "close")
  then
    let '(r, b) := launch (launchFromEnv h) (browser d) in
    (r, {| browser := b; shuttingDown := shuttingDown d |})
  else (Returned tt, d).

(** The [try] block (lines 288-368). *)
Definition tryLine (line : string) (d : Shared B)
    : Result Flow * Shared B * list Event :=
  match parseCommand line with
  | ParseFailure pid error =>
      let resp := errorResponse (default "unknown" pid) error in
      (Returned Continue, d, [SockWrite resp])
  | ParseSuccess command =>
      match autoLaunch command d with
      | (Threw err, d) => (Threw err, d, [])
      | (Returned _, d) =>
          if String.eqb (action command) "close" then
            match executeCommand command (browser d) with
            | (Threw err, b) =>
                (Threw err, {| browser := b; shuttingDown := shuttingDown d |}, [])
            | (Returned response, b) =>
                (Returned Return,
                 {| browser := b; shuttingDown := true |},
                 SockWrite response ::
                   (if shuttingDown d then [] else [ScheduleShutdown]))
            end
          else
            match executeCommand command (browser d) with
            | (Threw err, b) =>
                (Threw err, {| browser := b; shuttingDown := shuttingDown d |}, [])
            | (Returned response, b) =>
                (Returned Continue,
                 {| browser := b; shuttingDown := shuttingDown d |},
                 [SockWrite response])
            end
      end
  end.

(** The [try]/[catch] of lines 288-372: a thrown error is answered with the
    id ['error']. *)
Definition handleLine (line : string) (d : Shared B) : Flow * Shared B * list Event :=
  match tryLine line d with
  | (Returned flow, d, evs) => (flow, d, evs)
  | (Threw message, d, evs) =>
      (Continue, d, evs ++ [SockWrite (errorResponse "error" message)])
  end.

(** [!line.trim()]. *)
Definition isBlank (line : string) : bool := negb (Js.truthy (Js.trim line)).

(** A value together with the equation that it is the value of [x]: the
    loop below needs the index it found to argue that the buffer shrinks. *)
Definition inspect {A : Type} (x : A) : { y : A | x = y } := exist _ x eq_refl.

(** The [while (buffer.includes(NL))] loop (lines 281-373): what is left in
    the buffer, the shared state and the events.  Each round removes a line
    and its line feed from the buffer, which is why the loop ends. *)
Equations? processLines (buf : string) (d : Shared B)
    : string * Shared B * list Event by wf (String.length buf) lt :=
processLines buf d with inspect (Js.indexOf Js.LF buf) := {
  | exist _ None Hnone => (buf, d, [])
  | exist _ (Some newlineIdx) Hidx
      with isBlank (Js.substring 0 newlineIdx buf) := {
      | true => processLines (Js.substringFrom (newlineIdx + 1) buf) d
      | false with handleLine (Js.substring 0 newlineIdx buf) d := {
          | (Return, d1, evs) => (Js.substringFrom (newlineIdx + 1) buf, d1, evs)
          | (Continue, d1, evs)
              with processLines (Js.substringFrom (newlineIdx + 1) buf) d1 := {
              | (rest, d2, evs') => (rest, d2, evs ++ evs')
            }
        }
    }
}.
Proof.
  all: unfold Js.substringFrom; eapply Js.drop_after_indexOf; eassumption.
Qed.

(** The ['data'] handler (lines 265-374). *)
Definition onData (data : string) (c : Conn) (d : Shared B)
    : Conn * Shared B * list Event :=
  let buf := buffer c +:+ data in
  let run (pre : list Event) :=
    let '(rest, d', evs) := processLines buf d in
    ({| buffer := rest; httpChecked := true; destroyed := false |}, d', pre ++ evs) in
  if negb (httpChecked c) then
    let trimmed := Js.trimStart buf in
    if httpRequestLine trimmed then
      ({| buffer := buf; httpChecked := true; destroyed := true |}, d,
       [HttpTest trimmed; SockDestroy])
    else run [HttpTest trimmed]
  else run [].

(** A connection fed its chunks one ['data'] event after the other, each
    handler running to completion before the next event; a destroyed socket
    delivers no further data.  The handler is an [async] function: the
    schedules in which it is suspended at an [await] and resumed later are
    those of [Async], below, of which this is one ([feed_is_a_schedule]). *)
Fixpoint feed (chunks : list string) (c : Conn) (d : Shared B)
    : Conn * Shared B * list Event :=
  match chunks with
  | [] => (c, d, [])
  | data :: more =>
      if destroyed c then (c, d, [])
      else
        let '(c1, d1, evs) := onData data c d in
        let '(c2, d2, evs') := feed more c1 d1 in
        (c2, d2, evs ++ evs')
  end.

End Handler.

(** A connection as [net.createServer] hands it to the handler. *)
Definition freshConn : Conn :=
  {| buffer := ""; httpChecked := false; destroyed := false |}.

Definition writes (evs : list Event) : list Response :=
  omap (fun ev => match ev with SockWrite r => Some r | _ => None end) evs.

Definition httpTests (evs : list Event) : list string :=
  omap (fun ev => match ev with HttpTest s => Some s | _ => None end) evs.

(** The complete lines of a buffer, in order, and the partial tail. *)
Fixpoint splitLines (buf : string) : list string * string :=
  match buf with
  | EmptyString => ([], EmptyString)
  | String c r =>
      let '(ls, tail) := splitLines r in
      if Ascii.eqb c Js.LF then (EmptyString :: ls, tail)
      else match ls with
           | [] => ([], String c tail)
           | l :: ls' => (String c l :: ls', tail)
           end
  end.

(** The buffer that holds the given complete lines and then a tail. *)
Fixpoint joinLines (ls : list string) (tail : string) : string :=
  match ls with
  | [] => tail
  | l :: ls' => l +:+ Js.NL +:+ joinLines ls' tail
  end.

(** The lines that get an answer: those that are not blank. *)
Definition answerable (ls : list string) : list string :=
  List.filter (fun l => negb (isBlank l)) ls.

(** *** The vocabulary of the connection theorems *)
Section Vocabulary.
Context `{Codec} {B : Type} `{Engine B}.
Variable h : Host.

(** How a run of the line loop ends: every complete line has been taken,
    or the last line taken was a close command. *)
Definition loopEnd (consumed : list string) (rest : string) (d : Shared B) : Prop :=
  Js.indexOf Js.LF rest = None
  \/ exists line command,
       last consumed = Some line
       /\ parseCommand line = ParseSuccess command
       /\ action command = "close"
       /\ shuttingDown d = true.

(** What one run of the loop does: it takes complete lines off the front of
    the buffer, writes one response for each that is not blank, and runs no
    request-line test. *)
Definition loopRun (buf : string) (consumed : list string)
    (r : string * Shared B * list Event) : Prop :=
  buf = joinLines consumed r.1.1
  /\ Forall (fun l => Js.indexOf Js.LF l = None) consumed
  /\ length (writes r.2) = length (answerable consumed)
  /\ httpTests r.2 = []
  /\ Forall (fun ev => ev <> SockDestroy) r.2
  /\ loopEnd consumed r.1.1 r.1.2.

End Vocabulary.

End Daemon.

(** ** The connection handler under the event loop ([daemon.ts],
    [startDaemon], lines 265-374)

    The ['data'] handler is an [async] function: it is suspended at the
    [await] of [browser.launch] (line 331) and at the [await] of
    [executeCommand] (lines 353 and 367), and while it is suspended the
    event loop delivers further data, which starts another run of the handler
    on the same [buffer], and resumes suspended handlers in any order.  The
    exit timer that a close command sets ends the process with the handlers
    that are still suspended.  The responses of the awaited calls are the
    environment's, so a schedule is a list of labels that says what happens
    next. *)
Module Async.
Import Session Protocol.

(** Where a handler is suspended, with the line it took off the buffer and
    the command the line parsed to. *)
Inductive Awaiting :=
| AwaitLaunch (line : string) (command : Command)
| AwaitExecute (line : string) (command : Command).

Definition lineOf (a : Awaiting) : string :=
  match a with AwaitLaunch line _ => line | AwaitExecute line _ => line end.

Definition commandOf (a : Awaiting) : Command :=
  match a with AwaitLaunch _ command => command | AwaitExecute _ command => command end.

(** Which [socket.write] of the loop body wrote a response: the one of the
    parse failure (line 293), the one after [executeCommand] (lines 354 and
    368), or the one of the [catch] block (line 371). *)
Inductive How := Unparsed | Executed | Thrown.

(** A response on the socket, with the line whose handling wrote it. *)
Record Answer := {
  answered : string;
  how : How;
  response : Response;
}.

(** A connection and the process around it: the closure variables [buffer]
    and [httpChecked], whether the socket is destroyed, [shuttingDown],
    whether the exit timer is set, whether the process has exited, the
    suspended handlers, and, for the statements, all the data delivered, the
    lines taken off the buffer and the responses written, each in order. *)
Record Sys := {
  buffer : string;
  httpChecked : bool;
  destroyed : bool;
  shuttingDown : bool;
  timer : bool;
  exited : bool;
  suspended : list Awaiting;
  received : string;
  taken : list string;
  written : list Answer;
}.

(** A connection as [net.createServer] hands it to the handler;
    [shuttingDown] may have been set on another connection or by a signal. *)
Definition fresh (shuttingDown0 : bool) : Sys :=
  {| buffer := ""; httpChecked := false; destroyed := false;
     shuttingDown := shuttingDown0; timer := false; exited := false;
     suspended := []; received := ""; taken := []; written := [] |}.

(** What the event loop does next.  [launched] is the answer of
    [browser.isLaunched()] should the handler ask (line 299); [k] is the
    position of the resumed handler among the suspended ones; the outcome is
    that of the awaited call. *)
Inductive Label :=
| Data (data : string) (launched : bool)
| LaunchDone (k : nat) (outcome : Result unit) (launched : bool)
| ExecuteDone (k : nat) (outcome : Result Response) (launched : bool)
| TimerFires.

(** The data of the ['data'] events of a schedule. *)
Fixpoint dataOf (labels : list Label) : string :=
  match labels with
  | [] => ""
  | Data data _ :: more => data +:+ dataOf more
  | _ :: more => dataOf more
  end.

(** What a handler does from the head of the [while] loop until it returns
    or is suspended: what is left in the buffer, the lines taken, the
    responses written and where it is suspended, if it is. *)
Record Segment := {
  rest : string;
  took : list string;
  wrote : list Answer;
  stop : option Awaiting;
}.

Section Handler.
Context `{Daemon.Codec}.

(** The responses [executeCommand] may resolve to for a command. *)
Variable answers : Command -> Response -> bool.

(** The condition of line 298. *)
Definition needsLaunch (launched : bool) (command : Command) : bool :=
  negb launched
  && negb (String.eqb (action command) "launch")
  && negb (String.eqb (action command) "close").

(** Lines 281-349 up to the first [await]: blank lines are skipped, a line
    that does not parse is answered at once, and a command suspends the
    handler at [browser.launch] or at [executeCommand]. *)
Equations? advance (launched : bool) (buf : string) : Segment
    by wf (String.length buf) lt :=
advance launched buf with Daemon.inspect (Js.indexOf Js.LF buf) := {
  | exist _ None Hnone => {| rest := buf; took := []; wrote := []; stop := None |}
  | exist _ (Some newlineIdx) Hidx
      with Daemon.isBlank (Js.substring 0 newlineIdx buf) := {
      | true with advance launched (Js.substringFrom (newlineIdx + 1) buf) := {
          | seg => {| rest := rest seg;
                      took := Js.substring 0 newlineIdx buf :: took seg;
                      wrote := wrote seg; stop := stop seg |}
        }
      | false with Daemon.parseCommand (Js.substring 0 newlineIdx buf) := {
          | ParseFailure pid error
              with advance launched (Js.substringFrom (newlineIdx + 1) buf) := {
              | seg => {| rest := rest seg;
                          took := Js.substring 0 newlineIdx buf :: took seg;
                          wrote := {| answered := Js.substring 0 newlineIdx buf;
                                      how := Unparsed;
                                      response := errorResponse (default "unknown" pid) error |}
                                   :: wrote seg;
                          stop := stop seg |}
            }
          | ParseSuccess command =>
              {| rest := Js.substringFrom (newlineIdx + 1) buf;
                 took := [Js.substring 0 newlineIdx buf];
                 wrote := [];
                 stop := Some (if needsLaunch launched command
                               then AwaitLaunch (Js.substring 0 newlineIdx buf) command
                               else AwaitExecute (Js.substring 0 newlineIdx buf) command) |}
        }
    }
}.
Proof.
  all: unfold Js.substringFrom; eapply Js.drop_after_indexOf; eassumption.
Qed.

Definition setSuspended (handlers : list Awaiting) (s : Sys) : Sys :=
  {| buffer := buffer s; httpChecked := httpChecked s; destroyed := destroyed s;
     shuttingDown := shuttingDown s; timer := timer s; exited := exited s;
     suspended := handlers; received := received s; taken := taken s;
     written := written s |}.

(** [socket.write(serializeResponse(response) + NL)]. *)
Definition write (a : Answer) (s : Sys) : Sys :=
  {| buffer := buffer s; httpChecked := httpChecked s; destroyed := destroyed s;
     shuttingDown := shuttingDown s; timer := timer s; exited := exited s;
     suspended := suspended s; received := received s; taken := taken s;
     written := written s ++ [a] |}.

(** A handler at the head of the [while] loop. *)
Definition loop (launched : bool) (s : Sys) : Sys :=
  let seg := advance launched (buffer s) in
  {| buffer := rest seg; httpChecked := httpChecked s; destroyed := destroyed s;
     shuttingDown := shuttingDown s; timer := timer s; exited := exited s;
     suspended := suspended s ++ option_list (stop seg);
     received := received s; taken := taken s ++ took seg;
     written := written s ++ wrote seg |}.

(** Lines 266-278: the data is appended to the buffer and, on the first
    data, the buffer is tested against the request-line pattern. *)
Definition onData (data : string) (launched : bool) (s : Sys) : Sys :=
  let buf := buffer s +:+ data in
  let s' := {| buffer := buf; httpChecked := true;
               destroyed := destroyed s; shuttingDown := shuttingDown s;
               timer := timer s; exited := exited s; suspended := suspended s;
               received := received s +:+ data; taken := taken s;
               written := written s |} in
  if negb (httpChecked s) && Daemon.httpRequestLine (Js.trimStart buf) then
    {| buffer := buf; httpChecked := true; destroyed := true;
       shuttingDown := shuttingDown s; timer := timer s; exited := exited s;
       suspended := suspended s; received := received s +:+ data;
       taken := taken s; written := written s |}
  else loop launched s'.

(** Lines 356-364 of the close branch: the exit timer is set unless shutdown
    is under way, and the handler returns. *)
Definition close (s : Sys) : Sys :=
  {| buffer := buffer s; httpChecked := httpChecked s; destroyed := destroyed s;
     shuttingDown := true; timer := timer s || negb (shuttingDown s);
     exited := exited s; suspended := suspended s; received := received s;
     taken := taken s; written := written s |}.

(** The callback of the exit timer (lines 358-362) ends in
    [process.exit(0)]. *)
Definition exit (s : Sys) : Sys :=
  {| buffer := buffer s; httpChecked := httpChecked s; destroyed := destroyed s;
     shuttingDown := shuttingDown s; timer := false; exited := true;
     suspended := suspended s; received := received s; taken := taken s;
     written := written s |}.

(** One step of the event loop; [None] when the step cannot happen: the
    process has exited, the socket is destroyed and delivers no data, no
    handler is suspended there, the executor does not resolve to that
    response, or no timer is set. *)
Definition step (l : Label) (s : Sys) : option Sys :=
  if exited s then None
  else
    match l with
    | Data data launched =>
        if destroyed s then None else Some (onData data launched s)
    | LaunchDone k outcome launched =>
        match suspended s !! k with
        | Some (AwaitLaunch line command) =>
            match outcome with
            | Returned _ =>
                Some (setSuspended (<[k := AwaitExecute line command]> (suspended s)) s)
            | Threw message =>
                Some (loop launched
                        (write {| answered := line; how := Thrown;
                                  response := errorResponse "error" message |}
                           (setSuspended (delete k (suspended s)) s)))
            end
        | _ => None
        end
    | ExecuteDone k outcome launched =>
        match suspended s !! k with
        | Some (AwaitExecute line command) =>
            let s := setSuspended (delete k (suspended s)) s in
            match outcome with
            | Returned resp =>
                if answers command resp then
                  let s := write {| answered := line; how := Executed;
                                    response := resp |} s in
                  if String.eqb (action command) "close" then Some (close s)
                  else Some (loop launched s)
                else None
            | Threw message =>
                Some (loop launched
                        (write {| answered := line; how := Thrown;
                                  response := errorResponse "error" message |} s))
            end
        | _ => None
        end
    | TimerFires => if timer s then Some (exit s) else None
    end.

(** A schedule, from a state; [None] when one of its steps cannot happen. *)
Fixpoint run (labels : list Label) (s : Sys) : option Sys :=
  match labels with
  | [] => Some s
  | l :: more =>
      match step l s with
      | Some s' => run more s'
      | None => None
      end
  end.

(** *** The vocabulary of the theorems on schedules *)

(** The response of an answer fits the line it answers: the parser's id, or
    ['unknown'], for a line that does not parse; a response of the executor
    for the command of the line; or id ['error'] for a throw. *)
Definition fits (a : Answer) : Prop :=
  match how a, Daemon.parseCommand (answered a) with
  | Unparsed, ParseFailure pid error =>
      response a = errorResponse (default "unknown" pid) error
  | Executed, ParseSuccess command => answers command (response a) = true
  | Thrown, ParseSuccess command =>
      exists message, response a = errorResponse "error" message
  | _, _ => False
  end.

(** A suspended handler holds a line and the command it parsed to. *)
Definition parsed (a : Awaiting) : Prop :=
  Daemon.parseCommand (lineOf a) = ParseSuccess (commandOf a).

(** A close command has been executed and answered. *)
Definition closedBy (s : Sys) : Prop :=
  exists a command,
    a ∈ written s /\ how a = Executed
    /\ Daemon.parseCommand (answered a) = ParseSuccess command
    /\ action command = "close".

(** What every schedule keeps: the data delivered is the lines taken
    followed by the buffer; every taken line that is not blank has been
    answered once or is held by one suspended handler; every response fits
    its line; no line is taken before the request-line test or after the
    socket is destroyed. *)
Record Kept (s : Sys) : Prop := {
  kept_received : received s = Daemon.joinLines (taken s) (buffer s);
  kept_lines : Forall (fun l => Js.indexOf Js.LF l = None) (taken s);
  kept_accounted :
    Daemon.answerable (taken s)
    ≡ₚ (answered <$> written s) ++ (lineOf <$> suspended s);
  kept_written : Forall fits (written s);
  kept_suspended : Forall parsed (suspended s);
  kept_destroyed :
    destroyed s = true -> taken s = [] /\ written s = [] /\ suspended s = [];
  kept_unchecked :
    httpChecked s = false -> taken s = [] /\ written s = [] /\ suspended s = [];
}.

(** Complete lines are left in the buffer by returned handlers only behind
    an executed close command. *)
Definition pendingOnlyAfterClose (s : Sys) : Prop :=
  suspended s = [] -> destroyed s = false ->
  Js.indexOf Js.LF (buffer s) <> None -> closedBy s.

End Handler.

End Async.

(** ** The command executor ([actions.ts] is not among the sources; its
    tests are [actions.test.ts]) *)
Module Actions.
Import Protocol.

(** Modelled from the spec: the error categories of section 7. *)
Inductive ErrorCategory :=
| ParseError
| UnknownAction
| NotFoundOrNotVisible
| BlockedByOverlay
| Timeout
| LaunchFailure
| EngineFailure.

(** A row of the classification table: the category, the test on the
    lower-cased failure text, and the message for a lower-cased text and a
    ref. *)
Record Rule := {
  category : ErrorCategory;
  applies : string -> bool;
  render : string -> string -> string;
}.

(** Modelled from the spec: the BlockedByOverlay row of [toAIFriendlyError]
    (section 7).  The message "must state the element is blocked by another
    element/modal/overlay" and "additionally suggest dismissing cookie
    banners" when the text around the interception mentions a cookie; the
    phrases are the ones [actions.test.ts] expects. *)
Definition overlayRule : Rule :=
  {| category := BlockedByOverlay;
     applies := fun lowered => Js.includes "intercepts pointer events" lowered;
     render := fun lowered _ =>
       "Element is blocked by another element (likely a modal or overlay)." +:+
       (if Js.includes "cookie" lowered
        then " Try dismissing any modals or cookie banners first."
        else "") |}.

(** Modelled from the spec: the Timeout row, "generic, no interception
    signature detected"; the ref is included for traceability. *)
Definition timeoutRule : Rule :=
  {| category := Timeout;
     applies := fun lowered => Js.includes "timeout" lowered;
     render := fun _ ref => "Action on " +:+ ref +:+ " timed out." |}.

(** The first row that applies. *)
Definition classify (rules : list Rule) (lowered : string) : option Rule :=
  find (fun r => applies r lowered) rules.

(** Modelled from the spec: [toAIFriendlyError(error, ref)] of [actions.ts]
    (section 4.3), over a rule table kept as data (section 9): the failure
    text is matched case-insensitively against the rows in order; an
    unmatched text "is preserved verbatim" in category EngineFailure. *)
Definition toAIFriendlyErrorWith (rules : list Rule) (raw ref : string)
    : ErrorCategory * string :=
  let lowered := Js.toLowerCase raw in
  match classify rules lowered with
  | Some r => (category r, render r lowered ref)
  | None => (EngineFailure, raw)
  end.

(** Modelled from the spec: the table of [toAIFriendlyError]; interception
    is looked for before the generic timeout, from which it "must be
    distinguished even when the raw message also mentions a timeout". *)
Definition ruleTable : list Rule := [overlayRule; timeoutRule].

Definition toAIFriendlyError (raw ref : string) : ErrorCategory * string :=
  toAIFriendlyErrorWith ruleTable raw ref.

(** Modelled from the spec: FocusGuardState of section 3, process-wide. *)
Inductive FocusGuardState := Idle | Armed.

(** An argument of a finder call: a field of the command ([None] when the
    command has no such field) or an options object of such fields. *)
Inductive Arg :=
| Positional (v : option Value)
| Options (entries : list (string * option Value)).

(** A locator, described by the calls that produced it. *)
Inductive Locator :=
| OfBrowser (selector : option Value)
| OfFinder (method : string) (args : list Arg)
| OfPage (selector : option Value)
| LastOf (base : Locator)
| NthOf (base : Locator) (index : Z).

(** The calls the executor makes on the browser manager, the page and the
    locators, as the mocks of [actions.test.ts] record them. *)
Inductive Call :=
| ArmSnapshotFocusGuard
| ClearSnapshotFocusGuard
| GetLocator (selector : option Value)
| Finder (method : string) (args : list Arg)
| PageLocator (selector : option Value)
| CallLast (base : Locator)
| CallNth (base : Locator) (index : Z)
| Operate (operation : string) (target : Locator).

(** Modelled from the spec: the session as the executor sees it, the guard
    and the log of the calls made on the browser manager, the page and the
    locators. *)
Record Browser := {
  guard : FocusGuardState;
  calls : list Call;
}.

(** The automation engine: whether an operation on a locator returns or
    throws, and every action this model does not cover. *)
Record Engine := {
  perform : string -> Locator -> Result unit;
  otherAction : Command -> Browser -> Response * Browser;
}.

Definition record (c : Call) (b : Browser) : Browser :=
  {| guard := guard b; calls := calls b ++ [c] |}.

Definition armSnapshotFocusGuard (b : Browser) : Browser :=
  {| guard := Armed; calls := calls b ++ [ArmSnapshotFocusGuard] |}.

Definition clearSnapshotFocusGuard (b : Browser) : Browser :=
  {| guard := Idle; calls := calls b ++ [ClearSnapshotFocusGuard] |}.

Definition field (c : Command) (name : string) : option Value := fields c !! name.

(** The text of a field, for error messages. *)
Definition fieldText (c : Command) (name : string) : string :=
  match field c name with
  | Some (VString s) => s
  | _ => ""
  end.

(** Modelled from the spec: the focus-mutating operations of section 4.3,
    "click, double-click". *)
Definition focusMutating (operation : string) : bool :=
  String.eqb operation "click" || String.eqb operation "dblclick".

(** Modelled from the spec: the focus-guard contract of section 4.3 around
    one operation on a resolved target.  The guard is armed by the caller
    before the target is resolved; a throwing operation clears it and is
    answered with the classified error, a returning one leaves it armed. *)
Definition operate (e : Engine) (id operation ref : string) (target : Locator)
    (b : Browser) : Response * Browser :=
  let b := record (Operate operation target) b in
  match perform e operation target with
  | Returned _ => (Success id operation, b)
  | Threw raw =>
      let b := if focusMutating operation then clearSnapshotFocusGuard b else b in
      (Failure id (snd (toAIFriendlyError raw ref)), b)
  end.

Definition armFor (operation : string) (b : Browser) : Browser :=
  if focusMutating operation then armSnapshotFocusGuard b else b.

(** Modelled from the spec: the page method and the positional arguments of
    each semantic finder (section 4.3: "the text finder with exact passes the
    text plus an options object carrying exact"); the rows are those of the
    table in [actions.test.ts], lines 96-139. *)
Definition finderCall (c : Command) : option (string * list Arg) :=
  let a := action c in
  if String.eqb a "getbyrole" then
    Some ("getByRole", [Positional (field c "role"); Options [("name", field c "name")]])
  else if String.eqb a "getbytext" then
    Some ("getByText", [Positional (field c "text"); Options [("exact", field c "exact")]])
  else if String.eqb a "getbylabel" then
    Some ("getByLabel", [Positional (field c "label")])
  else if String.eqb a "getbyplaceholder" then
    Some ("getByPlaceholder", [Positional (field c "placeholder")])
  else if String.eqb a "getbyalttext" then
    Some ("getByAltText", [Positional (field c "text"); Options [("exact", field c "exact")]])
  else if String.eqb a "getbytitle" then
    Some ("getByTitle", [Positional (field c "text"); Options [("exact", field c "exact")]])
  else if String.eqb a "getbytestid" then
    Some ("getByTestId", [Positional (field c "testId")])
  else None.

(** [command.index], 0 when it is not a number. *)
Definition indexOfCommand (c : Command) : Z :=
  match field c "index" with
  | Some (VNumber n) => n
  | _ => 0
  end.

(** Modelled from the spec: [executeCommand(command, session)] of
    [actions.ts] for the three addressing styles of section 4.3: a direct
    click or double-click on a selector, a semantic finder followed by a
    subaction, and "nth", where "a negative index selects the last match and
    a non-negative index selects that ordinal match".  Every other action is
    the engine's. *)
Definition executeCommand (e : Engine) (c : Command) (b : Browser)
    : Response * Browser :=
  let a := action c in
  if focusMutating a then
    let b := armSnapshotFocusGuard b in
    let b := record (GetLocator (field c "selector")) b in
    operate e (id c) a (fieldText c "selector") (OfBrowser (field c "selector")) b
  else if String.eqb a "nth" then
    let sub := fieldText c "subaction" in
    let b := armFor sub b in
    let base := OfPage (field c "selector") in
    let b := record (PageLocator (field c "selector")) b in
    let index := indexOfCommand c in
    if index <? 0 then
      let b := record (CallLast base) b in
      operate e (id c) sub (fieldText c "selector") (LastOf base) b
    else
      let b := record (CallNth base index) b in
      operate e (id c) sub (fieldText c "selector") (NthOf base index) b
  else
    match finderCall c with
    | Some (method, args) =>
        let sub := fieldText c "subaction" in
        let b := armFor sub b in
        let b := record (Finder method args) b in
        operate e (id c) sub a (OfFinder method args) b
    | None => otherAction e c b
    end.

Definition isOperate (c : Call) : bool :=
  match c with Operate _ _ => true | _ => false end.
Definition isArm (c : Call) : bool :=
  match c with ArmSnapshotFocusGuard => true | _ => false end.
Definition isClear (c : Call) : bool :=
  match c with ClearSnapshotFocusGuard => true | _ => false end.

(** How often a kind of call occurs in a log. *)
Definition times (kind : Call -> bool) (log : list Call) : nat :=
  length (List.filter kind log).

End Actions.

(** ** The snapshot builder ([snapshot.ts] is not among the sources; its
    tests are [snapshot.test.ts]) *)
Module Snapshot.
Import Protocol.
Import Actions (FocusGuardState, Idle, Armed).

(** A node of the ref table. *)
Record RefNode := { role : string; name : option string }.

Record EnhancedSnapshot := {
  tree : string;
  refs : gmap string RefNode;
}.

(** The two page-level scripts of the guard. *)
Inductive GuardScript := InstallGuard | RemoveGuard.

(** The calls on the page, as the mocks of [snapshot.test.ts] record them. *)
Inductive Call :=
| Evaluate (script : GuardScript)
| SnapshotForAI
| Locator (selector : string)
| AriaSnapshot (selector : string).

Record Page := {
  guard : FocusGuardState;
  calls : list Call;
}.

(** The automation engine: the privileged full-tree capability, which
    returns the ref-annotated text or throws, and the aria snapshot of a
    selector, which returns its text or throws. *)
Record Engine := {
  snapshotForAI : Result string;
  ariaSnapshot : string -> Result string;
}.

Definition record (c : Call) (p : Page) : Page :=
  {| guard := guard p; calls := calls p ++ [c] |}.

Definition evaluate (script : GuardScript) (p : Page) : Page :=
  {| guard := match script with InstallGuard => Armed | RemoveGuard => Idle end;
     calls := calls p ++ [Evaluate script] |}.

(** The text after the first occurrence of [marker], if there is one. *)
Fixpoint textAfter (marker s : string) : option string :=
  if Js.startsWith marker s then Some (Js.drop (String.length marker) s)
  else match s with
       | EmptyString => None
       | String _ r => textAfter marker r
       end.

(** The text before the first character that satisfies [stop]. *)
Fixpoint textUntil (stop : ascii -> bool) (s : string) : string :=
  match s with
  | EmptyString => EmptyString
  | String c r => if stop c then EmptyString else String c (textUntil stop r)
  end.

Definition isDQ (c : ascii) : bool := Ascii.eqb c (ascii_of_nat 34).

Definition endsRole (c : ascii) : bool :=
  Js.isWhiteSpace c || Ascii.eqb c ":" || Ascii.eqb c "[" || isDQ c.

(** The role on a tree line: the word after the indentation and the dash. *)
Definition lineRole (line : string) : string :=
  let body := Js.trimStart line in
  let body := if Js.startsWith "- " body then Js.drop 2 body else body in
  textUntil endsRole body.

(** The quoted name on a tree line. *)
Definition lineName (line : string) : option string :=
  match textAfter Js.DQ line with
  | Some r =>
      match Js.indexOf (ascii_of_nat 34) r with
      | Some i => Some (Js.take i r)
      | None => None
      end
  | None => None
  end.

(** The bracketed ref token of a tree line. *)
Definition lineRef (line : string) : option string :=
  match textAfter "[ref=" line with
  | Some r =>
      match Js.indexOf "]" r with
      | Some i => Some (Js.take i r)
      | None => None
      end
  | None => None
  end.

(** Modelled from the spec: the ref table of a ref-annotated tree (section
    4.4), "scanning for bracketed ref tokens paired with the role/name on
    that line". *)
Definition parseRefs (full : string) : gmap string RefNode :=
  foldl (fun acc line =>
           match lineRef line with
           | Some r => <[r := {| role := lineRole line; name := lineName line |}]> acc
           | None => acc
           end)
        ∅ (Js.splitBy (fun c => Ascii.eqb c Js.LF) full).

(** The snapshot of a selector: its aria snapshot text as the tree, and no
    ref table; a throw of the aria snapshot is not caught. *)
Definition plainSnapshot (e : Engine) (selector : string) : Result EnhancedSnapshot :=
  match ariaSnapshot e selector with
  | Returned text => Returned {| tree := text; refs := ∅ |}
  | Threw message => Threw message
  end.

(** Modelled from the spec: [getEnhancedSnapshot(page, options?)] of
    [snapshot.ts] (section 4.4).  With a selector: no guard call, the
    selector's snapshot text, no refs.  Full page: arm the guard, try the
    privileged capability, clear the guard in both outcomes; on failure fall
    back to the root-level snapshot without refs. *)
Definition getEnhancedSnapshot (e : Engine) (selector : option string) (p : Page)
    : Result EnhancedSnapshot * Page :=
  match selector with
  | Some sel =>
      let p := record (Locator sel) p in
      let p := record (AriaSnapshot sel) p in
      (plainSnapshot e sel, p)
  | None =>
      let p := evaluate InstallGuard p in
      let p := record SnapshotForAI p in
      match snapshotForAI e with
      | Returned full =>
          let p := evaluate RemoveGuard p in
          (Returned {| tree := full; refs := parseRefs full |}, p)
      | Threw _ =>
          let p := evaluate RemoveGuard p in
          let p := record (Locator ":root") p in
          let p := record (AriaSnapshot ":root") p in
          (plainSnapshot e ":root", p)
      end
  end.

Definition isEvaluate (c : Call) : bool :=
  match c with Evaluate _ => true | _ => false end.

Definition guardCalls (log : list Call) : list GuardScript :=
  omap (fun c => match c with Evaluate s => Some s | _ => None end) log.

End Snapshot.

(** ** Connection info and the session hash ([daemon.ts], lines 76-88 and
    164-176) *)
Module Connect.
Import Session.

(** The result of [getConnectionInfo]: [{ type: 'unix', path }] or
    [{ type: 'tcp', port }]. *)
Inductive ConnectionInfo :=
| Unix (path : string)
| Tcp (port : Z).

Definition getConnectionInfo (h : Host) (session : option string) : ConnectionInfo :=
  let sess := sessionOr h session in
  if isWindows h then Tcp (getPortForSession sess)
  else Unix (pathJoin h (getSocketDir h) (sess +:+ ".sock")).

(** The hash of [getPortForSession] without the wrap to 32 bits: the
    polynomial in 31 whose coefficients are the code units. *)
Fixpoint polynomial (session : string) (hash : Z) : Z :=
  match session with
  | EmptyString => hash
  | String c r => polynomial r (31 * hash + Z.of_N (N_of_ascii c))
  end.

(** The number a digit sequence stands for after the digits read so far
    stand for [a]: what [parseInt] makes of the digits [toString] wrote. *)
Fixpoint digitsValue (d : Decimal.uint) (a : N) : N :=
  match d with
  | Decimal.Nil => a
  | Decimal.D0 l => digitsValue l (10 * a)
  | Decimal.D1 l => digitsValue l (10 * a + 1)
  | Decimal.D2 l => digitsValue l (10 * a + 2)
  | Decimal.D3 l => digitsValue l (10 * a + 3)
  | Decimal.D4 l => digitsValue l (10 * a + 4)
  | Decimal.D5 l => digitsValue l (10 * a + 5)
  | Decimal.D6 l => digitsValue l (10 * a + 6)
  | Decimal.D7 l => digitsValue l (10 * a + 7)
  | Decimal.D8 l => digitsValue l (10 * a + 8)
  | Decimal.D9 l => digitsValue l (10 * a + 9)
  end%N.

(** The file the bind itself leaves: the port file or the socket. *)
Definition boundFile (h : Host) : string :=
  if isWindows h then getPortFile h None else getSocketPath h None.

(** A path that the bind and its callbacks do not write. *)
Definition unwritten (h : Host) (q : string) : Prop :=
  q <> getPidFile h None /\ q <> boundFile h.

(** The step from [st] to [st'] leaves the unwritten paths as they were or
    as [cleanupSocket] leaves them. *)
Definition framed (h : Host) (st st' : Startup.State) : Prop :=
  forall q, unwritten h q ->
    Startup.files st' !! q = Startup.files st !! q
    \/ Startup.files st' !! q = cleanupSocket h None (Startup.files st) !! q.

End Connect.

(** ** The vocabulary of the further connection theorems *)
Module Traffic.
Import Daemon.

(** [s.toUpperCase()] on the ASCII letters. *)
Fixpoint toUpperCase (s : string) : string :=
  match s with
  | EmptyString => EmptyString
  | String c r => String (Js.upperChar c) (toUpperCase r)
  end.

(** The first letters of the verbs of the request-line pattern. *)
Definition verbInitials : list ascii := ["G"; "P"; "D"; "H"; "O"; "C"; "T"]%char.




(** The characters of a text. *)
Fixpoint chars (s : string) : list ascii :=
  match s with
  | EmptyString => []
  | String c r => c :: chars r
  end.

End Traffic.

(** ** The ways the process ends once the daemon is up ([daemon.ts],
    [startDaemon], lines 356-363 and 438-489)

    The files are the session's; what the handlers write to the log file
    ([log], line 440) and to the console is not part of the model. *)
Module Lifecycle.
Import Session.

(** What the process reacts to: a signal ([SIGINT], [SIGTERM], [SIGHUP], all
    bound to [shutdown]), the timer that a close command set, an 'error' event
    of the server after the bind, an uncaught exception and an unhandled
    rejection. *)
Inductive Cause :=
| Signal
| CloseTimer
| ServerError
| UncaughtException
| UnhandledRejection.

(** The files, the closure variable [shuttingDown], whether the module
    variable [streamServer] is not null, and the exit status once
    [process.exit] has been called. *)
Record Process := {
  files : Files;
  shuttingDown : bool;
  streamServer : bool;
  exited : option Z;
}.

(** The host's answers during [shutdown]: whether [streamServer.stop()] and
    [browser.close()] return or throw. *)
Record Teardown := {
  streamStops : bool;
  browserCloses : bool;
}.

(** [process.exit(status)]: the 'exit' handler (lines 487-489) runs
    [cleanupSocket] and the process ends. *)
Definition exit (h : Host) (status : Z) (p : Process) : Process :=
  {| files := cleanupSocket h None (files p);
     shuttingDown := shuttingDown p; streamServer := streamServer p;
     exited := Some status |}.

(** [cleanupSocket(); process.exit(status)]. *)
Definition cleanupAndExit (h : Host) (status : Z) (p : Process) : Process :=
  exit h status
    {| files := cleanupSocket h None (files p);
       shuttingDown := shuttingDown p; streamServer := streamServer p;
       exited := exited p |}.

(** [shutdown] (lines 446-467).  A throw of [streamServer.stop()] or
    [browser.close()] rejects the promise of the handler, which nothing
    awaits: the 'unhandledRejection' handler runs. *)
Definition shutdown (h : Host) (t : Teardown) (p : Process) : Process :=
  if shuttingDown p then p
  else
    let p := {| files := files p; shuttingDown := true;
                streamServer := streamServer p; exited := exited p |} in
    let closeBrowser (p : Process) :=
      if browserCloses t then cleanupAndExit h 0 p else cleanupAndExit h 1 p in
    if streamServer p then
      if streamStops t then
        closeBrowser
          {| files := unlinkIfExists (getStreamPortFile h None) (files p);
             shuttingDown := shuttingDown p; streamServer := false;
             exited := exited p |}
      else cleanupAndExit h 1 p
    else closeBrowser p.

(** One reaction of the process; a process that has exited reacts to
    nothing. *)
Definition react (h : Host) (t : Teardown) (p : Process) (cause : Cause) : Process :=
  match exited p with
  | Some _ => p
  | None =>
      match cause with
      | Signal => shutdown h t p
      | CloseTimer => cleanupAndExit h 0 p
      | ServerError | UncaughtException | UnhandledRejection => cleanupAndExit h 1 p
      end
  end.

(** The process after a sequence of causes. *)
Definition run (h : Host) (t : Teardown) (causes : list Cause) (p : Process) : Process :=
  foldl (react h t) p causes.

End Lifecycle.

(** ** Hosts, codecs, engines and commands of the closed examples *)

(** A Unix host with the default session, for the closed examples. *)
Definition unixHost : Session.Host :=
  {| Session.env := ∅; Session.isWindows := false; Session.homedir := "/home/u";
     Session.tmpdir := "/tmp"; Session.pid := 4521;
     Session.currentSession := "default" |}.

(** A TCP-platform host. *)
Definition tcpHost : Session.Host :=
  {| Session.env := ∅; Session.isWindows := true; Session.homedir := "C:";
     Session.tmpdir := "C:"; Session.pid := 4521;
     Session.currentSession := "default" |}.

(** A toy codec and engine for the closed examples: a line is
    [id:action]; the engine answers every command with success and cannot
    launch a browser. *)
Definition demoParse (line : string) : Protocol.ParseResult :=
  match Js.indexOf ":" line with
  | Some i =>
      Protocol.ParseSuccess
        {| Protocol.id := Js.substring 0 i line;
           Protocol.action := Js.substringFrom (i + 1) line;
           Protocol.fields := ∅ |}
  | None => Protocol.ParseFailure None "Invalid JSON"
  end.

Definition demoCodec : Daemon.Codec :=
  {| Daemon.parseCommand := demoParse;
     Daemon.serializeResponse := Protocol.responseId |}.

(** The browser state is whether it is launched. *)
Definition demoEngine (canLaunch : bool) : Daemon.Engine bool :=
  {| Daemon.isLaunched := fun b => b;
     Daemon.launch := fun _ b =>
       if canLaunch then (Protocol.Returned tt, true)
       else (Protocol.Threw "no browser", b);
     Daemon.executeCommand := fun c b =>
       (Protocol.Returned (Protocol.Success (Protocol.id c) "ok"), b) |}.

Definition demoShared : Daemon.Shared bool :=
  {| Daemon.browser := false; Daemon.shuttingDown := false |}.

(** An executor that echoes the id of its command, for the closed
    examples on schedules. *)
Definition echoes (command : Protocol.Command) (r : Protocol.Response) : bool :=
  String.eqb (Protocol.responseId r) (Protocol.id command).

(** The responses of a schedule on a fresh connection, in the order they were
    written, each with its line. *)
Definition responsesOf (labels : list Async.Label) : option (list (string * Protocol.Response)) :=
  (fun s => (fun a => (Async.answered a, Async.response a)) <$> Async.written s)
    <$> @Async.run demoCodec echoes labels (Async.fresh false).

(** An engine whose clicks fail with the given text, if any. *)
Definition clickEngine (failure : option string) : Actions.Engine :=
  {| Actions.perform := fun _ _ =>
       match failure with
       | Some raw => Protocol.Threw raw
       | None => Protocol.Returned tt
       end;
     Actions.otherAction := fun c b =>
       (Protocol.Failure (Protocol.id c) "Unknown action", b) |}.

Definition idleBrowser : Actions.Browser :=
  {| Actions.guard := Actions.Idle; Actions.calls := [] |}.

(** The command [{id, action, selector}] of the click tests. *)
Definition selectorCommand (id action selector : string) : Protocol.Command :=
  {| Protocol.id := id; Protocol.action := action;
     Protocol.fields := {[ "selector" := Protocol.VString selector ]} |}.


Definition nthCommand (index : Z) : Protocol.Command :=
  {| Protocol.id := "nth-click"; Protocol.action := "nth";
     Protocol.fields :=
       {[ "selector" := Protocol.VString "button[title]";
          "index" := Protocol.VNumber index;
          "subaction" := Protocol.VString "click" ]} |}.




Definition menuSnapshotEngine : Snapshot.Engine :=
  {| Snapshot.snapshotForAI :=
       Protocol.Returned
         ("- menu [ref=e1]:" +:+ Js.NL
          +:+ "  - menuitem " +:+ Js.DQ +:+ "Edit" +:+ Js.DQ +:+ " [ref=e2]");
     Snapshot.ariaSnapshot := fun _ =>
       Protocol.Returned ("- heading " +:+ Js.DQ +:+ "Main" +:+ Js.DQ) |}.

Definition idlePage : Snapshot.Page :=
  {| Snapshot.guard := Actions.Idle; Snapshot.calls := [] |}.

(* ===================================================================== *)
(** * Part II. Theorems *)
(* ===================================================================== *)

Example trim_example : Js.trim "  12 " = "12".
Proof. reflexivity. Qed.
Example parseInt_example : Js.parseInt10 " 4521x" = Some 4521.
Proof. reflexivity. Qed.
Example parseInt_nan : Js.parseInt10 "pid" = None.
Proof. reflexivity. Qed.
Example numberToString_example : Js.numberToString 4521 = "4521".
Proof. reflexivity. Qed.

(** ** Session files *)
Section SessionFacts.
Import Session.

Lemma append_cons c a x : String c a +:+ x = String c (a +:+ x).
Proof. reflexivity. Qed.

Lemma append_inj_l a x y : a +:+ x = a +:+ y -> x = y.
Proof.
  induction a as [|c a IH]; [done|].
  rewrite !append_cons. intros [= E]. auto.
Qed.

Lemma pathJoin_inj h dir x y : pathJoin h dir x = pathJoin h dir y -> x = y.
Proof. unfold pathJoin. intros E. by do 2 apply append_inj_l in E. Qed.

(** The session's files have pairwise different paths. *)
Lemma pid_ne_stream h session : getPidFile h session <> getStreamPortFile h session.
Proof.
  unfold getPidFile, getStreamPortFile. intros E%pathJoin_inj%append_inj_l.
  discriminate.
Qed.

Lemma pid_ne_port h session : getPidFile h session <> getPortFile h session.
Proof.
  unfold getPidFile, getPortFile. intros E%pathJoin_inj%append_inj_l.
  discriminate.
Qed.

Lemma pid_ne_socket h session :
  isWindows h = false -> getPidFile h session <> getSocketPath h session.
Proof.
  unfold getPidFile, getSocketPath. intros ->. intros E%pathJoin_inj%append_inj_l.
  discriminate.
Qed.

Lemma unlinkIfExists_eq path (fs : Files) : unlinkIfExists path fs !! path = None.
Proof.
  unfold unlinkIfExists, existsSync. case_bool_decide as E.
  - apply lookup_delete_eq.
  - by apply eq_None_not_Some.
Qed.

Lemma unlinkIfExists_ne path q (fs : Files) :
  path <> q -> unlinkIfExists path fs !! q = fs !! q.
Proof.
  intros Hne. unfold unlinkIfExists. destruct (existsSync fs path); [|done].
  by apply lookup_delete_ne.
Qed.

(** Unlinking never creates a file. *)
Lemma unlinkIfExists_None path q (fs : Files) :
  fs !! q = None -> unlinkIfExists path fs !! q = None.
Proof.
  intros Hq. destruct (decide (path = q)) as [->|Hne].
  - apply unlinkIfExists_eq.
  - by rewrite unlinkIfExists_ne.
Qed.

(** After [cleanupSocket] none of the session's files exists. *)
Lemma cleanupSocket_removes h session (fs : Files) :
  Forall (fun p => cleanupSocket h session fs !! p = None) (sessionFiles h session).
Proof.
  unfold cleanupSocket, sessionFiles.
  destruct (isWindows h); repeat constructor;
    auto using unlinkIfExists_eq, unlinkIfExists_None.
Qed.

(** [cleanupSocket] touches no other file. *)
Lemma cleanupSocket_others h session (fs : Files) q :
  q ∉ sessionFiles h session -> cleanupSocket h session fs !! q = fs !! q.
Proof.
  unfold cleanupSocket, sessionFiles. intros Hq.
  destruct (isWindows h); rewrite !unlinkIfExists_ne; set_solver.
Qed.

Lemma cleanupSocket_pid h session (fs : Files) :
  cleanupSocket h session fs !! getPidFile h session = None.
Proof.
  pose proof (cleanupSocket_removes h session fs) as F.
  unfold sessionFiles in F. by inversion F.
Qed.

(** [cleanupSocket] is idempotent. *)
Lemma cleanupSocket_idem h session (fs : Files) :
  cleanupSocket h session (cleanupSocket h session fs) = cleanupSocket h session fs.
Proof.
  apply map_eq. intros q.
  destruct (decide (q ∈ sessionFiles h session)) as [Hin|Hout].
  - pose proof (cleanupSocket_removes h session fs) as F1.
    pose proof (cleanupSocket_removes h session (cleanupSocket h session fs)) as F2.
    rewrite Forall_forall in F1, F2. by rewrite F1, F2.
  - by rewrite !cleanupSocket_others.
Qed.

(** The derived port lies in the dynamic range. *)
Lemma getPortForSession_range session :
  49152 <= getPortForSession session <= 65534.
Proof.
  unfold getPortForSession.
  pose proof (Z.mod_pos_bound (Z.abs (hashLoop session 0)) 16383 ltac:(lia)). lia.
Qed.

End SessionFacts.

(** C5, as amended: when the pid file is absent the liveness check answers
    "not running" and leaves every file as it is; when the pid file exists
    and the recorded process cannot be signalled (or the record is not a
    number), the check answers "not running" with the files that
    [cleanupSocket] leaves: the pid file, the stream-port file and the socket
    (or port file) are gone, every other file is untouched. *)
Theorem isDaemonRunning_reconciles h canSignal session (fs : Session.Files) :
  (fs !! Session.getPidFile h session = None ->
     Session.isDaemonRunning h canSignal session fs = (false, fs))
  /\ (forall content,
        fs !! Session.getPidFile h session = Some content ->
        Session.killProbe canSignal (Js.parseInt10 (Js.trim content)) = false ->
        exists fs',
          Session.isDaemonRunning h canSignal session fs = (false, fs')
          /\ fs' = Session.cleanupSocket h session fs
          /\ Forall (fun p => fs' !! p = None) (Session.sessionFiles h session)
          /\ (forall q, q ∉ Session.sessionFiles h session -> fs' !! q = fs !! q)).
Proof.
  unfold Session.isDaemonRunning. split.
  - by intros ->.
  - intros content -> ->. eexists. split; [reflexivity|].
    split; [reflexivity|]. split.
    + apply cleanupSocket_removes.
    + intros q. apply cleanupSocket_others.
Qed.

(** C5, as stated, fails: a socket file without a pid file (a daemon killed
    between binding and writing its pid) is reported "not running" and the
    socket file is still there afterwards. *)
Lemma isDaemonRunning_absent_pid_keeps_files :
  let fs : Session.Files := {[ Session.getSocketPath unixHost None := "" ]} in
  fs !! Session.getPidFile unixHost None = None
  /\ fst (Session.isDaemonRunning unixHost (fun _ => false) None fs) = false
  /\ Session.existsSync (snd (Session.isDaemonRunning unixHost (fun _ => false) None fs))
       (Session.getSocketPath unixHost None) = true.
Proof. vm_compute. done. Qed.

(** The amended C5 at a stale pid file: process 4521 is gone, the pid, socket
    and stream files are removed, an unrelated file stays. *)
Lemma isDaemonRunning_reconciles_witness :
  let fs : Session.Files :=
    {[ Session.getPidFile unixHost None := " 4521 ";
       Session.getSocketPath unixHost None := "";
       "/home/u/notes.txt" := "keep" ]} in
  exists fs',
    Session.isDaemonRunning unixHost (fun _ => false) None fs = (false, fs')
    /\ fs' !! Session.getPidFile unixHost None = None
    /\ fs' !! Session.getSocketPath unixHost None = None
    /\ fs' !! "/home/u/notes.txt" = Some "keep".
Proof.
  intros fs.
  destruct (proj2 (isDaemonRunning_reconciles unixHost (fun _ => false) None fs) " 4521 ")
    as (fs' & Hrun & -> & _ & _); [reflexivity | reflexivity |].
  exists (Session.cleanupSocket unixHost None fs).
  split; [exact Hrun | vm_compute; done].
Defined.

(** ** Startup: the pid file is written after the bind *)
Section StartupFacts.
Import Session Startup.
Variable h : Host.
Variable net : Network.

Local Abbreviation noPidWrite := (Startup.noPidWrite h).
Local Abbreviation unbound := (Startup.unbound h).
Local Abbreviation pidAfterBind := (Startup.pidAfterBind h).
Local Abbreviation beforeBind := (Startup.beforeBind h).
Local Abbreviation afterBind := (Startup.afterBind h).
Local Abbreviation isCallback := (Startup.isCallback h).

Lemma unbound_noPidWrite tr : unbound tr -> noPidWrite tr.
Proof. intros Hu. eapply Forall_impl; [exact Hu|]. by intros ev [? _]. Qed.

Lemma unbound_not_listening tr : unbound tr -> EvListening ∉ tr.
Proof.
  intros Hu Hin. unfold Startup.unbound in Hu. rewrite Forall_forall in Hu.
  by destruct (Hu _ Hin).
Qed.

Lemma unbound_snoc tr ev :
  unbound tr -> isPidWrite h ev = false -> ev <> EvListening -> unbound (tr ++ [ev]).
Proof. intros. apply Forall_app. by repeat constructor. Qed.

Lemma noPidWrite_ordered tr : noPidWrite tr -> pidAfterBind tr.
Proof.
  intros Hno pre ev post -> Hev.
  apply Forall_app in Hno as [_ Hno]. inversion Hno; congruence.
Qed.

Lemma pidAfterBind_after_listening tr0 tail :
  unbound tr0 -> pidAfterBind (tr0 ++ EvListening :: tail).
Proof.
  intros Hno pre ev post E Hev.
  apply app_eq_inv in E as [(k & -> & E)|(k & -> & E)].
  - destruct k as [|x k]; injection E as -> E.
    + simpl in Hev. discriminate Hev.
    + apply unbound_noPidWrite, Forall_app in Hno as [_ Hno].
      inversion Hno; congruence.
  - destruct k as [|x k]; injection E as E1 E2.
    + subst ev. simpl in Hev. discriminate Hev.
    + subst x. set_solver.
Qed.

Lemma tcpListening_callback port : isCallback (tcpListening h port).
Proof.
  intros st. eexists. unfold tcpListening, resolve, settle, emit, writeFileSync; simpl.
  split; [by rewrite <- !app_assoc|]. split; [by repeat constructor|].
  split; [apply lookup_insert_eq|]. by destruct (settled st).
Qed.

Lemma unixListening_callback : isCallback (unixListening h).
Proof.
  intros st. eexists. unfold unixListening, resolve, settle, emit, writeFileSync; simpl.
  split; [by rewrite <- !app_assoc|]. split; [by repeat constructor|].
  split; [apply lookup_insert_eq|]. by destruct (settled st).
Qed.

Lemma iter_callback cb n st :
  isCallback cb -> settled st = None ->
  exists evs,
    trace (Nat.iter (S n) cb st) = trace st ++ evs /\ Forall callbackEvent evs
    /\ files (Nat.iter (S n) cb st) !! getPidFile h None = Some (Js.numberToString (pid h))
    /\ settled (Nat.iter (S n) cb st) = Some Resolved.
Proof.
  intros Hcb Hst. induction n as [|n (evs & Htr & Hev & Hf & Hs)].
  - simpl. destruct (Hcb st) as (evs & ? & ? & ? & Hs). rewrite Hst in Hs. eauto.
  - change (Nat.iter (S (S n)) cb st) with (cb (Nat.iter (S n) cb st)).
    destruct (Hcb (Nat.iter (S n) cb st)) as (evs' & Htr' & Hev' & Hf' & Hs').
    exists (evs ++ evs'). rewrite Htr', Htr, Hs', Hs, <- app_assoc.
    split; [done|]. split; [by apply Forall_app|]. done.
Qed.

Lemma listenTargets_app tr1 tr2 :
  listenTargets (tr1 ++ tr2) = listenTargets tr1 ++ listenTargets tr2.
Proof. apply omap_app. Qed.

Lemma listenTargets_callbacks evs : Forall callbackEvent evs -> listenTargets evs = [].
Proof.
  induction 1 as [|ev evs Hev _ IH]; [done|].
  destruct ev; simpl in Hev; try contradiction; exact IH.
Qed.

Lemma fireListening_trace cb st :
  trace (fireListening cb st) = trace (Nat.iter (listeningOnce st) cb st).
Proof. reflexivity. Qed.

Lemma fireListening_files cb st :
  files (fireListening cb st) = files (Nat.iter (listeningOnce st) cb st).
Proof. reflexivity. Qed.

Lemma fireListening_settled cb st :
  settled (fireListening cb st) = settled (Nat.iter (listeningOnce st) cb st).
Proof. reflexivity. Qed.

(** A successful bind: the registered callbacks run after the 'listening'
    event. *)
Lemma fireListening_afterBind cb target st :
  isCallback cb -> beforeBind st ->
  afterBind (fireListening cb (bound target (callListen target st)))
  /\ listenTargets (trace (fireListening cb (bound target (callListen target st))))
     = listenTargets (trace st) ++ [target].
Proof.
  intros Hcb (Hno & Hset & Hpid).
  set (st1 := bound target (callListen target st)).
  destruct (iter_callback cb (listeningOnce st) st1 Hcb Hset) as (evs & Htr & Hev & Hf & Hs).
  assert (trace st1 = (trace st ++ [EvListen target]) ++ [EvListening]) as Htr1
    by reflexivity.
  unfold Startup.afterBind.
  rewrite fireListening_trace, fireListening_files, fireListening_settled.
  change (listeningOnce st1) with (S (listeningOnce st)).
  rewrite Htr, Hs, Hf, Htr1. split.
  - left. exists (trace st ++ [EvListen target]), evs.
    rewrite <- !app_assoc. split; [done|]. split; [|done].
    by apply unbound_snoc.
  - rewrite !listenTargets_app, (listenTargets_callbacks evs Hev).
    by rewrite !app_nil_r.
Qed.

(** A failed bind that is not retried: cleanup, then rejection. *)
Lemma reject_afterBind err target st :
  beforeBind st ->
  afterBind (reject err (cleanup h (emit (EvError err) (callListen target st))))
  /\ listenTargets (trace (reject err (cleanup h (emit (EvError err) (callListen target st)))))
     = listenTargets (trace st) ++ [target].
Proof.
  intros (Hno & Hset & Hpid). split.
  - right. exists err. simpl. rewrite Hset. split; [|split; [done|]].
    + by repeat apply unbound_snoc.
    + apply cleanupSocket_pid.
  - simpl. rewrite !listenTargets_app. simpl. by rewrite !app_nil_r.
Qed.

Lemma beforeBind_retry err target st :
  beforeBind st -> beforeBind (emit (EvError err) (callListen target st)).
Proof.
  intros (Hno & Hset & Hpid). split; [|done].
  simpl. by repeat apply unbound_snoc.
Qed.

Lemma portsFrom_cons port n :
  TcpPort port :: portsFrom (port + 1) n = portsFrom port (S n).
Proof.
  unfold portsFrom. simpl. rewrite Z.add_0_r. f_equal.
  rewrite <- seq_shift, <- list_fmap_compose. apply list_fmap_ext.
  intros _ i _. simpl. f_equal. lia.
Qed.

Lemma tryPort_afterBind port attempt st :
  beforeBind st ->
  afterBind (tryPort h net port attempt st)
  /\ exists n, (n <= 4 - attempt)%nat
       /\ listenTargets (trace (tryPort h net port attempt st))
          = listenTargets (trace st) ++ portsFrom port (S n).
Proof.
  funelim (tryPort h net port attempt st); intros Hbefore.
  - destruct (fireListening_afterBind (tcpListening h port) (TcpPort port) st
                (tcpListening_callback port) Hbefore) as [Ha Hl].
    split; [done|]. exists 0%nat. split; [lia|]. rewrite Hl. f_equal.
    unfold portsFrom. simpl. by rewrite Z.add_0_r.
  - destruct (H (beforeBind_retry err (TcpPort port) st Hbefore)) as (Ha & n & Hn & Hl).
    split; [done|]. exists (S n). split; [lia|]. rewrite Hl. simpl.
    rewrite !listenTargets_app. simpl. rewrite app_nil_r, <- app_assoc. f_equal.
    simpl. apply portsFrom_cons.
  - destruct (reject_afterBind err (TcpPort port) st Hbefore) as [Ha Hl].
    split; [done|]. exists 0%nat. split; [lia|]. rewrite Hl. f_equal.
    unfold portsFrom. simpl. by rewrite Z.add_0_r.
  - destruct (reject_afterBind err (TcpPort port) st Hbefore) as [Ha Hl].
    split; [done|]. exists 0%nat. split; [lia|]. rewrite Hl. f_equal.
    unfold portsFrom. simpl. by rewrite Z.add_0_r.
Qed.

End StartupFacts.

Section StartupTheorem.
Import Session Startup.
Variable h : Host.
Variable net : Network.

Lemma bindListener_afterBind st :
  beforeBind h st ->
  afterBind h (bindListener h net st)
  /\ if isWindows h
     then exists n, (n < 5)%nat
          /\ listenTargets (trace (bindListener h net st))
             = listenTargets (trace st)
               ++ portsFrom (getPortForSession (currentSession h)) (S n)
     else listenTargets (trace (bindListener h net st))
          = listenTargets (trace st) ++ [UnixSocket (getSocketPath h None)].
Proof.
  intros Hbefore. unfold bindListener. destruct (isWindows h).
  - destruct (tryPort_afterBind h net (getPortForSession (currentSession h)) 0 st Hbefore)
      as (Ha & n & Hn & Hl).
    split; [done|]. exists n. split; [lia|done].
  - destruct (listen net (UnixSocket (getSocketPath h None))) as [|err].
    + apply fireListening_afterBind; [apply unixListening_callback|done].
    + by apply reject_afterBind.
Qed.

Lemma startStream_beforeBind streamPort st :
  beforeBind h st ->
  beforeBind h (startStream h net streamPort st)
  /\ listenTargets (trace (startStream h net streamPort st)) = listenTargets (trace st).
Proof.
  intros (Hno & Hset & Hpid). unfold startStream.
  destruct (streamPortOf h streamPort) as [p|]; [|done].
  destruct ((0 <? p) && streamStarts net p); [|done].
  pose proof (pid_ne_stream h None) as Hne.
  split; [split; [|split; [done|]]|].
  - apply unbound_snoc; [done| |done]. simpl. by case_bool_decide.
  - simpl. by rewrite lookup_insert_ne.
  - simpl. rewrite listenTargets_app. simpl. by rewrite app_nil_r.
Qed.

Lemma startDaemon_afterBind streamPort (fs : Files) :
  afterBind h (startDaemon h net streamPort fs)
  /\ if isWindows h
     then exists n, (n < 5)%nat
          /\ listenTargets (trace (startDaemon h net streamPort fs))
             = portsFrom (getPortForSession (currentSession h)) (S n)
     else listenTargets (trace (startDaemon h net streamPort fs))
          = [UnixSocket (getSocketPath h None)].
Proof.
  unfold startDaemon.
  set (st0 := cleanup h _).
  assert (beforeBind h st0) as H0.
  { split; [by repeat constructor|]. split; [done|]. apply cleanupSocket_pid. }
  destruct (startStream_beforeBind streamPort st0 H0) as [H1 Hl1].
  destruct (bindListener_afterBind _ H1) as [Ha Hl].
  split; [done|]. rewrite Hl1 in Hl. exact Hl.
Qed.

End StartupTheorem.

(** C4: on every startup the bind promise settles; every write of the pid
    file in the trace comes after the 'listening' event; a startup whose bind
    is rejected has written no pid file and leaves none; a resolved one has
    bound and leaves the pid file.  On the TCP platform the listener is asked
    for at most five ports, consecutive from the session's port; on Unix for
    the socket path once. *)
Theorem startDaemon_pid_after_bind h net streamPort (fs : Session.Files) :
  let st := Startup.startDaemon h net streamPort fs in
  let pidFile := Session.getPidFile h None in
  (exists o, Startup.settled st = Some o)
  /\ Startup.pidAfterBind h (Startup.trace st)
  /\ (forall err, Startup.settled st = Some (Startup.Rejected err) ->
        Startup.noPidWrite h (Startup.trace st)
        /\ (Startup.EvListening ∉ Startup.trace st)
        /\ Startup.files st !! pidFile = None)
  /\ (Startup.settled st = Some Startup.Resolved ->
        Startup.EvListening ∈ Startup.trace st
        /\ Startup.files st !! pidFile = Some (Js.numberToString (Session.pid h)))
  /\ (if Session.isWindows h
      then exists n, (n < 5)%nat
           /\ Startup.listenTargets (Startup.trace st)
              = Startup.portsFrom (Session.getPortForSession (Session.currentSession h)) (S n)
      else Startup.listenTargets (Startup.trace st)
           = [Startup.UnixSocket (Session.getSocketPath h None)]).
Proof.
  intros st pidFile.
  destruct (startDaemon_afterBind h net streamPort fs) as [Ha Hl].
  fold st in Ha, Hl.
  destruct Ha as [(tr0 & tail & Htr & Hno & Hcb & Hset & Hpid)|(err & Hno & Hset & Hpid)].
  - split; [eauto|]. split; [rewrite Htr; by apply pidAfterBind_after_listening|].
    split; [intros err; rewrite Hset; discriminate|].
    split; [|exact Hl]. intros _. split; [|done]. rewrite Htr. set_solver.
  - pose proof (unbound_noPidWrite h _ Hno) as Hno'.
    split; [eauto|]. split; [by apply noPidWrite_ordered|].
    split; [|split; [rewrite Hset; discriminate|exact Hl]].
    intros err' _. split; [done|].
    split; [by apply (unbound_not_listening h)|done].
Qed.

(** The entry point after a rejected bind: still no write of the pid file,
    and none of the session's files is left. *)
Lemma daemonMain_rejected h net (fs : Session.Files) err :
  Startup.settled (Startup.daemonMain h net fs) = Some (Startup.Rejected err) ->
  Startup.noPidWrite h (Startup.trace (Startup.daemonMain h net fs))
  /\ Forall (fun p => Startup.files (Startup.daemonMain h net fs) !! p = None)
       (Session.sessionFiles h None).
Proof.
  unfold Startup.daemonMain.
  destruct (startDaemon_afterBind h net None fs) as [Ha _].
  destruct Ha as [(tr0 & tail & _ & _ & _ & Hset & _)|(err' & Hno & Hset & _)];
    rewrite Hset; [by rewrite Hset|].
  intros _. simpl. split.
  - apply Forall_app. split; [|by repeat constructor].
    apply Forall_app. split; [|by repeat constructor].
    by apply unbound_noPidWrite.
  - apply cleanupSocket_removes.
Qed.

(** The third port is free: two failed attempts, then the bind, and only
    then the port and pid files (once per registered callback). *)
Example startDaemon_third_port :
  let net := {| Startup.listen := fun t =>
                  match t with
                  | Startup.TcpPort p =>
                      if p <? 50840
                      then Startup.Failed {| Startup.code := "EADDRINUSE";
                                             Startup.message := "in use" |}
                      else Startup.Listening
                  | Startup.UnixSocket _ => Startup.Listening
                  end;
                Startup.streamStarts := fun _ => false |} in
  let st := Startup.startDaemon tcpHost net None ∅ in
  Startup.listenTargets (Startup.trace st)
  = [Startup.TcpPort 50838; Startup.TcpPort 50839; Startup.TcpPort 50840]
  /\ Startup.settled st = Some Startup.Resolved
  /\ Startup.files st !! Session.getPidFile tcpHost None = Some "4521"
  /\ Startup.files st !! Session.getPortFile tcpHost None = Some "50840".
Proof. vm_compute. done. Qed.

(** A bind error other than "address in use" is not retried. *)
Example startDaemon_permission_denied :
  let denied := {| Startup.code := "EACCES"; Startup.message := "permission denied" |} in
  let net := {| Startup.listen := fun _ => Startup.Failed denied;
                Startup.streamStarts := fun _ => false |} in
  let st := Startup.startDaemon tcpHost net None ∅ in
  Startup.trace st
  = [Startup.EvCleanup; Startup.EvListen (Startup.TcpPort 50838);
     Startup.EvError denied; Startup.EvCleanup; Startup.EvReject denied]
  /\ Startup.settled st = Some (Startup.Rejected denied).
Proof. vm_compute. done. Qed.

(** A live daemon: the pid file names a process that can be signalled, and
    the check changes nothing. *)
Example isDaemonRunning_alive :
  let fs : Session.Files := {[ Session.getPidFile unixHost None := "4521" ]} in
  Session.isDaemonRunning unixHost (fun p => p =? 4521) None fs = (true, fs).
Proof. vm_compute. done. Qed.

(** Every port is taken: five attempts, then cleanup, rejection and exit,
    and no pid file. *)
Example daemonMain_all_ports_taken :
  let inUse := {| Startup.code := "EADDRINUSE"; Startup.message := "in use" |} in
  let net := {| Startup.listen := fun _ => Startup.Failed inUse;
                Startup.streamStarts := fun _ => false |} in
  let st := Startup.daemonMain tcpHost net ∅ in
  Startup.listenTargets (Startup.trace st)
  = Startup.TcpPort <$> [50838; 50839; 50840; 50841; 50842]
  /\ Startup.settled st = Some (Startup.Rejected inUse)
  /\ Startup.files st = ∅
  /\ last (Startup.trace st) = Some (Startup.EvExit 1).
Proof. vm_compute. done. Qed.

(** ** The connection handler *)
Section StringFacts.

Lemma append_assoc a b c : (a +:+ b) +:+ c = a +:+ (b +:+ c).
Proof. induction a as [|x a IH]; [done|]. rewrite !append_cons. by f_equal. Qed.

Lemma append_nil_r a : a +:+ "" = a.
Proof. induction a as [|x a IH]; [done|]. rewrite append_cons. by f_equal. Qed.

Lemma substring_0 i s : Js.substring 0 i s = Js.take i s.
Proof.
  unfold Js.substring. rewrite Nat.max_0_l, Nat.min_0_l, Nat.sub_0_r.
  by destruct s.
Qed.

(** [indexOf] finds the first occurrence: the string is the text before it,
    the character, and the text after it. *)
Lemma indexOf_split c s i :
  Js.indexOf c s = Some i ->
  s = Js.take i s +:+ String c (Js.drop (i + 1) s)
  /\ Js.indexOf c (Js.take i s) = None.
Proof.
  revert i. induction s as [|a r IH]; intros i; simpl; [discriminate|].
  destruct (Ascii.eqb a c) eqn:E.
  - intros [= <-]. apply Ascii.eqb_eq in E as ->. done.
  - destruct (Js.indexOf c r) as [j|]; simpl; [|discriminate].
    intros [= <-]. destruct (IH j eq_refl) as [IH1 IH2].
    simpl. rewrite append_cons, <- IH1, E, IH2. done.
Qed.

End StringFacts.

Section HandlerFacts.
Import Session Protocol Daemon.
Context `{Codec} {B : Type} `{Engine B}.
Variable h : Host.

(** The [return] of the loop body is the close branch: the line parsed to a
    close command, its response was written and shutdown is under way. *)
Lemma handleLine_return line d d' evs :
  handleLine h line d = (Return, d', evs) ->
  exists command,
    parseCommand line = ParseSuccess command
    /\ action command = "close"
    /\ shuttingDown d' = true.
Proof.
  unfold handleLine, tryLine.
  destruct (parseCommand line) as [command|pid error]; [|discriminate].
  destruct (autoLaunch h command d) as [[[]|err] d1]; [|discriminate].
  destruct (String.eqb (action command) "close") eqn:E.
  - apply String.eqb_eq in E.
    destruct (executeCommand command (browser d1)) as [[resp|err] b].
    + intros [= <- _]. eauto.
    + discriminate.
  - destruct (executeCommand command (browser d1)) as [[resp|err] b]; discriminate.
Qed.

(** What the body of the loop writes for a line: one response; its id is
    the parser's for a parse failure (['unknown'] when the parser recovered
    none), and ['error'] when auto-launch or the executor threw. *)
Lemma handleLine_writes line d :
  exists r,
    writes (snd (handleLine h line d)) = [r]
    /\ httpTests (snd (handleLine h line d)) = []
    /\ Forall (fun ev => ev <> SockDestroy) (snd (handleLine h line d))
    /\ match parseCommand line, fst (fst (tryLine h line d)) with
       | ParseFailure pid error, _ => r = errorResponse (default "unknown" pid) error
       | ParseSuccess command, Returned _ =>
           exists b, fst (executeCommand command b) = Returned r
       | ParseSuccess command, Threw message => r = errorResponse "error" message
       end.
Proof.
  unfold handleLine, tryLine.
  destruct (parseCommand line) as [command|pid error];
    [|eexists; by repeat constructor].
  destruct (autoLaunch h command d) as [[[]|err] d1];
    [|eexists; by repeat constructor].
  destruct (String.eqb (action command) "close");
    destruct (executeCommand command (browser d1)) as [[resp|err] b] eqn:E;
    simpl; try (eexists; by repeat constructor).
  - exists resp.
    destruct (shuttingDown d1); simpl; (split; [done|]); (split; [done|]);
      (split; [by repeat constructor|]); exists (browser d1); by rewrite E.
  - exists resp. (split; [done|]); (split; [done|]);
      (split; [by repeat constructor|]); exists (browser d1); by rewrite E.
Qed.

End HandlerFacts.

Section LoopFacts.
Import Session Protocol Daemon.
Context `{Codec} {B : Type} `{Engine B}.
Variable h : Host.

Lemma buffer_cut buf i :
  Js.indexOf Js.LF buf = Some i ->
  buf = Js.substring 0 i buf +:+ Js.NL +:+ Js.substringFrom (i + 1) buf
  /\ Js.indexOf Js.LF (Js.substring 0 i buf) = None.
Proof.
  intros Hidx. rewrite substring_0. unfold Js.substringFrom.
  exact (indexOf_split _ _ _ Hidx).
Qed.

Lemma writes_app evs evs' : writes (evs ++ evs') = writes evs ++ writes evs'.
Proof. apply omap_app. Qed.

Lemma httpTests_app evs evs' :
  httpTests (evs ++ evs') = httpTests evs ++ httpTests evs'.
Proof. apply omap_app. Qed.

Lemma loopEnd_cons line consumed rest (d : Shared B) :
  loopEnd consumed rest d -> loopEnd (line :: consumed) rest d.
Proof.
  intros [Hno|(l & c & Hlast & Hrest)]; [by left|].
  right. exists l, c. split; [|done]. by rewrite last_cons, Hlast.
Qed.

(** A line taken off the buffer before the rest of the run. *)
Lemma loopRun_cons buf i consumed rest (d : Shared B) evs evs' :
  Js.indexOf Js.LF buf = Some i ->
  loopRun (Js.substringFrom (i + 1) buf) consumed (rest, d, evs') ->
  length (writes evs) = length (answerable [Js.substring 0 i buf]) ->
  httpTests evs = [] ->
  Forall (fun ev => ev <> SockDestroy) evs ->
  loopRun buf (Js.substring 0 i buf :: consumed) (rest, d, evs ++ evs').
Proof.
  intros Hidx (Hbuf & Hlf & Hlen & Hht & Hnd & Hend) Hw Hh Hd.
  destruct (buffer_cut buf i Hidx) as [Hcut Hline].
  simpl in *. unfold loopRun. simpl.
  split; [by rewrite <- Hbuf|]. split; [by constructor|].
  split.
  { rewrite writes_app, length_app, Hlen, Hw. unfold answerable. simpl.
    by destruct (negb (isBlank (Js.substring 0 i buf))). }
  split; [by rewrite httpTests_app, Hh, Hht|].
  split; [by apply Forall_app|]. by apply loopEnd_cons.
Qed.

Lemma processLines_run buf d :
  exists consumed, loopRun buf consumed (processLines h buf d).
Proof.
  funelim (processLines h buf d).
  - exists []. by repeat split; try constructor.
  - destruct H1 as (consumed & Hrun).
    destruct (processLines h (Js.substringFrom (newlineIdx + 1) buf) d)
      as [[rest d'] evs'].
    exists (Js.substring 0 newlineIdx buf :: consumed).
    apply (loopRun_cons buf newlineIdx consumed rest d' [] evs' Hidx Hrun);
      [|done|done].
    unfold answerable. simpl. by rewrite Heq.
  - destruct (handleLine_writes h (Js.substring 0 newlineIdx buf) d)
      as (r & Hw & Hh & Hd & _).
    destruct (handleLine_return h _ _ _ _ Heq) as (command & Hparse & Hclose & Hshut).
    rewrite Heq in Hw, Hh, Hd. simpl in Hw, Hh, Hd.
    destruct (buffer_cut buf newlineIdx Hidx) as [Hcut Hline].
    exists [Js.substring 0 newlineIdx buf]. unfold loopRun. simpl.
    split; [done|]. split; [by repeat constructor|].
    split; [rewrite Hw; unfold answerable; simpl; by rewrite Heq0|].
    split; [done|]. split; [done|].
    right. by exists (Js.substring 0 newlineIdx buf), command.
  - destruct Hind as (consumed & Hrun). rewrite Heq in Hrun.
    destruct (handleLine_writes h (Js.substring 0 newlineIdx buf) d)
      as (r & Hw & Hh & Hd & _).
    rewrite Heq0 in Hw, Hh, Hd. simpl in Hw, Hh, Hd.
    exists (Js.substring 0 newlineIdx buf :: consumed).
    apply (loopRun_cons buf newlineIdx consumed rest d2 evs evs' Hidx Hrun);
      [|done|done].
    rewrite Hw. unfold answerable. simpl. by rewrite Heq1.
Qed.

End LoopFacts.

Section ConnectionFacts.
Import Session Protocol Daemon.
Context `{Codec} {B : Type} `{Engine B}.
Variable h : Host.

(** The request-line filter fires: the socket is destroyed, nothing is
    written, the shared state is untouched. *)
Lemma onData_rejected data c d :
  httpChecked c = false ->
  httpRequestLine (Js.trimStart (buffer c +:+ data)) = true ->
  onData h data c d
  = ({| buffer := buffer c +:+ data; httpChecked := true; destroyed := true |}, d,
     [HttpTest (Js.trimStart (buffer c +:+ data)); SockDestroy]).
Proof. intros Hc Hre. unfold onData. by rewrite Hc, Hre. Qed.

(** Otherwise the handler is a run of the line loop, after the one test of
    a connection's first data. *)
Lemma onData_accepted data c d :
  httpChecked c = true \/ httpRequestLine (Js.trimStart (buffer c +:+ data)) = false ->
  onData h data c d
  = ({| buffer := (processLines h (buffer c +:+ data) d).1.1;
        httpChecked := true; destroyed := false |},
     (processLines h (buffer c +:+ data) d).1.2,
     (if httpChecked c then [] else [HttpTest (Js.trimStart (buffer c +:+ data))])
       ++ (processLines h (buffer c +:+ data) d).2).
Proof.
  intros Hc. unfold onData.
  destruct (processLines h (buffer c +:+ data) d) as [[rest d'] evs].
  destruct (httpChecked c); simpl; [done|].
  destruct Hc as [Hc| ->]; [discriminate|done].
Qed.

Lemma feed_destroyed chunks c d :
  destroyed c = true -> feed h chunks c d = (c, d, []).
Proof. intros Hc. destruct chunks; simpl; [done|]. by rewrite Hc. Qed.

Lemma feed_cons data more c d :
  destroyed c = false ->
  feed h (data :: more) c d
  = ((feed h more (onData h data c d).1.1 (onData h data c d).1.2).1,
     (onData h data c d).2
       ++ (feed h more (onData h data c d).1.1 (onData h data c d).1.2).2).
Proof.
  intros Hc. simpl. rewrite Hc.
  destruct (onData h data c d) as [[c1 d1] evs]. simpl.
  by destruct (feed h more c1 d1) as [[c2 d2] evs'].
Qed.

Lemma joinLines_append ls tail x :
  joinLines ls tail +:+ x = joinLines ls (tail +:+ x).
Proof.
  induction ls as [|l ls IH]; [done|].
  simpl. by rewrite !append_assoc, IH.
Qed.

Lemma joinLines_app ls1 ls2 tail :
  joinLines (ls1 ++ ls2) tail = joinLines ls1 (joinLines ls2 tail).
Proof. induction ls1 as [|l ls1 IH]; [done|]. simpl. by rewrite IH. Qed.

Lemma answerable_app ls1 ls2 : answerable (ls1 ++ ls2) = answerable ls1 ++ answerable ls2.
Proof. apply List.filter_app. Qed.

Lemma loopEnd_app pre consumed rest (d : Shared B) :
  loopEnd consumed rest d -> loopEnd (pre ++ consumed) rest d.
Proof.
  intros [Hno|(l & c & Hlast & Hrest)]; [by left|].
  right. exists l, c. split; [|done]. by rewrite last_app, Hlast.
Qed.

End ConnectionFacts.

Section LineFacts.
Import Daemon.

Lemma splitLines_line l r :
  Js.indexOf Js.LF l = None ->
  splitLines (l +:+ String Js.LF r) = (l :: (splitLines r).1, (splitLines r).2).
Proof.
  induction l as [|c l IH]; intros Hl.
  - change ("" +:+ String Js.LF r) with (String Js.LF r). simpl.
    by destruct (splitLines r).
  - simpl in Hl. destruct (Ascii.eqb c Js.LF) eqn:E; [discriminate|].
    destruct (Js.indexOf Js.LF l); [discriminate|].
    rewrite append_cons. simpl. rewrite (IH eq_refl), E. done.
Qed.

Lemma splitLines_joinLines ls tail :
  Forall (fun l => Js.indexOf Js.LF l = None) ls ->
  splitLines (joinLines ls tail) = (ls ++ (splitLines tail).1, (splitLines tail).2).
Proof.
  induction 1 as [|l ls Hl _ IH]; simpl; [by destruct (splitLines tail)|].
  change (Js.NL +:+ joinLines ls tail) with (String Js.LF (joinLines ls tail)).
  by rewrite (splitLines_line l _ Hl), IH.
Qed.

Lemma splitLines_no_newline s :
  Js.indexOf Js.LF s = None -> splitLines s = ([], s).
Proof.
  induction s as [|c s IH]; [done|]. simpl.
  destruct (Ascii.eqb c Js.LF); [discriminate|].
  destruct (Js.indexOf Js.LF s); [discriminate|]. intros _. by rewrite IH.
Qed.

End LineFacts.

(** ** The connection handler under the event loop *)
Section ScheduleFacts.
Import Session Protocol Async.
Context `{Daemon.Codec}.
Variable answers : Command -> Response -> bool.

Local Abbreviation fits := (Async.fits answers).
Local Abbreviation Kept := (Async.Kept answers).
Local Abbreviation step := (Async.step answers).
Local Abbreviation run := (Async.run answers).

(** A handler between two suspensions: the lines it takes are complete
    lines off the front of the buffer, the ones that do not parse are
    answered, the last one taken is the one it is suspended on, and it
    returns only when no complete line is left. *)
Lemma advance_spec launched buf :
  buf = Daemon.joinLines (took (advance launched buf)) (rest (advance launched buf))
  /\ Forall (fun l => Js.indexOf Js.LF l = None) (took (advance launched buf))
  /\ Daemon.answerable (took (advance launched buf))
     = (answered <$> wrote (advance launched buf))
       ++ (lineOf <$> option_list (stop (advance launched buf)))
  /\ Forall fits (wrote (advance launched buf))
  /\ Forall parsed (option_list (stop (advance launched buf)))
  /\ (stop (advance launched buf) = None ->
      Js.indexOf Js.LF (rest (advance launched buf)) = None).
Proof.
  funelim (advance launched buf).
  - by repeat split; try constructor.
  - destruct (buffer_cut buf newlineIdx Hidx) as [Hcut Hline].
    destruct Hind as (Hbuf & Hlf & Hacc & Hfit & Hpar & Hstop). simpl.
    split; [by rewrite <- Hbuf|]. split; [by constructor|].
    split; [|done]. unfold Daemon.answerable in *. simpl. by rewrite Heq.
  - destruct (buffer_cut buf newlineIdx Hidx) as [Hcut Hline]. simpl.
    split; [done|]. split; [by repeat constructor|].
    split; [|split; [constructor|split; [|discriminate]]].
    + unfold Daemon.answerable. simpl. rewrite Heq0. simpl.
      by destruct (needsLaunch launched command).
    + repeat constructor. unfold parsed.
      by destruct (needsLaunch launched command).
  - destruct (buffer_cut buf newlineIdx Hidx) as [Hcut Hline].
    destruct Hind as (Hbuf & Hlf & Hacc & Hfit & Hpar & Hstop). simpl.
    split; [by rewrite <- Hbuf|]. split; [by constructor|].
    split; [|split; [|done]].
    + unfold Daemon.answerable in *. simpl. rewrite Heq0. simpl. by f_equal.
    + constructor; [|done]. unfold Async.fits. simpl. by rewrite Heq.
Qed.

Lemma loop_kept launched s :
  Kept s -> httpChecked s = true -> destroyed s = false -> Kept (loop launched s).
Proof.
  intros [Hrec Hlf Hacc Hfit Hpar Hdes Hun] Hck Hnd.
  destruct (advance_spec launched (buffer s)) as (Hbuf & Hlf' & Hacc' & Hfit' & Hpar' & _).
  split; simpl.
  - by rewrite joinLines_app, <- Hbuf.
  - by apply Forall_app.
  - rewrite answerable_app, !fmap_app, Hacc, Hacc'.
    rewrite <- !(assoc_L (++)). f_equiv. rewrite !(assoc_L (++)). f_equiv.
    apply Permutation_app_comm.
  - by apply Forall_app.
  - by apply Forall_app.
  - congruence.
  - congruence.
Qed.

Lemma loop_pending launched s : pendingOnlyAfterClose (loop launched s).
Proof.
  destruct (advance_spec launched (buffer s)) as (_ & _ & _ & _ & _ & Hstop).
  intros Hsus _ Hlf. simpl in *.
  apply app_eq_nil in Hsus as [_ Hnone].
  destruct (stop (advance launched (buffer s))); [discriminate|].
  by destruct Hlf; apply Hstop.
Qed.

Lemma suspended_checked s k a :
  Kept s -> suspended s !! k = Some a ->
  httpChecked s = true /\ destroyed s = false.
Proof.
  intros [_ _ _ _ _ Hdes Hun] Hk. split.
  - destruct (httpChecked s); [done|].
    destruct (Hun eq_refl) as (_ & _ & Hsus). by rewrite Hsus in Hk.
  - destruct (destroyed s); [|done].
    destruct (Hdes eq_refl) as (_ & _ & Hsus). by rewrite Hsus in Hk.
Qed.

(** A suspended handler that is resumed and answers its line. *)
Lemma answer_kept s k a ans :
  Kept s -> suspended s !! k = Some a ->
  answered ans = lineOf a -> fits ans ->
  Kept (write ans (setSuspended (delete k (suspended s)) s)).
Proof.
  intros HK Hk Hline Hans.
  destruct (suspended_checked s k a HK Hk) as [Hck Hnd].
  destruct HK as [Hrec Hlf Hacc Hfit Hpar Hdes Hun].
  split; simpl; try done.
  - rewrite Hacc, fmap_app. simpl. rewrite Hline, <- (assoc_L (++)). simpl.
    f_equiv. rewrite (delete_Permutation _ _ _ Hk) at 1. by rewrite fmap_cons.
  - apply Forall_app. by repeat constructor.
  - by apply Forall_delete.
  - congruence.
  - congruence.
Qed.

Lemma step_kept l s s' : Kept s -> step l s = Some s' -> Kept s'.
Proof.
  intros HK. unfold Async.step. destruct (exited s); [discriminate|].
  destruct l as [data launched|k outcome launched|k outcome launched|].
  - destruct (destroyed s) eqn:Hnd; [discriminate|]. intros [= <-].
    destruct HK as [Hrec Hlf Hacc Hfit Hpar Hdes Hun]. unfold onData.
    destruct (negb (httpChecked s)
              && Daemon.httpRequestLine (Js.trimStart (buffer s +:+ data))) eqn:Hre.
    + apply andb_prop in Hre as [Hck%negb_true_iff _].
      destruct (Hun Hck) as (Ht & Hw & Hs).
      split; simpl; try done.
      by rewrite Hrec, joinLines_append.
    + apply loop_kept; [|done..]. split; simpl; try done.
      by rewrite Hrec, joinLines_append.
  - destruct (suspended s !! k) as [[line command|line command]|] eqn:Hk;
      try discriminate.
    destruct (suspended_checked s k _ HK Hk) as [Hck Hnd].
    destruct outcome as [[]|message]; intros [= <-].
    + destruct HK as [Hrec Hlf Hacc Hfit Hpar Hdes Hun]. split; simpl; try done.
      * rewrite list_fmap_insert. simpl.
        change line with (lineOf (AwaitLaunch line command)).
        rewrite list_insert_id; [done|]. by rewrite list_lookup_fmap, Hk.
      * apply Forall_insert; [done|].
        rewrite Forall_forall in Hpar. apply list_elem_of_lookup_2 in Hk.
        exact (Hpar _ Hk).
      * congruence.
      * congruence.
    + pose proof HK as [_ _ _ _ Hpar _ _].
      rewrite Forall_forall in Hpar.
      pose proof (list_elem_of_lookup_2 _ _ _ Hk) as Hin.
      specialize (Hpar _ Hin). unfold parsed in Hpar. simpl in Hpar.
      apply loop_kept; [|done..].
      apply (answer_kept s k _ {| answered := line; how := Thrown;
                                  response := errorResponse "error" message |}
               HK Hk eq_refl).
      unfold Async.fits. simpl. rewrite Hpar. by eexists.
  - destruct (suspended s !! k) as [[line command|line command]|] eqn:Hk;
      try discriminate.
    destruct (suspended_checked s k _ HK Hk) as [Hck Hnd].
    pose proof HK as [_ _ _ _ Hpar _ _].
    rewrite Forall_forall in Hpar.
    pose proof (list_elem_of_lookup_2 _ _ _ Hk) as Hin.
    specialize (Hpar _ Hin). unfold parsed in Hpar. simpl in Hpar.
    destruct outcome as [resp|message].
    + destruct (answers command resp) eqn:Hans; [|discriminate].
      assert (Kept (write {| answered := line; how := Executed; response := resp |}
                      (setSuspended (delete k (suspended s)) s))) as HK'.
      { apply (answer_kept s k _ {| answered := line; how := Executed;
                                    response := resp |} HK Hk eq_refl).
        unfold Async.fits. simpl. by rewrite Hpar. }
      destruct (String.eqb (action command) "close"); intros [= <-].
      * by destruct HK'.
      * by apply loop_kept.
    + intros [= <-]. apply loop_kept; [|done..].
      apply (answer_kept s k _ {| answered := line; how := Thrown;
                                  response := errorResponse "error" message |}
               HK Hk eq_refl).
      unfold Async.fits. simpl. rewrite Hpar. by eexists.
  - destruct (timer s); [|discriminate]. intros [= <-]. by destruct HK.
Qed.

Lemma closedBy_write s a :
  closedBy s -> closedBy (write a s).
Proof.
  intros (a0 & command & Hin & Hrest). exists a0, command.
  split; [|done]. simpl. apply elem_of_app. by left.
Qed.

Lemma step_pending l s s' :
  Kept s -> pendingOnlyAfterClose s -> step l s = Some s' ->
  pendingOnlyAfterClose s'.
Proof.
  intros HK Hp. unfold Async.step. destruct (exited s); [discriminate|].
  destruct l as [data launched|k outcome launched|k outcome launched|].
  - destruct (destroyed s) eqn:Hnd; [discriminate|]. intros [= <-]. unfold onData.
    destruct (negb (httpChecked s)
              && Daemon.httpRequestLine (Js.trimStart (buffer s +:+ data))).
    + intros _ Hd. discriminate Hd.
    + apply loop_pending.
  - destruct (suspended s !! k) as [[line command|line command]|] eqn:Hk;
      try discriminate.
    destruct outcome as [[]|message]; intros [= <-]; [|apply loop_pending].
    intros Hsus. simpl in Hsus.
    apply (f_equal length) in Hsus. rewrite length_insert in Hsus.
    apply lookup_lt_Some in Hk. simpl in Hsus. lia.
  - destruct (suspended s !! k) as [[line command|line command]|] eqn:Hk;
      try discriminate.
    pose proof HK as [_ _ _ _ Hpar _ _].
    rewrite Forall_forall in Hpar.
    pose proof (list_elem_of_lookup_2 _ _ _ Hk) as Hin.
    specialize (Hpar _ Hin). unfold parsed in Hpar. simpl in Hpar.
    destruct outcome as [resp|message]; [|intros [= <-]; apply loop_pending].
    destruct (answers command resp); [|discriminate].
    destruct (String.eqb (action command) "close") eqn:Hclose;
      intros [= <-]; [|apply loop_pending].
    intros _ _ _. apply String.eqb_eq in Hclose.
    exists {| answered := line; how := Executed; response := resp |}, command.
    split; [|done]. simpl. apply elem_of_app. right. by left.
  - destruct (timer s); [|discriminate]. intros [= <-]. exact Hp.
Qed.

Lemma step_received l s s' :
  step l s = Some s' -> received s' = received s +:+ dataOf [l].
Proof.
  unfold Async.step. destruct (exited s); [discriminate|].
  destruct l as [data launched|k outcome launched|k outcome launched|]; simpl.
  - destruct (destroyed s); [discriminate|]. intros [= <-]. unfold onData.
    rewrite append_nil_r.
    by destruct (negb (httpChecked s) && Daemon.httpRequestLine _).
  - destruct (suspended s !! k) as [[line command|line command]|];
      try discriminate.
    destruct outcome as [[]|message]; intros [= <-]; simpl; by rewrite append_nil_r.
  - destruct (suspended s !! k) as [[line command|line command]|];
      try discriminate.
    destruct outcome as [resp|message].
    + destruct (answers command resp); [|discriminate].
      destruct (String.eqb (action command) "close"); intros [= <-]; simpl;
        by rewrite append_nil_r.
    + intros [= <-]. simpl. by rewrite append_nil_r.
  - destruct (timer s); [|discriminate]. intros [= <-]. simpl. by rewrite append_nil_r.
Qed.

Lemma dataOf_cons l labels : dataOf (l :: labels) = dataOf [l] +:+ dataOf labels.
Proof. destruct l; simpl; by rewrite ?append_nil_r. Qed.

Lemma fresh_kept shuttingDown0 :
  Kept (fresh shuttingDown0) /\ pendingOnlyAfterClose (fresh shuttingDown0).
Proof.
  split; [by split|]. intros _ _ Hlf. by destruct Hlf.
Qed.

(** What a schedule keeps, from any state that has it. *)
Lemma run_kept labels s s' :
  Kept s -> pendingOnlyAfterClose s -> run labels s = Some s' ->
  Kept s' /\ pendingOnlyAfterClose s'
  /\ received s' = received s +:+ dataOf labels.
Proof.
  revert s. induction labels as [|l labels IH]; intros s HK Hp; cbn [Async.run].
  - intros [= <-]. simpl. by rewrite append_nil_r.
  - destruct (step l s) as [s1|] eqn:Hstep; [|discriminate]. intros Hrun.
    destruct (IH s1 (step_kept _ _ _ HK Hstep) (step_pending _ _ _ HK Hp Hstep) Hrun)
      as (HK' & Hp' & Hrec).
    split; [done|]. split; [done|].
    rewrite Hrec, (step_received _ _ _ Hstep), (dataOf_cons l labels).
    by rewrite append_assoc.
Qed.

End ScheduleFacts.

Section ScheduleTheorems.
Import Session Protocol Async.
Context `{Daemon.Codec}.
Variable answers : Command -> Response -> bool.

(** On every schedule from a fresh connection: the complete lines of the
    data delivered are the lines taken followed by the complete lines of the
    buffer. *)
Lemma run_lines labels shuttingDown0 s :
  Async.run answers labels (fresh shuttingDown0) = Some s ->
  Async.Kept answers s /\ pendingOnlyAfterClose s
  /\ (Daemon.splitLines (dataOf labels)).1
     = taken s ++ (Daemon.splitLines (buffer s)).1.
Proof.
  intros Hrun.
  destruct (fresh_kept answers shuttingDown0) as [HK0 Hp0].
  destruct (run_kept answers labels _ s HK0 Hp0 Hrun) as (HK & Hp & Hrec).
  split; [done|]. split; [done|].
  change (received (fresh shuttingDown0) +:+ dataOf labels) with (dataOf labels) in Hrec.
  rewrite <- Hrec, (kept_received _ _ HK).
  by rewrite splitLines_joinLines by apply (kept_lines _ _ HK).
Qed.

Lemma fits_failure a :
  Async.fits answers a -> how a <> Executed -> success (response a) = false.
Proof.
  unfold Async.fits. destruct (how a), (Daemon.parseCommand (answered a));
    try done.
  - by intros ->.
  - by intros [message ->].
Qed.

End ScheduleTheorems.

(** C9, as amended: on every schedule of the event loop (data events,
    awaited calls ending in any order, the exit timer), on a connection that
    the request-line filter did not end, the complete lines of the data
    delivered are the lines taken off the buffer followed by the complete
    lines still in it; every taken line that is not blank has been answered
    by exactly one response or is held by exactly one suspended handler, and
    no other response is written; a line that does not parse and a throw are
    answered with a failure.  Once every handler has returned there is
    exactly one response for each taken line that is not blank, and complete
    lines are left in the buffer only behind an executed close command. *)
Theorem one_response_per_taken_line `{Daemon.Codec}
    (answers : Protocol.Command -> Protocol.Response -> bool)
    (labels : list Async.Label) (shuttingDown0 : bool) (s : Async.Sys) :
  Async.run answers labels (Async.fresh shuttingDown0) = Some s ->
  Async.destroyed s = false ->
  (Daemon.splitLines (Async.dataOf labels)).1
  = Async.taken s ++ (Daemon.splitLines (Async.buffer s)).1
  /\ Daemon.answerable (Async.taken s)
     ≡ₚ (Async.answered <$> Async.written s) ++ (Async.lineOf <$> Async.suspended s)
  /\ Forall (fun a => Async.how a <> Async.Executed ->
                      Protocol.success (Async.response a) = false)
       (Async.written s)
  /\ (Async.suspended s = [] ->
      length (Async.written s) = length (Daemon.answerable (Async.taken s))
      /\ ((Daemon.splitLines (Async.buffer s)).1 <> [] -> Async.closedBy s)).
Proof.
  intros Hrun Hnd.
  destruct (run_lines answers labels shuttingDown0 s Hrun) as (HK & Hp & Hlines).
  split; [done|]. split; [apply (Async.kept_accounted _ _ HK)|]. split.
  - eapply Forall_impl; [apply (Async.kept_written _ _ HK)|].
    intros a. apply fits_failure.
  - intros Hsus. split.
    + rewrite (Async.kept_accounted _ _ HK), Hsus. simpl.
      by rewrite app_nil_r, length_fmap.
    + intros Hpending. apply Hp; [done..|].
      intros Hno. apply Hpending. by rewrite splitLines_no_newline.
Qed.

(** C9, as stated, fails.  A close command followed by another command in
    the same data: the handler returns after the close, the second line stays
    in the buffer and the exit timer ends the process.  And a command that is
    still awaited when the exit timer of a close command fires: its line was
    taken and is never answered. *)
Lemma line_after_close_gets_no_response :
  let done id := Protocol.Returned (Protocol.Success id "ok") in
  let one := @Async.run demoCodec echoes
               [Async.Data ("8:close" +:+ Js.NL +:+ "9:click" +:+ Js.NL) true;
                Async.ExecuteDone 0 (done "8") true;
                Async.TimerFires] (Async.fresh false) in
  let two := @Async.run demoCodec echoes
               [Async.Data ("1:click" +:+ Js.NL) true;
                Async.Data ("8:close" +:+ Js.NL) true;
                Async.ExecuteDone 1 (done "8") true;
                Async.TimerFires] (Async.fresh false) in
  Daemon.answerable
    (Daemon.splitLines ("8:close" +:+ Js.NL +:+ "9:click" +:+ Js.NL)).1
  = ["8:close"; "9:click"]
  /\ (Async.exited <$> one) = Some true
  /\ (Async.destroyed <$> one) = Some false
  /\ (Async.buffer <$> one) = Some ("9:click" +:+ Js.NL)
  /\ ((fun s => Async.response <$> Async.written s) <$> one)
     = Some [Protocol.Success "8" "ok"]
  /\ (Async.exited <$> two) = Some true
  /\ (Async.taken <$> two) = Some ["1:click"; "8:close"]
  /\ (Async.suspended <$> two)
     = Some [Async.AwaitExecute "1:click"
               {| Protocol.id := "1"; Protocol.action := "click";
                  Protocol.fields := ∅ |}]
  /\ ((fun s => Async.response <$> Async.written s) <$> two)
     = Some [Protocol.Success "8" "ok"].
Proof. vm_compute. done. Qed.

(** The amended C9 on a schedule in which a second data event arrives while
    the first command is awaited: the second and third commands are answered
    before the first. *)
Lemma one_response_per_taken_line_witness :
  let done id := Protocol.Returned (Protocol.Success id "ok") in
  let labels :=
    [Async.Data ("1:slow" +:+ Js.NL +:+ "2:fast" +:+ Js.NL) true;
     Async.Data ("  " +:+ Js.NL +:+ "3:fast" +:+ Js.NL +:+ "4:pa") true;
     Async.ExecuteDone 1 (done "2") true;
     Async.ExecuteDone 1 (done "3") true;
     Async.ExecuteDone 0 (done "1") true] in
  responsesOf labels
  = Some [("2:fast", Protocol.Success "2" "ok");
          ("3:fast", Protocol.Success "3" "ok");
          ("1:slow", Protocol.Success "1" "ok")]
  /\ match @Async.run demoCodec echoes labels (Async.fresh false) with
     | Some s =>
         length (Async.written s) = length (Daemon.answerable (Async.taken s))
         /\ (Daemon.splitLines (Async.dataOf labels)).1
            = Async.taken s ++ (Daemon.splitLines (Async.buffer s)).1
     | None => False
     end.
Proof.
  intros done labels. split; [vm_compute; done|].
  destruct (@Async.run demoCodec echoes labels (Async.fresh false)) as [s|] eqn:Hrun;
    [|vm_compute in Hrun; discriminate Hrun].
  pose proof Hrun as Hs. vm_compute in Hs. injection Hs as Hs.
  destruct (@one_response_per_taken_line demoCodec echoes labels false s Hrun)
    as (Hlines & _ & _ & Hquiet).
  - by rewrite <- Hs.
  - split; [|exact Hlines]. apply Hquiet. by rewrite <- Hs.
Defined.


Section FilterFacts.
Import Session Protocol Daemon.
Context `{Codec} {B : Type} `{Engine B}.
Variable h : Host.

(** A verb of the pattern followed by a white-space character matches, and
    [trimStart] leaves such a text as it is. *)
Lemma httpRequestLine_verb verb w line :
  verb ∈ httpVerbs -> Js.isWhiteSpace w = true ->
  Js.trimStart (verb +:+ String w line) = verb +:+ String w line
  /\ httpRequestLine (verb +:+ String w line) = true.
Proof.
  intros Hverb Hw. unfold httpVerbs in Hverb.
  repeat (apply elem_of_cons in Hverb as [->|Hverb]);
    [..|by apply elem_of_nil in Hverb];
    (split; [reflexivity|]);
    cbv -[Js.isWhiteSpace]; by rewrite Hw.
Qed.

(** The request-line test runs on the first data of a connection and never
    again. *)
Lemma feed_httpTests chunks c d :
  destroyed c = false ->
  httpTests (feed h chunks c d).2
  = if httpChecked c then []
    else match chunks with
         | [] => []
         | data :: _ => [Js.trimStart (buffer c +:+ data)]
         end.
Proof.
  revert c d. induction chunks as [|data more IH]; intros c d Hc.
  - simpl. by destruct (httpChecked c).
  - rewrite feed_cons by done.
    destruct (decide (httpChecked c = false
                      /\ httpRequestLine (Js.trimStart (buffer c +:+ data)) = true))
      as [[Hck Hre]|Hacc].
    { rewrite (onData_rejected h data c d Hck Hre). simpl.
      by rewrite feed_destroyed, Hck. }
    assert (httpChecked c = true
            \/ httpRequestLine (Js.trimStart (buffer c +:+ data)) = false) as Hacc'.
    { destruct (httpChecked c); [by left|right].
      destruct (httpRequestLine _); [|done]. by destruct Hacc. }
    rewrite (onData_accepted h data c d Hacc'). simpl.
    destruct (processLines_run h (buffer c +:+ data) d)
      as (consumed & _ & _ & _ & Hht & _).
    rewrite !httpTests_app, Hht, IH by done. simpl.
    by destruct (httpChecked c).
Qed.

End FilterFacts.

(** C10: when the first data of a connection starts with one of the nine
    verbs followed by a white-space character, the handler destroys the
    socket at once, the connection never carries a response, whatever is sent
    after, and the shared state is untouched; and on every connection that
    receives data the request-line test runs exactly once, on the first
    data. *)
Theorem http_request_line_ends_connection `{Daemon.Codec} {B : Type} `{Daemon.Engine B}
    (h : Session.Host) (verb : string) (w : ascii) (line : string)
    (more : list string) (d : Daemon.Shared B) :
  verb ∈ Daemon.httpVerbs ->
  Js.isWhiteSpace w = true ->
  let first := verb +:+ String w line in
  let r := Daemon.feed h (first :: more) Daemon.freshConn d in
  r.2 = [Daemon.HttpTest first; Daemon.SockDestroy]
  /\ Daemon.writes r.2 = []
  /\ Daemon.destroyed r.1.1 = true
  /\ r.1.2 = d
  /\ forall data rest d',
       Daemon.httpTests (Daemon.feed h (data :: rest) Daemon.freshConn d').2
       = [Js.trimStart data].
Proof.
  intros Hverb Hw first r.
  destruct (httpRequestLine_verb verb w line Hverb Hw) as [Htrim Hre].
  assert (r = ({| Daemon.buffer := first; Daemon.httpChecked := true;
                  Daemon.destroyed := true |}, d,
               [Daemon.HttpTest first; Daemon.SockDestroy])) as ->.
  { unfold r. rewrite feed_cons by done.
    pose proof (onData_rejected h first Daemon.freshConn d eq_refl) as Hrej.
    change (Daemon.buffer Daemon.freshConn +:+ first) with first in Hrej.
    fold first in Htrim, Hre. rewrite Htrim in Hrej. rewrite (Hrej Hre). simpl.
    by rewrite feed_destroyed. }
  repeat split. intros data rest d'.
  by rewrite feed_httpTests.
Qed.

(** C10 at a browser's cross-origin POST followed by a command line: nothing
    is answered. *)
Lemma http_request_line_ends_connection_witness :
  let first := "POST" +:+ String " " "/ HTTP/1.1" in
  let r := @Daemon.feed demoCodec bool (demoEngine true) unixHost
             [first; "1:click" +:+ Js.NL] Daemon.freshConn demoShared in
  Daemon.writes r.2 = [] /\ Daemon.destroyed r.1.1 = true.
Proof.
  intros first r.
  destruct (@http_request_line_ends_connection demoCodec bool (demoEngine true)
              unixHost "POST" " " "/ HTTP/1.1" ["1:click" +:+ Js.NL] demoShared)
    as (_ & Hw & Hd & _).
  - unfold Daemon.httpVerbs. set_solver.
  - reflexivity.
  - split; [exact Hw|exact Hd].
Defined.

(** The pattern is matched without regard to case, after leading white
    space; a verb that is not followed by white space does not match. *)
Example httpRequestLine_examples :
  Daemon.httpRequestLine (Js.trimStart ("  get / HTTP/1.1")) = true
  /\ Daemon.httpRequestLine (Js.trimStart ("Options" +:+ Js.NL)) = true
  /\ Daemon.httpRequestLine "GETTING" = false
  /\ Daemon.httpRequestLine "{ GET }" = false.
Proof. vm_compute. done. Qed.

(** The filter looks at the first data only: a request line that arrives in
    two pieces passes it and is answered like any line that does not parse. *)
Example http_request_line_in_two_chunks :
  let r := @Daemon.feed demoCodec bool (demoEngine true) unixHost
             ["GE"; "T / HTTP/1.1" +:+ Js.NL] Daemon.freshConn demoShared in
  Daemon.destroyed r.1.1 = false
  /\ Daemon.writes r.2 = [Protocol.Failure "unknown" "Invalid JSON"].
Proof. vm_compute. done. Qed.

(** C8, as amended: on every schedule of the event loop, given an executor
    that echoes the id of its command, the lines answered are complete lines
    of the data delivered that are not blank, each answered at most once, and
    the id of every response is: the id of the command its line parsed to,
    when the response is the executor's; the id the parser recovered, or
    ['unknown'] when it recovered none, when its line did not parse; and
    ['error'] when auto-launch or the executor threw, although its line had
    parsed. *)
Theorem response_id_of_every_write `{Daemon.Codec}
    (answers : Protocol.Command -> Protocol.Response -> bool)
    (labels : list Async.Label) (shuttingDown0 : bool) (s : Async.Sys) :
  (forall command r,
      answers command r = true -> Protocol.responseId r = Protocol.id command) ->
  Async.run answers labels (Async.fresh shuttingDown0) = Some s ->
  (Async.answered <$> Async.written s)
    ⊆+ Daemon.answerable (Daemon.splitLines (Async.dataOf labels)).1
  /\ Forall (fun a =>
       match Async.how a, Daemon.parseCommand (Async.answered a) with
       | Async.Unparsed, Protocol.ParseFailure pid _ =>
           Protocol.responseId (Async.response a) = default "unknown" pid
           /\ Protocol.success (Async.response a) = false
       | Async.Executed, Protocol.ParseSuccess command =>
           Protocol.responseId (Async.response a) = Protocol.id command
       | Async.Thrown, Protocol.ParseSuccess command =>
           Protocol.responseId (Async.response a) = "error"
           /\ Protocol.success (Async.response a) = false
       | _, _ => False
       end) (Async.written s).
Proof.
  intros Hecho Hrun.
  destruct (run_lines answers labels shuttingDown0 s Hrun) as (HK & _ & Hlines).
  split.
  - rewrite Hlines, answerable_app. apply submseteq_inserts_r.
    rewrite (Async.kept_accounted _ _ HK). by apply submseteq_inserts_r.
  - eapply Forall_impl; [apply (Async.kept_written _ _ HK)|].
    intros a. unfold Async.fits.
    destruct (Async.how a), (Daemon.parseCommand (Async.answered a)); try done.
    + by intros ->.
    + apply Hecho.
    + by intros [message ->].
Qed.

(** C8, as stated, fails: the line parses to a command with id 7, the
    browser is not launched and cannot be launched, and the response that is
    written for the line has id ['error']. *)
Lemma launch_failure_answers_with_error_id :
  let line := "7:click" in
  Protocol.id <$> (match demoParse line with
                   | Protocol.ParseSuccess command => Some command
                   | Protocol.ParseFailure _ _ => None
                   end) = Some "7"
  /\ responsesOf [Async.Data (line +:+ Js.NL) false;
                  Async.LaunchDone 0 (Protocol.Threw "no browser") false]
     = Some [(line, Protocol.Failure "error" "no browser")].
Proof. vm_compute. done. Qed.

(** The amended C8 on a schedule with a command, a line that does not parse,
    a command whose launch fails and a close. *)
Lemma response_id_of_every_write_witness :
  let labels :=
    [Async.Data ("7:click" +:+ Js.NL +:+ "oops" +:+ Js.NL) true;
     Async.Data ("9:open" +:+ Js.NL) false;
     Async.LaunchDone 1 (Protocol.Threw "no browser") true;
     Async.ExecuteDone 0 (Protocol.Returned (Protocol.Success "7" "ok")) true;
     Async.Data ("8:close" +:+ Js.NL) true;
     Async.ExecuteDone 0 (Protocol.Returned (Protocol.Success "8" "ok")) true] in
  responsesOf labels
  = Some [("oops", Protocol.Failure "unknown" "Invalid JSON");
          ("9:open", Protocol.Failure "error" "no browser");
          ("7:click", Protocol.Success "7" "ok");
          ("8:close", Protocol.Success "8" "ok")]
  /\ match @Async.run demoCodec echoes labels (Async.fresh false) with
     | Some s =>
         (Async.answered <$> Async.written s)
           ⊆+ Daemon.answerable (Daemon.splitLines (Async.dataOf labels)).1
     | None => False
     end.
Proof.
  intros labels. split; [vm_compute; done|].
  destruct (@Async.run demoCodec echoes labels (Async.fresh false)) as [s|] eqn:Hrun;
    [|vm_compute in Hrun; discriminate Hrun].
  apply (@response_id_of_every_write demoCodec echoes labels false s);
    [|exact Hrun].
  intros command r Hr. by apply String.eqb_eq.
Defined.

(** ** Failure classification *)
Section ClassificationFacts.
Import Actions.

Lemma toLowerCase_app a b :
  Js.toLowerCase (a +:+ b) = Js.toLowerCase a +:+ Js.toLowerCase b.
Proof. induction a as [|c a IH]; [done|]. rewrite append_cons. simpl. by rewrite IH. Qed.

Lemma startsWith_app_l x a b : Js.startsWith x a = true -> Js.startsWith x (a +:+ b) = true.
Proof.
  revert a. induction x as [|c x IH]; intros a; [done|].
  destruct a as [|c' a]; [discriminate|]. rewrite append_cons. simpl.
  intros [-> Hx]%andb_prop. by rewrite IH.
Qed.

Lemma includes_app_l x a b : Js.includes x a = true -> Js.includes x (a +:+ b) = true.
Proof.
  induction a as [|c a IH].
  - simpl. rewrite orb_false_r. destruct x; [|discriminate]. by destruct b.
  - rewrite append_cons. simpl. intros [Hs|Hi]%orb_prop.
    + change (String c (a +:+ b)) with (String c a +:+ b).
      by rewrite (startsWith_app_l x (String c a) b Hs).
    + rewrite (IH Hi). apply orb_true_r.
Qed.

Lemma includes_app_r x a b : Js.includes x b = true -> Js.includes x (a +:+ b) = true.
Proof.
  intros Hb. induction a as [|c a IH]; [done|].
  rewrite append_cons. simpl. rewrite IH. apply orb_true_r.
Qed.

(** A text that mentions the needle inside any of its parts mentions it. *)
Lemma includes_middle x a b c :
  Js.includes x b = true -> Js.includes x (a +:+ b +:+ c) = true.
Proof. intros Hb. by apply includes_app_r, includes_app_l. Qed.

End ClassificationFacts.

(** C3: for every failure text that mentions pointer-event interception (in
    any letter case, with or without a timeout in it), under every table
    that looks for interception first, the category is BlockedByOverlay and
    the message does not contain "not found" and contains "blocked by
    another element" and "modal or overlay"; when the text names the
    intercepting element and that description mentions a cookie, the message
    also contains "cookie banners". *)
Theorem overlay_failure_message (others : list Actions.Rule) (raw ref : string) :
  Js.includes "intercepts pointer events" (Js.toLowerCase raw) = true ->
  let result := Actions.toAIFriendlyErrorWith (Actions.overlayRule :: others) raw ref in
  result.1 = Actions.BlockedByOverlay
  /\ Js.includes "not found" result.2 = false
  /\ Js.includes "blocked by another element" result.2 = true
  /\ Js.includes "modal or overlay" result.2 = true
  /\ forall before element after,
       raw = before +:+ element +:+ " intercepts pointer events" +:+ after ->
       Js.includes "cookie" (Js.toLowerCase element) = true ->
       Js.includes "cookie banners" result.2 = true.
Proof.
  intros Hraw result. unfold result, Actions.toAIFriendlyErrorWith, Actions.classify.
  simpl. rewrite Hraw. simpl.
  split; [done|].
  destruct (Js.includes "cookie" (Js.toLowerCase raw)) eqn:Hcookie.
  - repeat split; try reflexivity.
  - repeat split; try reflexivity.
    intros before element after -> Helement.
    rewrite !toLowerCase_app in Hcookie.
    by rewrite includes_middle in Hcookie.
Qed.

(** C3 at the cookie overlay of [actions.test.ts]. *)
Lemma overlay_failure_message_witness :
  let raw := "<div class=" +:+ Js.DQ +:+ "cookie-overlay" +:+ Js.DQ
             +:+ "> intercepts pointer events" in
  let result := Actions.toAIFriendlyError raw "@e1" in
  result.1 = Actions.BlockedByOverlay
  /\ Js.includes "not found" result.2 = false
  /\ Js.includes "cookie banners" result.2 = true.
Proof.
  intros raw result.
  destruct (overlay_failure_message [Actions.timeoutRule] raw "@e1")
    as (Hc & Hnf & _ & _ & Hcookie); [reflexivity|].
  split; [exact Hc|]. split; [exact Hnf|].
  apply (Hcookie "" ("<div class=" +:+ Js.DQ +:+ "cookie-overlay" +:+ Js.DQ +:+ ">") "");
    reflexivity.
Defined.

(** The timeout text of [actions.test.ts]: an interception inside a
    TimeoutError is classified as an overlay, not as a timeout. *)
Example overlay_inside_timeout :
  let raw :=
    "TimeoutError: locator.click: Timeout 10000ms exceeded." +:+ Js.NL
    +:+ "Call log:" +:+ Js.NL
    +:+ "  - waiting for getByRole('link', { name: 'Anmelden', exact: true }).first()"
    +:+ Js.NL
    +:+ "    - locator resolved to <a href=" +:+ Js.DQ +:+ "https://example.com/login"
    +:+ Js.DQ +:+ ">Anmelden</a>" +:+ Js.NL
    +:+ "  - attempting click action" +:+ Js.NL
    +:+ "    2 x waiting for element to be visible, enabled and stable" +:+ Js.NL
    +:+ "      - element is visible, enabled and stable" +:+ Js.NL
    +:+ "      - scrolling into view if needed" +:+ Js.NL
    +:+ "      - done scrolling" +:+ Js.NL
    +:+ "      - <body class=" +:+ Js.DQ +:+ "font-sans antialiased" +:+ Js.DQ
    +:+ ">...</body> intercepts pointer events" +:+ Js.NL
    +:+ "    - retrying click action" in
  Actions.toAIFriendlyError raw "@e4"
  = (Actions.BlockedByOverlay,
     "Element is blocked by another element (likely a modal or overlay).")
  /\ Actions.toAIFriendlyError "locator.click: Timeout 10000ms exceeded." "@e4"
     = (Actions.Timeout, "Action on @e4 timed out.")
  /\ Actions.toAIFriendlyError "browser has been closed" "@e4"
     = (Actions.EngineFailure, "browser has been closed").
Proof. vm_compute. done. Qed.

(** ** The focus guard around click and double-click *)

(** The calls of a click or double-click command, spelled out. *)
Lemma executeCommand_click_calls (e : Actions.Engine) (c : Protocol.Command)
    (b : Actions.Browser) :
  Protocol.action c = "click" \/ Protocol.action c = "dblclick" ->
  let target := Actions.OfBrowser (Actions.field c "selector") in
  let r := Actions.executeCommand e c b in
  exists cleared,
    Actions.calls r.2
    = Actions.calls b
      ++ [Actions.ArmSnapshotFocusGuard;
          Actions.GetLocator (Actions.field c "selector");
          Actions.Operate (Protocol.action c) target]
      ++ cleared
    /\ Protocol.responseId r.1 = Protocol.id c
    /\ match Actions.perform e (Protocol.action c) target with
       | Protocol.Returned _ =>
           cleared = [] /\ Protocol.success r.1 = true
           /\ Actions.guard r.2 = Actions.Armed
       | Protocol.Threw _ =>
           cleared = [Actions.ClearSnapshotFocusGuard]
           /\ Protocol.success r.1 = false
           /\ Actions.guard r.2 = Actions.Idle
       end.
Proof.
  intros Hact target r. unfold r, Actions.executeCommand, Actions.operate.
  assert (Actions.focusMutating (Protocol.action c) = true) as ->
    by (by destruct Hact as [-> | ->]).
  fold target. simpl.
  destruct (Actions.perform e (Protocol.action c) target) as [[]|raw]; simpl.
  - exists []. by rewrite <- !app_assoc.
  - exists [Actions.ClearSnapshotFocusGuard]. by rewrite <- !app_assoc.
Qed.

(** C1: for every click or double-click command, whatever the session's
    state, the executor arms the guard exactly once and performs the
    operation exactly once, the arming before the operation; when the
    operation returns, the guard-clear call is not made, the guard stays
    armed and the response reports success; when it throws, the guard-clear
    call is made exactly once, the guard is idle and the response reports
    failure.  The response carries the command's id. *)
Theorem click_guard_lifecycle (e : Actions.Engine) (c : Protocol.Command)
    (b : Actions.Browser) :
  Protocol.action c = "click" \/ Protocol.action c = "dblclick" ->
  let target := Actions.OfBrowser (Actions.field c "selector") in
  let r := Actions.executeCommand e c b in
  exists made,
    Actions.calls r.2 = Actions.calls b ++ made
    /\ Actions.times Actions.isArm made = 1%nat
    /\ Actions.times Actions.isOperate made = 1%nat
    /\ (exists before after,
          made = before ++ Actions.Operate (Protocol.action c) target :: after
          /\ Actions.times Actions.isArm before = 1%nat
          /\ Actions.times Actions.isClear before = 0%nat)
    /\ Protocol.responseId r.1 = Protocol.id c
    /\ match Actions.perform e (Protocol.action c) target with
       | Protocol.Returned _ =>
           Actions.times Actions.isClear made = 0%nat
           /\ Protocol.success r.1 = true
           /\ Actions.guard r.2 = Actions.Armed
       | Protocol.Threw _ =>
           Actions.times Actions.isClear made = 1%nat
           /\ Protocol.success r.1 = false
           /\ Actions.guard r.2 = Actions.Idle
       end.
Proof.
  intros Hact target r.
  destruct (executeCommand_click_calls e c b Hact) as (cleared & Hlog & Hid & Hcase).
  fold target r in Hlog, Hid, Hcase.
  eexists. split; [exact Hlog|].
  assert (Actions.times Actions.isArm cleared = 0%nat
          /\ Actions.times Actions.isOperate cleared = 0%nat) as [Ha Ho].
  { destruct (Actions.perform _ _ _); destruct Hcase as (-> & _); done. }
  unfold Actions.times in *. rewrite !List.filter_app, !length_app, Ha, Ho.
  split; [done|]. split; [done|]. split.
  { exists [Actions.ArmSnapshotFocusGuard; Actions.GetLocator (Actions.field c "selector")],
      cleared. done. }
  split; [done|].
  destruct (Actions.perform _ _ _); destruct Hcase as (-> & Hs & Hg); done.
Qed.

(** C1 at the failing double-click of [actions.test.ts]. *)
Lemma click_guard_lifecycle_witness :
  let r := Actions.executeCommand (clickEngine (Some "dblclick failed"))
             (selectorCommand "dbl1" "dblclick" "@e9") idleBrowser in
  Protocol.success r.1 = false
  /\ Actions.times Actions.isArm (Actions.calls r.2) = 1%nat
  /\ Actions.times Actions.isClear (Actions.calls r.2) = 1%nat
  /\ Actions.guard r.2 = Actions.Idle.
Proof.
  intros r.
  pose proof (click_guard_lifecycle (clickEngine (Some "dblclick failed"))
                (selectorCommand "dbl1" "dblclick" "@e9") idleBrowser
                (or_intror eq_refl)) as Hthm.
  fold r in Hthm. destruct Hthm as (made & Hlog & Harm & _ & _ & _ & Hcase).
  change (Actions.times Actions.isClear made = 1%nat
          /\ Protocol.success r.1 = false
          /\ Actions.guard r.2 = Actions.Idle) in Hcase.
  destruct Hcase as (Hclear & Hs & Hg).
  change (Actions.calls idleBrowser ++ made) with made in Hlog.
  rewrite Hlog. done.
Defined.

(** The successful click of [actions.test.ts]: armed once, never cleared. *)
Example click_leaves_guard_armed :
  let r := Actions.executeCommand (clickEngine None)
             (selectorCommand "1" "click" "@e1") idleBrowser in
  r.1 = Protocol.Success "1" "click"
  /\ Actions.calls r.2
     = [Actions.ArmSnapshotFocusGuard;
        Actions.GetLocator (Some (Protocol.VString "@e1"));
        Actions.Operate "click" (Actions.OfBrowser (Some (Protocol.VString "@e1")))]
  /\ Actions.guard r.2 = Actions.Armed.
Proof. vm_compute. done. Qed.

(** ** Finders and nth *)
Section FinderFacts.
Import Protocol Actions.
Variable e : Engine.





End FinderFacts.




(** The nth test: index -1 goes through [last()], armed once, clicked once,
    not cleared. *)
Example nth_last_click :
  let base := Actions.OfPage (Some (Protocol.VString "button[title]")) in
  let r := Actions.executeCommand (clickEngine None) (nthCommand (-1)) idleBrowser in
  r.1 = Protocol.Success "nth-click" "click"
  /\ Actions.calls r.2
     = [Actions.ArmSnapshotFocusGuard;
        Actions.PageLocator (Some (Protocol.VString "button[title]"));
        Actions.CallLast base;
        Actions.Operate "click" (Actions.LastOf base)]
  /\ Actions.calls (Actions.executeCommand (clickEngine None) (nthCommand 2)
                      idleBrowser).2
     = [Actions.ArmSnapshotFocusGuard;
        Actions.PageLocator (Some (Protocol.VString "button[title]"));
        Actions.CallNth base 2;
        Actions.Operate "click" (Actions.NthOf base 2)].
Proof. vm_compute. done. Qed.

(** ** The snapshot builder *)

(** C2: a full-page snapshot makes exactly two guard calls, the arming
    before the privileged capability and the clearing after it, whether the
    capability returns or throws, and leaves the guard idle whatever its
    state was; a selector-scoped snapshot makes no guard call and leaves the
    guard as it was. *)
Theorem snapshot_guard_calls (e : Snapshot.Engine) (p : Snapshot.Page) :
  (exists fallback,
      Snapshot.calls (Snapshot.getEnhancedSnapshot e None p).2
      = Snapshot.calls p
        ++ [Snapshot.Evaluate Snapshot.InstallGuard; Snapshot.SnapshotForAI;
            Snapshot.Evaluate Snapshot.RemoveGuard]
        ++ fallback
      /\ Snapshot.guardCalls fallback = []
      /\ length (List.filter Snapshot.isEvaluate
                   ([Snapshot.Evaluate Snapshot.InstallGuard; Snapshot.SnapshotForAI;
                     Snapshot.Evaluate Snapshot.RemoveGuard] ++ fallback)) = 2%nat
      /\ Snapshot.guard (Snapshot.getEnhancedSnapshot e None p).2 = Actions.Idle)
  /\ forall selector,
       exists made,
         Snapshot.calls (Snapshot.getEnhancedSnapshot e (Some selector) p).2
         = Snapshot.calls p ++ made
         /\ List.filter Snapshot.isEvaluate made = []
         /\ Snapshot.guard (Snapshot.getEnhancedSnapshot e (Some selector) p).2
            = Snapshot.guard p.
Proof.
  split.
  - unfold Snapshot.getEnhancedSnapshot.
    destruct (Snapshot.snapshotForAI e) as [full|message]; simpl.
    + exists []. by rewrite <- !app_assoc.
    + exists [Snapshot.Locator ":root"; Snapshot.AriaSnapshot ":root"].
      by rewrite <- !app_assoc.
  - intros selector. simpl.
    exists [Snapshot.Locator selector; Snapshot.AriaSnapshot selector].
    by rewrite <- !app_assoc.
Qed.




(** The successful capability of [snapshot.test.ts]: two guard calls, and
    the ref table has the menu item under e2. *)
Example snapshot_refs_parsed :
  let r := Snapshot.getEnhancedSnapshot menuSnapshotEngine None idlePage in
  Snapshot.guardCalls (Snapshot.calls r.2) = [Snapshot.InstallGuard; Snapshot.RemoveGuard]
  /\ (match r.1 with
      | Protocol.Returned snapshot => Snapshot.refs snapshot !! "e2"
      | Protocol.Threw _ => None
      end) = Some {| Snapshot.role := "menuitem"; Snapshot.name := Some "Edit" |}
  /\ (match r.1 with
      | Protocol.Returned snapshot => Snapshot.refs snapshot !! "e1"
      | Protocol.Threw _ => None
      end) = Some {| Snapshot.role := "menu"; Snapshot.name := None |}
  /\ Snapshot.calls (Snapshot.getEnhancedSnapshot menuSnapshotEngine (Some "#main")
                       idlePage).2
     = [Snapshot.Locator "#main"; Snapshot.AriaSnapshot "#main"].
Proof. vm_compute. done. Qed.

(* ===================================================================== *)
(** * Part III. Further properties of [daemon.ts] *)
(* ===================================================================== *)

(** ** The session hash and the session's files *)
Section HashFacts.
Import Session Connect.

Lemma toInt32_range z : - 2 ^ 31 <= Js.toInt32 z < 2 ^ 31.
Proof.
  unfold Js.toInt32.
  pose proof (Z.mod_pos_bound z (2 ^ 32) ltac:(lia)).
  destruct (Z.ltb_spec (z mod 2 ^ 32) (2 ^ 31)); lia.
Qed.

Lemma toInt32_mod z : Js.toInt32 z mod 2 ^ 32 = z mod 2 ^ 32.
Proof.
  unfold Js.toInt32.
  destruct (Z.ltb_spec (z mod 2 ^ 32) (2 ^ 31)).
  - apply Z.mod_mod. lia.
  - rewrite <- (Z.mod_mod z (2 ^ 32)) at 2 by lia.
    rewrite <- (Z_mod_plus_full (z mod 2 ^ 32 - 2 ^ 32) 1 (2 ^ 32)).
    f_equal. lia.
Qed.

Lemma toInt32_congr x y : x mod 2 ^ 32 = y mod 2 ^ 32 -> Js.toInt32 x = Js.toInt32 y.
Proof. unfold Js.toInt32. by intros ->. Qed.

Lemma toInt32_id z : - 2 ^ 31 <= z < 2 ^ 31 -> Js.toInt32 z = z.
Proof.
  intros Hz. unfold Js.toInt32.
  destruct (Z.ltb_spec (z mod 2 ^ 32) (2 ^ 31)) as [Hlt|Hge].
  - destruct (Z.le_gt_cases 0 z).
    + apply Z.mod_small. lia.
    + rewrite <- (Z_mod_plus_full z 1 (2 ^ 32)) in Hlt.
      rewrite Z.mod_small in Hlt; lia.
  - destruct (Z.le_gt_cases 0 z).
    + rewrite Z.mod_small in Hge; lia.
    + rewrite <- (Z_mod_plus_full z 1 (2 ^ 32)). rewrite Z.mod_small; lia.
Qed.

(** One round of the loop, [(hash << 5) - hash + c] wrapped, is [31 * hash
    + c] wrapped. *)
Lemma hash_step hash c :
  Js.toInt32 (Js.toInt32 (Z.shiftl hash 5) - hash + c) = Js.toInt32 (31 * hash + c).
Proof.
  apply toInt32_congr. rewrite Z.shiftl_mul_pow2 by lia.
  rewrite <- Zplus_mod_idemp_l, <- Zminus_mod_idemp_l, toInt32_mod.
  rewrite Zminus_mod_idemp_l, Zplus_mod_idemp_l. f_equal. lia.
Qed.

Lemma polynomial_congr s x y :
  x mod 2 ^ 32 = y mod 2 ^ 32 -> polynomial s x mod 2 ^ 32 = polynomial s y mod 2 ^ 32.
Proof.
  revert x y. induction s as [|c s IH]; intros x y Hxy; [done|].
  simpl. apply IH.
  rewrite <- Zplus_mod_idemp_l, <- Zmult_mod_idemp_r, Hxy.
  by rewrite Zmult_mod_idemp_r, Zplus_mod_idemp_l.
Qed.

Lemma hashLoop_polynomial s hash :
  - 2 ^ 31 <= hash < 2 ^ 31 -> hashLoop s hash = Js.toInt32 (polynomial s hash).
Proof.
  revert hash. induction s as [|c s IH]; intros hash Hh.
  - simpl. by rewrite toInt32_id.
  - simpl. rewrite IH by apply toInt32_range.
    apply toInt32_congr, polynomial_congr.
    by rewrite hash_step, toInt32_mod.
Qed.

End HashFacts.

(** X1: for every session name, the empty one and names whose hash
    overflows included, the derived port lies between 49152 and 65534, and
    the hash it is derived from is a signed 32-bit integer. *)
Theorem session_port_in_dynamic_range (session : string) :
  49152 <= Session.getPortForSession session <= 65534
  /\ - 2 ^ 31 <= Session.hashLoop session 0 < 2 ^ 31.
Proof.
  split.
  - unfold Session.getPortForSession.
    pose proof (Z.mod_pos_bound (Z.abs (Session.hashLoop session 0)) 16383 ltac:(lia)).
    lia.
  - rewrite hashLoop_polynomial by lia. apply toInt32_range.
Qed.

(** X2: the wraps inside the loop change nothing: the hash is the polynomial
    in 31 over the code units of the name, wrapped to 32 bits once at the
    end. *)
Theorem session_hash_is_wrapped_polynomial (session : string) :
  Session.hashLoop session 0 = Js.toInt32 (Connect.polynomial session 0)
  /\ Session.getPortForSession session
     = 49152 + Z.abs (Js.toInt32 (Connect.polynomial session 0)) mod 16383.
Proof.
  assert (Session.hashLoop session 0 = Js.toInt32 (Connect.polynomial session 0)) as E
    by (apply hashLoop_polynomial; lia).
  split; [exact E|]. unfold Session.getPortForSession. by rewrite E.
Qed.


(** X5: the liveness check never creates or rewrites a file; when it answers
    "running" it has changed nothing; and asking again right away gives the
    same answer and changes nothing more. *)
Theorem isDaemonRunning_stable (h : Session.Host) (canSignal : Z -> bool)
    (session : option string) (fs : Session.Files) :
  let r := Session.isDaemonRunning h canSignal session fs in
  r.2 ⊆ fs
  /\ (r.1 = true -> r.2 = fs /\ is_Some (fs !! Session.getPidFile h session))
  /\ Session.isDaemonRunning h canSignal session r.2 = r.
Proof.
  intros r. unfold r, Session.isDaemonRunning.
  destruct (fs !! Session.getPidFile h session) as [content|] eqn:Hpid.
  - destruct (Session.killProbe canSignal (Js.parseInt10 (Js.trim content))) eqn:Hk; simpl.
    + split; [done|]. split; [by eauto|]. by rewrite Hpid, Hk.
    + split; [|split; [discriminate|]].
      * apply map_subseteq_spec. intros q v.
        destruct (decide (q ∈ Session.sessionFiles h session)) as [Hin|Hout].
        -- pose proof (cleanupSocket_removes h session fs) as F.
           rewrite Forall_forall in F. by rewrite F.
        -- by rewrite cleanupSocket_others.
      * by rewrite cleanupSocket_pid.
  - simpl. split; [done|]. split; [discriminate|]. by rewrite Hpid.
Qed.

(** ** The pid file, written and read back *)
Section DecimalFacts.
Import Decimal Connect.

Lemma of_uint_acc_value d acc :
  Npos (Pos.of_uint_acc d acc) = digitsValue d (Npos acc).
Proof.
  revert acc. induction d; intros acc; simpl; [done|..]; rewrite IHd; f_equal; lia.
Qed.

Lemma of_uint_value d : Pos.of_uint d = digitsValue d 0.
Proof.
  induction d; simpl; [done|exact IHd|..]; by rewrite of_uint_acc_value.
Qed.

Lemma parseDigits_some d a :
  Js.parseDigits (NilEmpty.string_of_uint d) (Some a)
  = Some (Z.of_N (digitsValue d (Z.to_N a)))
  \/ a < 0.
Proof.
  destruct (Z.lt_ge_cases a 0) as [Hneg|Hpos]; [by right|left].
  revert a Hpos. induction d; intros a Hpos; simpl.
  - by rewrite Z2N.id.
  - rewrite IHd by lia. do 3 f_equal. lia.
  - rewrite IHd by lia. do 3 f_equal. lia.
  - rewrite IHd by lia. do 3 f_equal. lia.
  - rewrite IHd by lia. do 3 f_equal. lia.
  - rewrite IHd by lia. do 3 f_equal. lia.
  - rewrite IHd by lia. do 3 f_equal. lia.
  - rewrite IHd by lia. do 3 f_equal. lia.
  - rewrite IHd by lia. do 3 f_equal. lia.
  - rewrite IHd by lia. do 3 f_equal. lia.
  - rewrite IHd by lia. do 3 f_equal. lia.
Qed.

End DecimalFacts.

Section RoundTrip.
Import Decimal Connect.

Lemma parseDigits_digits d :
  d <> Nil ->
  Js.parseDigits (NilEmpty.string_of_uint d) None = Some (Z.of_N (digitsValue d 0)).
Proof.
  destruct d; [done|..]; intros _; simpl;
    match goal with
    | |- Js.parseDigits (NilEmpty.string_of_uint ?l) (Some ?a) = _ =>
        destruct (parseDigits_some l a) as [-> | Hneg]; [reflexivity|lia]
    end.
Qed.

Lemma trimEnd_digits d :
  Js.trimEnd (NilEmpty.string_of_uint d) = NilEmpty.string_of_uint d.
Proof.
  induction d; simpl; [done|..]; rewrite IHd;
    by destruct (NilEmpty.string_of_uint d).
Qed.

Lemma trim_digits d :
  Js.trim (NilEmpty.string_of_uint d) = NilEmpty.string_of_uint d.
Proof.
  unfold Js.trim.
  assert (Js.trimStart (NilEmpty.string_of_uint d) = NilEmpty.string_of_uint d) as ->
    by (by destruct d).
  apply trimEnd_digits.
Qed.

Lemma to_uint_value p : digitsValue (Pos.to_uint p) 0 = Npos p.
Proof. by rewrite <- of_uint_value, DecimalPos.Unsigned.of_to. Qed.

Lemma to_uint_not_nil p : Pos.to_uint p <> Nil.
Proof.
  intros E. pose proof (to_uint_value p) as Hv. rewrite E in Hv. discriminate.
Qed.

(** What [n.toString()] writes, [parseInt(text.trim(), 10)] reads back. *)
Lemma parseInt10_numberToString z :
  Js.parseInt10 (Js.trim (Js.numberToString z)) = Some z.
Proof.
  unfold Js.numberToString. destruct z as [|p|p]; [reflexivity|..];
    simpl; pose proof (to_uint_not_nil p) as Hnil;
    pose proof (parseDigits_digits _ Hnil) as Hparse;
    rewrite to_uint_value in Hparse; simpl Z.of_N in Hparse.
  - assert (NilZero.string_of_uint (Pos.to_uint p)
            = NilEmpty.string_of_uint (Pos.to_uint p)) as ->
      by (by destruct (Pos.to_uint p)).
    rewrite trim_digits. unfold Js.parseInt10.
    assert (Js.trimStart (NilEmpty.string_of_uint (Pos.to_uint p))
            = NilEmpty.string_of_uint (Pos.to_uint p)) as ->
      by (by destruct (Pos.to_uint p)).
    rewrite <- Hparse. by destruct (Pos.to_uint p).
  - assert (NilZero.string_of_uint (Pos.to_uint p)
            = NilEmpty.string_of_uint (Pos.to_uint p)) as ->
      by (by destruct (Pos.to_uint p)).
    unfold Js.trim. simpl. rewrite trimEnd_digits.
    assert (match NilEmpty.string_of_uint (Pos.to_uint p) with
            | "" => "-"
            | String a s => String "-" (String a s)
            end = String "-" (NilEmpty.string_of_uint (Pos.to_uint p))) as ->
      by (by destruct (NilEmpty.string_of_uint (Pos.to_uint p))).
    unfold Js.parseInt10. simpl. by rewrite Hparse.
Qed.

End RoundTrip.

(** X6: a daemon that has started finds itself running: after a resolved
    startup, the liveness check of the same session on the files the startup
    left answers "running" and changes nothing, provided the host lets the
    daemon's pid be signalled; after a rejected startup it answers "not
    running" and changes nothing. *)
Theorem started_daemon_is_running (h : Session.Host) (net : Startup.Network)
    (streamPort : option Z) (fs : Session.Files) (canSignal : Z -> bool) :
  canSignal (Session.pid h) = true ->
  let st := Startup.startDaemon h net streamPort fs in
  Session.isDaemonRunning h canSignal None (Startup.files st)
  = (match Startup.settled st with
     | Some Startup.Resolved => true
     | _ => false
     end, Startup.files st).
Proof.
  intros Halive st. unfold Session.isDaemonRunning.
  destruct (startDaemon_afterBind h net streamPort fs) as [Ha _]. fold st in Ha.
  destruct Ha as [(tr0 & tail & _ & _ & _ & -> & ->)|(err & _ & -> & ->)]; [|done].
  by rewrite parseInt10_numberToString; simpl; rewrite Halive.
Qed.

(** X6 on a Unix host where the socket can be bound. *)
Lemma started_daemon_is_running_witness :
  let net := {| Startup.listen := fun _ => Startup.Listening;
                Startup.streamStarts := fun _ => false |} in
  let st := Startup.startDaemon unixHost net None ∅ in
  Session.isDaemonRunning unixHost (fun p => p =? 4521) None (Startup.files st)
  = (true, Startup.files st).
Proof.
  intros net st.
  exact (started_daemon_is_running unixHost net None ∅ (fun p => p =? 4521) eq_refl).
Defined.

(** ** Startup: which files it touches *)
Section StartupFiles.
Import Session Startup Connect.
Variable h : Host.
Variable net : Network.

Lemma tcpListening_files port st q :
  isWindows h = true -> unwritten h q ->
  files (tcpListening h port st) !! q = files st !! q.
Proof.
  intros Hw [Hpid Hbound]. unfold boundFile in Hbound. rewrite Hw in Hbound.
  unfold tcpListening. simpl. by rewrite !lookup_insert_ne.
Qed.

Lemma unixListening_files st q :
  unwritten h q -> files (unixListening h st) !! q = files st !! q.
Proof.
  intros [Hpid _]. unfold unixListening. simpl. by rewrite lookup_insert_ne.
Qed.

Lemma iter_files (cb : State -> State) n st q :
  (forall st0, files (cb st0) !! q = files st0 !! q) ->
  files (Nat.iter n cb st) !! q = files st !! q.
Proof.
  intros Hcb. induction n as [|n IH]; [done|]. simpl. by rewrite Hcb.
Qed.

Lemma tryPort_framed port attempt st :
  isWindows h = true -> framed h st (tryPort h net port attempt st).
Proof.
  funelim (tryPort h net port attempt st); intros Hw q Hq.
  - left. rewrite fireListening_files.
    rewrite iter_files by (intros; by apply tcpListening_files). done.
  - destruct (H Hw q Hq) as [E|E]; [left|right]; exact E.
  - right. done.
  - right. done.
Qed.

Lemma bindListener_framed st : framed h st (bindListener h net st).
Proof.
  unfold bindListener. destruct (isWindows h) eqn:Hw; [by apply tryPort_framed|].
  intros q Hq.
  destruct (listen net (UnixSocket (getSocketPath h None))) as [|err]; [left|by right].
  rewrite fireListening_files.
  rewrite iter_files by (intros; by apply unixListening_files).
  destruct Hq as [_ Hb]. unfold boundFile in Hb. rewrite Hw in Hb.
  simpl. by rewrite lookup_insert_ne.
Qed.

Lemma stream_unwritten : unwritten h (getStreamPortFile h None).
Proof.
  split; [by intros E%eq_sym%pid_ne_stream|].
  unfold boundFile, getStreamPortFile, getPortFile, getSocketPath.
  destruct (isWindows h); intros E%pathJoin_inj%append_inj_l; discriminate.
Qed.

End StartupFiles.

Section StartupPorts.
Import Session Startup Connect.
Variable h : Host.
Variable net : Network.

Lemma tcpListening_port_file port st :
  files (tcpListening h port st) !! getPortFile h None = Some (Js.numberToString port).
Proof.
  unfold tcpListening. simpl.
  rewrite lookup_insert_ne by (intros E; by apply (pid_ne_port h None)).
  apply lookup_insert_eq.
Qed.

Lemma startStream_settled streamPort st :
  settled (startStream h net streamPort st) = settled st.
Proof.
  unfold startStream. destruct (streamPortOf h streamPort) as [p|]; [|done].
  by destruct ((0 <? p) && streamStarts net p).
Qed.

(** The ports a run of [tryPort] asks for: consecutive ports, every one but
    the last in use; the last one is bound and written to the port file, or
    its error rejects the promise. *)
Lemma tryPort_first_free port attempt st :
  settled st = None ->
  exists n, (n <= 4 - attempt)%nat
    /\ listenTargets (trace (tryPort h net port attempt st))
       = listenTargets (trace st) ++ portsFrom port (S n)
    /\ (forall k, (k < n)%nat ->
        exists err, listen net (TcpPort (port + Z.of_nat k)) = Failed err
                    /\ code err = "EADDRINUSE")
    /\ (settled (tryPort h net port attempt st) = Some Resolved ->
        listen net (TcpPort (port + Z.of_nat n)) = Listening
        /\ files (tryPort h net port attempt st) !! getPortFile h None
           = Some (Js.numberToString (port + Z.of_nat n)))
    /\ (forall err, settled (tryPort h net port attempt st) = Some (Rejected err) ->
        listen net (TcpPort (port + Z.of_nat n)) = Failed err
        /\ (code err <> "EADDRINUSE" \/ n = (4 - attempt)%nat)).
Proof.
  funelim (tryPort h net port attempt st); intros Hset.
  - exists 0%nat. split; [lia|].
    set (st1 := bound (TcpPort port) (callListen (TcpPort port) st)).
    destruct (iter_callback h (tcpListening h port) (listeningOnce st) st1
                (tcpListening_callback h port) Hset) as (evs & Htr & Hev & _ & Hres).
    split; [|split; [intros k Hk; lia|split]].
    + rewrite fireListening_trace.
      change (listeningOnce st1) with (S (listeningOnce st)). rewrite Htr.
      change (trace st1) with ((trace st ++ [EvListen (TcpPort port)]) ++ [EvListening]).
      rewrite !listenTargets_app, (listenTargets_callbacks evs Hev). simpl.
      rewrite !app_nil_r. f_equal. unfold portsFrom. simpl. by rewrite Z.add_0_r.
    + intros _. rewrite Z.add_0_r. split; [done|]. rewrite fireListening_files.
      change (listeningOnce st1) with (S (listeningOnce st)).
      apply tcpListening_port_file.
    + intros err. rewrite fireListening_settled.
      change (listeningOnce st1) with (S (listeningOnce st)). by rewrite Hres.
  - destruct (H Hset) as (n & Hn & Hl & Hbusy & Hres & Hrej).
    exists (S n). split; [lia|]. split; [|split; [|split]].
    + rewrite Hl. simpl. rewrite !listenTargets_app. simpl.
      rewrite app_nil_r, <- app_assoc. f_equal. simpl. apply portsFrom_cons.
    + intros [|k] Hk.
      * exists err. rewrite Z.add_0_r. split; [done|]. by apply String.eqb_eq.
      * destruct (Hbusy k ltac:(lia)) as (err' & E & Hcode). exists err'.
        split; [|done]. rewrite <- E. do 2 f_equal. lia.
    + intros Hok. destruct (Hres Hok) as [E F]. split.
      * rewrite <- E. do 2 f_equal. lia.
      * rewrite F. do 2 f_equal. lia.
    + intros err' Hbad. destruct (Hrej err' Hbad) as [E F]. split.
      * rewrite <- E. do 2 f_equal. lia.
      * destruct F as [F|F]; [by left|right; lia].
  - exists 0%nat. split; [lia|]. split; [|split; [intros k Hk; lia|split]].
    + simpl. rewrite !listenTargets_app. simpl. rewrite !app_nil_r. f_equal.
      unfold portsFrom. simpl. by rewrite Z.add_0_r.
    + simpl. rewrite Hset. discriminate.
    + intros err'. simpl. rewrite Hset. intros [= <-]. rewrite Z.add_0_r.
      split; [done|right; lia].
  - exists 0%nat. split; [lia|]. split; [|split; [intros k Hk; lia|split]].
    + simpl. rewrite !listenTargets_app. simpl. rewrite !app_nil_r. f_equal.
      unfold portsFrom. simpl. by rewrite Z.add_0_r.
    + simpl. rewrite Hset. discriminate.
    + intros err'. simpl. rewrite Hset. intros [= <-]. rewrite Z.add_0_r.
      split; [done|left]. intros E. apply String.eqb_eq in E. congruence.
Qed.

End StartupPorts.

(** X8: when the bind is rejected, the entry point ends with exit status 1,
    none of the session's files is left (a stream-port file written before
    the bind included), and no event wrote the pid file; when the bind is
    not rejected the entry point adds nothing to the startup. *)
Theorem failed_startup_exits_clean (h : Session.Host) (net : Startup.Network)
    (fs : Session.Files) :
  match Startup.settled (Startup.startDaemon h net None fs) with
  | Some (Startup.Rejected err) =>
      last (Startup.trace (Startup.daemonMain h net fs)) = Some (Startup.EvExit 1)
      /\ Forall (fun p => Startup.files (Startup.daemonMain h net fs) !! p = None)
           (Session.sessionFiles h None)
      /\ Startup.noPidWrite h (Startup.trace (Startup.daemonMain h net fs))
  | _ => Startup.daemonMain h net fs = Startup.startDaemon h net None fs
  end.
Proof.
  destruct (Startup.settled (Startup.startDaemon h net None fs)) as [[|err]|] eqn:Hset;
    try (unfold Startup.daemonMain; by rewrite Hset).
  assert (Startup.settled (Startup.daemonMain h net fs) = Some (Startup.Rejected err))
    as Hmain by (unfold Startup.daemonMain; by rewrite Hset).
  destruct (daemonMain_rejected h net fs err Hmain) as [Hno Hgone].
  split; [|done]. unfold Startup.daemonMain. rewrite Hset. simpl.
  by rewrite last_snoc.
Qed.

(** X9: after a startup, whatever its outcome and whatever files were there
    before, a stream-port file exists only if a stream server was started on
    a positive port, and it holds that port. *)
Theorem stream_file_means_stream_server (h : Session.Host) (net : Startup.Network)
    (streamPort : option Z) (fs : Session.Files) (content : string) :
  Startup.files (Startup.startDaemon h net streamPort fs)
    !! Session.getStreamPortFile h None = Some content ->
  exists port,
    Startup.streamPortOf h streamPort = Some port
    /\ 0 < port
    /\ Startup.streamStarts net port = true
    /\ content = Js.numberToString port.
Proof.
  unfold Startup.startDaemon.
  set (st0 := Startup.cleanup h _).
  set (st1 := Startup.startStream h net streamPort st0).
  intros Hfile.
  assert (Startup.files st0 !! Session.getStreamPortFile h None = None) as H0.
  { pose proof (cleanupSocket_removes h None fs) as F.
    rewrite Forall_forall in F. apply F. unfold Session.sessionFiles. set_solver. }
  assert (Startup.files st1 !! Session.getStreamPortFile h None = Some content) as H1.
  { destruct (bindListener_framed h net st1 _ (stream_unwritten h)) as [E|E];
      rewrite E in Hfile; [done|].
    pose proof (cleanupSocket_removes h None (Startup.files st1)) as F.
    rewrite Forall_forall in F. rewrite F in Hfile; [done|].
    unfold Session.sessionFiles. set_solver. }
  unfold st1, Startup.startStream in H1.
  destruct (Startup.streamPortOf h streamPort) as [p|]; [|congruence].
  destruct (0 <? p) eqn:Hpos; [|simpl in H1; simpl in H0; congruence].
  destruct (Startup.streamStarts net p) eqn:Hstart;
    [|simpl in H1; simpl in H0; congruence].
  unfold Startup.writeFileSync in H1. simpl in H1.
  rewrite lookup_insert_eq in H1. injection H1 as <-.
  exists p. repeat split; [|done]. by apply Z.ltb_lt.
Qed.

(** X9 with the stream port taken from the environment. *)
Lemma stream_file_means_stream_server_witness :
  let h := {| Session.env := {[ "AGENT_BROWSER_STREAM_PORT" := "9223" ]};
              Session.isWindows := false; Session.homedir := "/home/u";
              Session.tmpdir := "/tmp"; Session.pid := 4521;
              Session.currentSession := "default" |} in
  let net := {| Startup.listen := fun _ => Startup.Listening;
                Startup.streamStarts := fun _ => true |} in
  exists port,
    Startup.streamPortOf h None = Some port /\ 0 < port
    /\ Startup.streamStarts net port = true /\ "9223" = Js.numberToString port.
Proof.
  intros h net.
  apply (stream_file_means_stream_server h net None
           {[ Session.getStreamPortFile h None := "stale" ]} "9223").
  vm_compute. reflexivity.
Defined.

(** X10: a daemon whose startup resolved made one listen call, on the
    socket path that [getConnectionInfo] names, and it was answered; on
    Windows it asked for consecutive ports from the one [getConnectionInfo]
    names, every port before the bound one was in use, at most five were asked
    for, and the port file holds the bound port. *)
Theorem daemon_listens_where_clients_look (h : Session.Host) (net : Startup.Network)
    (streamPort : option Z) (fs : Session.Files) :
  Startup.settled (Startup.startDaemon h net streamPort fs) = Some Startup.Resolved ->
  match Connect.getConnectionInfo h None with
  | Connect.Unix path =>
      Startup.listenTargets (Startup.trace (Startup.startDaemon h net streamPort fs))
      = [Startup.UnixSocket path]
      /\ Startup.listen net (Startup.UnixSocket path) = Startup.Listening
  | Connect.Tcp port =>
      exists n, (n < 5)%nat
        /\ Startup.listenTargets (Startup.trace (Startup.startDaemon h net streamPort fs))
           = Startup.portsFrom port (S n)
        /\ (forall k, (k < n)%nat ->
            exists err, Startup.listen net (Startup.TcpPort (port + Z.of_nat k))
                        = Startup.Failed err
                        /\ Startup.code err = "EADDRINUSE")
        /\ Startup.listen net (Startup.TcpPort (port + Z.of_nat n)) = Startup.Listening
        /\ Startup.files (Startup.startDaemon h net streamPort fs)
             !! Session.getPortFile h None
           = Some (Js.numberToString (port + Z.of_nat n))
  end.
Proof.
  assert (Connect.getConnectionInfo h None
          = if Session.isWindows h
            then Connect.Tcp (Session.getPortForSession (Session.currentSession h))
            else Connect.Unix (Session.getSocketPath h None)) as ->.
  { unfold Connect.getConnectionInfo, Session.getSocketPath.
    by destruct (Session.isWindows h). }
  unfold Startup.startDaemon, Startup.bindListener.
  set (st1 := Startup.startStream h net streamPort _).
  assert (Startup.settled st1 = None) as Hset by (unfold st1; by rewrite startStream_settled).
  assert (Startup.listenTargets (Startup.trace st1) = []) as Htr.
  { unfold st1, Startup.startStream.
    destruct (Startup.streamPortOf h streamPort) as [p|]; [|done].
    by destruct ((0 <? p) && Startup.streamStarts net p). }
  destruct (Session.isWindows h) eqn:Hw.
  - intros Hres.
    destruct (tryPort_first_free h net
                (Session.getPortForSession (Session.currentSession h)) 0 st1 Hset)
      as (n & Hn & Hl & Hbusy & Hok & _).
    destruct (Hok Hres) as [Hlisten Hfile].
    exists n. rewrite Hl, Htr. repeat split; try done. lia.
  - destruct (Startup.listen net (Startup.UnixSocket (Session.getSocketPath h None)))
      as [|err] eqn:Hl.
    + intros _. split; [|done].
      rewrite fireListening_trace.
      set (st2 := Startup.bound _ _).
      destruct (iter_callback h (Startup.unixListening h) (Startup.listeningOnce st1) st2
                  (unixListening_callback h) Hset) as (evs & Hev & Hcb & _).
      change (Startup.listeningOnce st2) with (S (Startup.listeningOnce st1)).
      rewrite Hev. unfold st2. simpl.
      rewrite !listenTargets_app, Htr, (listenTargets_callbacks evs Hcb). done.
    + simpl. rewrite Hset. discriminate.
Qed.

(** X10 on a Windows host whose first port is in use. *)
Lemma daemon_listens_where_clients_look_witness :
  let net := {| Startup.listen := fun t =>
                  match t with
                  | Startup.TcpPort p =>
                      if p =? Session.getPortForSession "default"
                      then Startup.Failed {| Startup.code := "EADDRINUSE";
                                             Startup.message := "in use" |}
                      else Startup.Listening
                  | _ => Startup.Listening
                  end;
                Startup.streamStarts := fun _ => true |} in
  exists n, (n < 5)%nat
    /\ Startup.listenTargets (Startup.trace (Startup.startDaemon tcpHost net None ∅))
       = Startup.portsFrom (Session.getPortForSession "default") (S n)
    /\ (forall k, (k < n)%nat ->
        exists err, Startup.listen net
                      (Startup.TcpPort (Session.getPortForSession "default" + Z.of_nat k))
                    = Startup.Failed err
                    /\ Startup.code err = "EADDRINUSE")
    /\ Startup.listen net
         (Startup.TcpPort (Session.getPortForSession "default" + Z.of_nat n))
       = Startup.Listening
    /\ Startup.files (Startup.startDaemon tcpHost net None ∅)
         !! Session.getPortFile tcpHost None
       = Some (Js.numberToString (Session.getPortForSession "default" + Z.of_nat n)).
Proof.
  intros net.
  apply (daemon_listens_where_clients_look tcpHost net None ∅).
  vm_compute. reflexivity.
Defined.

(** X11: a startup whose bind is rejected on Windows was refused the last
    port it asked for, with the error of the rejection; that error is not
    [EADDRINUSE], or five consecutive ports were asked for and all were in
    use.  On the other hosts the one bind of the socket path was refused with
    the error of the rejection. *)
Theorem rejected_bind_reports_last_error (h : Session.Host) (net : Startup.Network)
    (streamPort : option Z) (fs : Session.Files) (err : Startup.ListenError) :
  Startup.settled (Startup.startDaemon h net streamPort fs)
  = Some (Startup.Rejected err) ->
  if Session.isWindows h
  then exists n, (n < 5)%nat
         /\ Startup.listenTargets (Startup.trace (Startup.startDaemon h net streamPort fs))
            = Startup.portsFrom (Session.getPortForSession (Session.currentSession h)) (S n)
         /\ Startup.listen net
              (Startup.TcpPort
                 (Session.getPortForSession (Session.currentSession h) + Z.of_nat n))
            = Startup.Failed err
         /\ (Startup.code err <> "EADDRINUSE" \/ n = 4%nat)
  else Startup.listen net (Startup.UnixSocket (Session.getSocketPath h None))
       = Startup.Failed err.
Proof.
  unfold Startup.startDaemon, Startup.bindListener.
  set (st1 := Startup.startStream h net streamPort _).
  assert (Startup.settled st1 = None) as Hset by (unfold st1; by rewrite startStream_settled).
  assert (Startup.listenTargets (Startup.trace st1) = []) as Htr.
  { unfold st1, Startup.startStream.
    destruct (Startup.streamPortOf h streamPort) as [p|]; [|done].
    by destruct ((0 <? p) && Startup.streamStarts net p). }
  destruct (Session.isWindows h) eqn:Hw.
  - intros Hrej.
    destruct (tryPort_first_free h net
                (Session.getPortForSession (Session.currentSession h)) 0 st1 Hset)
      as (n & Hn & Hl & _ & _ & Hbad).
    destruct (Hbad err Hrej) as [Hlisten Hwhy].
    exists n. rewrite Hl, Htr. split; [lia|]. split; [done|]. split; [done|].
    destruct Hwhy as [?|?]; [by left|right; lia].
  - destruct (Startup.listen net (Startup.UnixSocket (Session.getSocketPath h None)))
      as [|err'] eqn:Hl.
    + rewrite fireListening_settled.
      set (st2 := Startup.bound _ _).
      destruct (iter_callback h (Startup.unixListening h) (Startup.listeningOnce st1) st2
                  (unixListening_callback h) Hset) as (evs & _ & _ & _ & Hres).
      change (Startup.listeningOnce st2) with (S (Startup.listeningOnce st1)).
      rewrite Hres. discriminate.
    + simpl. rewrite Hset. by intros [= ->].
Qed.

(** X11 on a Windows host all of whose ports are in use. *)
Lemma rejected_bind_reports_last_error_witness :
  let busy := {| Startup.code := "EADDRINUSE"; Startup.message := "in use" |} in
  let net := {| Startup.listen := fun _ => Startup.Failed busy;
                Startup.streamStarts := fun _ => true |} in
  exists n, (n < 5)%nat
    /\ Startup.listenTargets (Startup.trace (Startup.startDaemon tcpHost net None ∅))
       = Startup.portsFrom (Session.getPortForSession "default") (S n)
    /\ Startup.listen net
         (Startup.TcpPort (Session.getPortForSession "default" + Z.of_nat n))
       = Startup.Failed busy
    /\ (Startup.code busy <> "EADDRINUSE" \/ n = 4%nat).
Proof.
  intros busy net.
  apply (rejected_bind_reports_last_error tcpHost net None ∅ busy).
  vm_compute. reflexivity.
Defined.

(** ** The connection handler: what the request-line filter ends *)
Section FilterFurther.
Import Session Protocol Daemon Traffic.
Context `{Codec} {B : Type} `{Engine B}.
Variable h : Host.

(** A connection that passed the test of its first data is never
    destroyed. *)
Lemma feed_checked chunks c d :
  httpChecked c = true -> destroyed c = false ->
  destroyed (feed h chunks c d).1.1 = false
  /\ Forall (fun ev => ev <> SockDestroy) (feed h chunks c d).2.
Proof.
  revert c d. induction chunks as [|data more IH]; intros c d Hck Hc.
  - simpl. by split.
  - rewrite feed_cons by done.
    rewrite (onData_accepted h data c d (or_introl Hck)). simpl.
    destruct (processLines_run h (buffer c +:+ data) d)
      as (consumed & _ & _ & _ & _ & Hnd & _).
    set (c1 := {| buffer := (processLines h (buffer c +:+ data) d).1.1;
                  httpChecked := true; destroyed := false |}).
    destruct (IH c1 (processLines h (buffer c +:+ data) d).1.2 eq_refl eq_refl)
      as [Hd Hev].
    split; [exact Hd|]. rewrite Hck. simpl. by apply Forall_app.
Qed.

Lemma feed_fresh data more d :
  if httpRequestLine (Js.trimStart data)
  then feed h (data :: more) freshConn d
       = ({| buffer := data; httpChecked := true; destroyed := true |}, d,
          [HttpTest (Js.trimStart data); SockDestroy])
  else destroyed (feed h (data :: more) freshConn d).1.1 = false
       /\ Forall (fun ev => ev <> SockDestroy) (feed h (data :: more) freshConn d).2.
Proof.
  destruct (httpRequestLine (Js.trimStart data)) eqn:E.
  - rewrite feed_cons by done.
    pose proof (onData_rejected h data freshConn d eq_refl) as Hrej.
    change (buffer freshConn +:+ data) with data in Hrej.
    rewrite (Hrej E). simpl. by rewrite feed_destroyed.
  - rewrite feed_cons by done.
    pose proof (onData_accepted h data freshConn d) as Hacc.
    change (buffer freshConn +:+ data) with data in Hacc.
    rewrite (Hacc (or_intror E)). simpl.
    destruct (processLines_run h data d) as (consumed & _ & _ & _ & _ & Hnd & _).
    set (c1 := {| buffer := (processLines h data d).1.1;
                  httpChecked := true; destroyed := false |}).
    destruct (feed_checked more c1 (processLines h data d).1.2 eq_refl eq_refl)
      as [Hd Hev].
    split; [exact Hd|]. constructor; [done|]. by apply Forall_app.
Qed.

End FilterFurther.

Section PatternFacts.
Import Daemon Traffic.

Lemma matchLiteralCI_spec literal s t :
  matchLiteralCI literal s = Some t
  <-> exists pre, s = pre +:+ t /\ toUpperCase pre = toUpperCase literal.
Proof.
  revert s. induction literal as [|a l IH]; intros s.
  - simpl. split.
    + intros [= <-]. by exists "".
    + intros (pre & -> & Hpre). destruct pre; [done|discriminate].
  - destruct s as [|b s']; simpl.
    + split; [discriminate|]. intros (pre & Hs & Hpre).
      destruct pre as [|x pre]; [discriminate|].
      rewrite append_cons in Hs. discriminate.
    + destruct (Ascii.eqb (Js.upperChar a) (Js.upperChar b)) eqn:E.
      * rewrite IH. apply Ascii.eqb_eq in E. split.
        -- intros (pre & -> & Hpre). exists (String b pre).
           split; [by rewrite append_cons|]. simpl. by rewrite Hpre, E.
        -- intros (pre & Hs & Hpre). destruct pre as [|x pre]; [discriminate|].
           rewrite append_cons in Hs. injection Hs as -> ->.
           simpl in Hpre. injection Hpre as _ Hpre. by exists pre.
      * apply Ascii.eqb_neq in E. split; [discriminate|].
        intros (pre & Hs & Hpre). destruct pre as [|x pre]; [discriminate|].
        rewrite append_cons in Hs. injection Hs as -> ->.
        simpl in Hpre. injection Hpre as Hx _. congruence.
Qed.

Lemma httpVerbs_upper verb : verb ∈ httpVerbs -> toUpperCase verb = verb.
Proof.
  unfold httpVerbs. intros Hverb.
  repeat (apply elem_of_cons in Hverb as [->|Hverb]; [reflexivity|]).
  by apply elem_of_nil in Hverb.
Qed.

Lemma httpRequestLine_inv s :
  httpRequestLine s = true ->
  exists verb pre w rest,
    verb ∈ httpVerbs /\ s = pre +:+ String w rest
    /\ toUpperCase pre = verb /\ Js.isWhiteSpace w = true.
Proof.
  unfold httpRequestLine. rewrite existsb_exists.
  intros (verb & Hin & Hm).
  destruct (matchLiteralCI verb s) as [[|w rest]|] eqn:E; try discriminate.
  apply matchLiteralCI_spec in E as (pre & -> & Hpre).
  apply list_elem_of_In in Hin.
  exists verb, pre, w, rest. by rewrite Hpre, httpVerbs_upper.
Qed.

(** A text that the pattern matches starts with the first letter of a verb,
    in either case. *)
Lemma httpRequestLine_initial c rest :
  httpRequestLine (String c rest) = true -> Js.upperChar c ∈ verbInitials.
Proof.
  intros (verb & pre & w & rest' & Hin & Hs & Hpre & _)%httpRequestLine_inv.
  destruct pre as [|x pre].
  { simpl in Hpre. subst verb. unfold httpVerbs in Hin.
    repeat (apply elem_of_cons in Hin as [Hin|Hin]; [discriminate|]).
    by apply elem_of_nil in Hin. }
  rewrite append_cons in Hs. injection Hs as -> _.
  simpl in Hpre. subst verb. unfold httpVerbs in Hin. unfold verbInitials.
  repeat (apply elem_of_cons in Hin as [Hin|Hin];
          [injection Hin as -> _; set_solver|]).
  by apply elem_of_nil in Hin.
Qed.

End PatternFacts.

(** X12: whether a connection is destroyed is decided by its first data
    alone: it is destroyed exactly when that data, after leading white space,
    matches the request-line pattern, whatever is sent after; and a
    connection that has passed the test is never destroyed, whatever it
    sends. *)
Theorem connection_fate_decided_by_first_chunk `{Daemon.Codec} {B : Type}
    `{Daemon.Engine B} (h : Session.Host) (data : string) (more : list string)
    (d : Daemon.Shared B) :
  let r := Daemon.feed h (data :: more) Daemon.freshConn d in
  Daemon.destroyed r.1.1 = Daemon.httpRequestLine (Js.trimStart data)
  /\ (Daemon.SockDestroy ∈ r.2 <-> Daemon.httpRequestLine (Js.trimStart data) = true)
  /\ forall chunks c d',
       Daemon.httpChecked c = true -> Daemon.destroyed c = false ->
       Daemon.destroyed (Daemon.feed h chunks c d').1.1 = false
       /\ Daemon.SockDestroy ∉ (Daemon.feed h chunks c d').2.
Proof.
  intros r. pose proof (feed_fresh h data more d) as Hfresh. fold r in Hfresh.
  split; [|split].
  - destruct (Daemon.httpRequestLine (Js.trimStart data)); [by rewrite Hfresh|].
    by destruct Hfresh.
  - destruct (Daemon.httpRequestLine (Js.trimStart data)).
    + rewrite Hfresh. simpl. split; [done|]. intros _. set_solver.
    + destruct Hfresh as [_ Hev]. split; [|discriminate].
      intros Hin. rewrite Forall_forall in Hev. by destruct (Hev _ Hin).
  - intros chunks c d' Hck Hc.
    destruct (feed_checked h chunks c d' Hck Hc) as [Hd Hev].
    split; [exact Hd|]. intros Hin. rewrite Forall_forall in Hev.
    by destruct (Hev _ Hin).
Qed.

(** X13: the request-line pattern matches a text exactly when the text is
    one of the nine verbs, in any mix of upper and lower case, followed by a
    white-space character and anything. *)
Theorem filter_matches_exactly_request_lines (s : string) :
  Daemon.httpRequestLine s = true
  <-> exists verb pre w rest,
        verb ∈ Daemon.httpVerbs /\ s = pre +:+ String w rest
        /\ Traffic.toUpperCase pre = verb /\ Js.isWhiteSpace w = true.
Proof.
  split; [apply httpRequestLine_inv|].
  intros (verb & pre & w & rest & Hin & -> & Hpre & Hw).
  unfold Daemon.httpRequestLine. rewrite existsb_exists.
  exists verb. split; [by apply list_elem_of_In|].
  assert (Daemon.matchLiteralCI verb (pre +:+ String w rest) = Some (String w rest))
    as ->; [|done].
  apply matchLiteralCI_spec. exists pre. split; [done|].
  by rewrite Hpre, httpVerbs_upper.
Qed.

(** X14: a connection whose first data is empty or white space, or starts,
    after leading white space, with a character that is not the first letter
    of a verb in either case (the brace of a JSON command, for one), is not
    destroyed. *)
Theorem first_character_outside_verbs_passes `{Daemon.Codec} {B : Type}
    `{Daemon.Engine B} (h : Session.Host) (data : string) (more : list string)
    (d : Daemon.Shared B) :
  match Js.trimStart data with
  | String c _ => Js.upperChar c ∉ Traffic.verbInitials
  | EmptyString => True
  end ->
  Daemon.destroyed (Daemon.feed h (data :: more) Daemon.freshConn d).1.1 = false
  /\ Daemon.SockDestroy ∉ (Daemon.feed h (data :: more) Daemon.freshConn d).2.
Proof.
  intros Hfirst. pose proof (feed_fresh h data more d) as Hfresh.
  destruct (Daemon.httpRequestLine (Js.trimStart data)) eqn:E.
  - destruct (Js.trimStart data) as [|c rest]; [discriminate E|].
    by apply httpRequestLine_initial in E.
  - destruct Hfresh as [Hd Hev]. split; [exact Hd|].
    intros Hin. rewrite Forall_forall in Hev. by destruct (Hev _ Hin).
Qed.

(** X14 at a JSON command that arrives after a line break, followed by a
    text that would match the pattern. *)
Lemma first_character_outside_verbs_passes_witness :
  let data := Js.NL +:+ "{" +:+ Js.DQ +:+ "id" +:+ Js.DQ +:+ ":1}" +:+ Js.NL in
  let r := @Daemon.feed demoCodec bool (demoEngine true) unixHost
             [data; "GET / HTTP/1.1" +:+ Js.NL] Daemon.freshConn demoShared in
  Daemon.destroyed r.1.1 = false /\ Daemon.SockDestroy ∉ r.2.
Proof.
  intros data r.
  apply (@first_character_outside_verbs_passes demoCodec bool (demoEngine true)
           unixHost data ["GET / HTTP/1.1" +:+ Js.NL] demoShared).
  change ("{"%char ∉ Traffic.verbInitials).
  unfold Traffic.verbInitials. intros Hin.
  repeat (apply elem_of_cons in Hin as [Hin|Hin]; [discriminate Hin|]).
  by apply elem_of_nil in Hin.
Defined.

(** ** The connection handler: shutdown *)
Section ShutdownFacts.
Import Session Protocol Daemon Traffic.
Context `{Codec} {B : Type} `{Engine B}.
Variable h : Host.










End ShutdownFacts.


(** ** The sequential handler is one of the schedules *)
Section SequentialSchedule.
Import Session Protocol Daemon.
Context `{Codec} {B : Type} `{Engine B}.
Variable h : Host.

Local Abbreviation any := (fun (_ : Command) (_ : Response) => true).
Local Abbreviation run := (Async.run any).

Lemma advance_none launched buf :
  Js.indexOf Js.LF buf = None ->
  Async.advance launched buf
  = {| Async.rest := buf; Async.took := []; Async.wrote := []; Async.stop := None |}.
Proof.
  funelim (Async.advance launched buf); intros Hno; [done|congruence..].
Qed.

Lemma advance_step launched buf i :
  Js.indexOf Js.LF buf = Some i ->
  Async.advance launched buf
  = if isBlank (Js.substring 0 i buf)
    then {| Async.rest := Async.rest (Async.advance launched (Js.substringFrom (i + 1) buf));
            Async.took :=
              Js.substring 0 i buf
              :: Async.took (Async.advance launched (Js.substringFrom (i + 1) buf));
            Async.wrote := Async.wrote (Async.advance launched (Js.substringFrom (i + 1) buf));
            Async.stop := Async.stop (Async.advance launched (Js.substringFrom (i + 1) buf)) |}
    else match parseCommand (Js.substring 0 i buf) with
         | ParseFailure pid error =>
             {| Async.rest :=
                  Async.rest (Async.advance launched (Js.substringFrom (i + 1) buf));
                Async.took :=
                  Js.substring 0 i buf
                  :: Async.took (Async.advance launched (Js.substringFrom (i + 1) buf));
                Async.wrote :=
                  {| Async.answered := Js.substring 0 i buf; Async.how := Async.Unparsed;
                     Async.response := errorResponse (default "unknown" pid) error |}
                  :: Async.wrote (Async.advance launched (Js.substringFrom (i + 1) buf));
                Async.stop :=
                  Async.stop (Async.advance launched (Js.substringFrom (i + 1) buf)) |}
         | ParseSuccess command =>
             {| Async.rest := Js.substringFrom (i + 1) buf;
                Async.took := [Js.substring 0 i buf]; Async.wrote := [];
                Async.stop :=
                  Some (if Async.needsLaunch launched command
                        then Async.AwaitLaunch (Js.substring 0 i buf) command
                        else Async.AwaitExecute (Js.substring 0 i buf) command) |}
         end.
Proof.
  funelim (Async.advance launched buf); intros Hi.
  - congruence.
  - rewrite Hidx in Hi. injection Hi as <-. by rewrite Heq.
  - rewrite Hidx in Hi. injection Hi as <-. by rewrite Heq0, Heq.
  - rewrite Hidx in Hi. injection Hi as <-. by rewrite Heq0, Heq.
Qed.

Lemma processLines_none buf d :
  Js.indexOf Js.LF buf = None -> processLines h buf d = (buf, d, []).
Proof.
  funelim (processLines h buf d); intros Hno; [done|congruence..].
Qed.

(** One round of the loop. *)
Lemma processLines_step buf d i :
  Js.indexOf Js.LF buf = Some i ->
  processLines h buf d
  = if isBlank (Js.substring 0 i buf)
    then processLines h (Js.substringFrom (i + 1) buf) d
    else match handleLine h (Js.substring 0 i buf) d with
         | (Return, d1, evs) => (Js.substringFrom (i + 1) buf, d1, evs)
         | (Continue, d1, evs) =>
             ((processLines h (Js.substringFrom (i + 1) buf) d1).1,
              evs ++ (processLines h (Js.substringFrom (i + 1) buf) d1).2)
         end.
Proof.
  funelim (processLines h buf d); intros Hi.
  - congruence.
  - rewrite Hidx in Hi. injection Hi as <-. by rewrite Heq.
  - rewrite Hidx in Hi. injection Hi as <-. by rewrite Heq0, Heq.
  - rewrite Hidx in Hi. injection Hi as <-. by rewrite Heq1, Heq0, Heq.
Qed.

(** A handler that runs to completion, as a schedule: from the head of the
    loop, every awaited call ends before anything else happens. *)
Lemma processLines_schedule buf d hc ds tm rc T W :
  exists labels s',
    run labels
      {| Async.buffer := Async.rest (Async.advance (isLaunched (browser d)) buf);
         Async.httpChecked := hc; Async.destroyed := ds;
         Async.shuttingDown := shuttingDown d; Async.timer := tm;
         Async.exited := false;
         Async.suspended :=
           [] ++ option_list (Async.stop (Async.advance (isLaunched (browser d)) buf));
         Async.received := rc;
         Async.taken := T ++ Async.took (Async.advance (isLaunched (browser d)) buf);
         Async.written := W ++ Async.wrote (Async.advance (isLaunched (browser d)) buf) |}
    = Some s'
    /\ Async.buffer s' = (processLines h buf d).1.1
    /\ Async.shuttingDown s' = shuttingDown (processLines h buf d).1.2
    /\ Async.suspended s' = [] /\ Async.exited s' = false
    /\ Async.httpChecked s' = hc /\ Async.destroyed s' = ds
    /\ Async.response <$> Async.written s'
       = (Async.response <$> W) ++ writes (processLines h buf d).2.
Proof.
  remember (String.length buf) as n eqn:Hn. revert buf d hc ds tm rc T W Hn.
  induction n as [n IH] using lt_wf_ind. intros buf d hc ds tm rc T W ->.
  destruct (Js.indexOf Js.LF buf) as [i|] eqn:Hidx.
  2: { rewrite (advance_none _ _ Hidx), (processLines_none _ _ Hidx). simpl.
       eexists [], _. split; [reflexivity|]. simpl. by rewrite !app_nil_r. }
  pose proof (Js.drop_after_indexOf _ _ _ Hidx) as Hlen.
  rewrite (advance_step _ _ _ Hidx), (processLines_step _ _ _ Hidx).
  set (line := Js.substring 0 i buf). set (rest0 := Js.substringFrom (i + 1) buf).
  destruct (isBlank line) eqn:Hblank.
  { simpl. rewrite (cons_middle line T).
    rewrite (assoc_L (++) T [line]).
    apply (IH _ Hlen rest0 d hc ds tm rc (T ++ [line]) W eq_refl). }
  unfold handleLine, tryLine.
  destruct (parseCommand line) as [command|pid error] eqn:Hparse.
  2: { simpl.
       rewrite (cons_middle line T), (assoc_L (++) T [line]).
       rewrite (cons_middle _ W), (assoc_L (++) W [_]).
       destruct (IH _ Hlen rest0 d hc ds tm rc (T ++ [line])
                   (W ++ [{| Async.answered := line; Async.how := Async.Unparsed;
                             Async.response := errorResponse (default "unknown" pid) error |}])
                   eq_refl) as (labels & s' & Hrun & Hb & Hsd & Hsus & Hex & Hhc & Hds & Hw).
       exists labels, s'. split; [exact Hrun|]. repeat (split; [done|]).
       rewrite Hw, fmap_app. simpl. by rewrite <- (assoc_L (++)). }
  unfold autoLaunch.
  change (negb (isLaunched (browser d))
          && negb (String.eqb (action command) "launch")
          && negb (String.eqb (action command) "close"))
    with (Async.needsLaunch (isLaunched (browser d)) command).
  simpl.
  destruct (Async.needsLaunch (isLaunched (browser d)) command) eqn:Hneed.
  - assert (String.eqb (action command) "close" = false) as Hnc.
    { unfold Async.needsLaunch in Hneed.
      destruct (String.eqb (action command) "close"); [|done].
      by rewrite andb_false_r in Hneed. }
    destruct (launch (launchFromEnv h) (browser d)) as [[[]|message] b1] eqn:Hlaunch.
    + simpl. rewrite Hnc.
      destruct (executeCommand command b1) as [[resp|message] b2] eqn:Hexec; simpl.
      * destruct (IH _ Hlen rest0 {| browser := b2; shuttingDown := shuttingDown d |}
                    hc ds tm rc (T ++ [line])
                    ((W ++ []) ++ [{| Async.answered := line; Async.how := Async.Executed;
                                      Async.response := resp |}])
                    eq_refl)
          as (labels & s' & Hrun & Hb & Hsd & Hsus & Hex & Hhc & Hds & Hw).
        exists (Async.LaunchDone 0 (Returned tt) false
                :: Async.ExecuteDone 0 (Returned resp) (isLaunched b2) :: labels), s'.
        split.
        { cbn [Async.run]. repeat (unfold Async.step at 1; simpl).
          rewrite Hnc. exact Hrun. }
        repeat (split; [done|]).
        rewrite Hw, !fmap_app. simpl. by rewrite app_nil_r, <- (assoc_L (++)).
      * destruct (IH _ Hlen rest0 {| browser := b2; shuttingDown := shuttingDown d |}
                    hc ds tm rc (T ++ [line])
                    ((W ++ []) ++ [{| Async.answered := line; Async.how := Async.Thrown;
                                      Async.response := errorResponse "error" message |}])
                    eq_refl)
          as (labels & s' & Hrun & Hb & Hsd & Hsus & Hex & Hhc & Hds & Hw).
        exists (Async.LaunchDone 0 (Returned tt) false
                :: Async.ExecuteDone 0 (Threw message) (isLaunched b2) :: labels), s'.
        split.
        { cbn [Async.run]. repeat (unfold Async.step at 1; simpl). exact Hrun. }
        repeat (split; [done|]).
        rewrite Hw, !fmap_app. simpl. by rewrite app_nil_r, <- (assoc_L (++)).
    + simpl.
      destruct (IH _ Hlen rest0 {| browser := b1; shuttingDown := shuttingDown d |}
                  hc ds tm rc (T ++ [line])
                  ((W ++ []) ++ [{| Async.answered := line; Async.how := Async.Thrown;
                                    Async.response := errorResponse "error" message |}])
                  eq_refl)
        as (labels & s' & Hrun & Hb & Hsd & Hsus & Hex & Hhc & Hds & Hw).
      exists (Async.LaunchDone 0 (Threw message) (isLaunched b1) :: labels), s'.
      split.
      { cbn [Async.run]. repeat (unfold Async.step at 1; simpl). exact Hrun. }
      repeat (split; [done|]).
      rewrite Hw, !fmap_app. simpl. by rewrite app_nil_r, <- (assoc_L (++)).
  - destruct (String.eqb (action command) "close") eqn:Hclose.
    + destruct (executeCommand command (browser d)) as [[resp|message] b2] eqn:Hexec; simpl.
      * eexists [Async.ExecuteDone 0 (Returned resp) false], _.
        split.
        { cbn [Async.run]. repeat (unfold Async.step at 1; simpl).
          rewrite Hclose. reflexivity. }
        simpl. repeat (split; [done|]).
        rewrite !fmap_app. simpl. rewrite app_nil_r. by destruct (shuttingDown d).
      * destruct (IH _ Hlen rest0 {| browser := b2; shuttingDown := shuttingDown d |}
                    hc ds tm rc (T ++ [line])
                    ((W ++ []) ++ [{| Async.answered := line; Async.how := Async.Thrown;
                                      Async.response := errorResponse "error" message |}])
                    eq_refl)
          as (labels & s' & Hrun & Hb & Hsd & Hsus & Hex & Hhc & Hds & Hw).
        exists (Async.ExecuteDone 0 (Threw message) (isLaunched b2) :: labels), s'.
        split.
        { cbn [Async.run]. repeat (unfold Async.step at 1; simpl). exact Hrun. }
        repeat (split; [done|]).
        rewrite Hw, !fmap_app. simpl. by rewrite app_nil_r, <- (assoc_L (++)).
    + destruct (executeCommand command (browser d)) as [[resp|message] b2] eqn:Hexec; simpl.
      * destruct (IH _ Hlen rest0 {| browser := b2; shuttingDown := shuttingDown d |}
                    hc ds tm rc (T ++ [line])
                    ((W ++ []) ++ [{| Async.answered := line; Async.how := Async.Executed;
                                      Async.response := resp |}])
                    eq_refl)
          as (labels & s' & Hrun & Hb & Hsd & Hsus & Hex & Hhc & Hds & Hw).
        exists (Async.ExecuteDone 0 (Returned resp) (isLaunched b2) :: labels), s'.
        split.
        { cbn [Async.run]. repeat (unfold Async.step at 1; simpl).
          rewrite Hclose. exact Hrun. }
        repeat (split; [done|]).
        rewrite Hw, !fmap_app. simpl. by rewrite app_nil_r, <- (assoc_L (++)).
      * destruct (IH _ Hlen rest0 {| browser := b2; shuttingDown := shuttingDown d |}
                    hc ds tm rc (T ++ [line])
                    ((W ++ []) ++ [{| Async.answered := line; Async.how := Async.Thrown;
                                      Async.response := errorResponse "error" message |}])
                    eq_refl)
          as (labels & s' & Hrun & Hb & Hsd & Hsus & Hex & Hhc & Hds & Hw).
        exists (Async.ExecuteDone 0 (Threw message) (isLaunched b2) :: labels), s'.
        split.
        { cbn [Async.run]. repeat (unfold Async.step at 1; simpl). exact Hrun. }
        repeat (split; [done|]).
        rewrite Hw, !fmap_app. simpl. by rewrite app_nil_r, <- (assoc_L (++)).
Qed.

Lemma run_app labels1 labels2 s s1 :
  run labels1 s = Some s1 -> run (labels1 ++ labels2) s = run labels2 s1.
Proof.
  revert s. induction labels1 as [|l labels1 IH]; intros s; simpl.
  - by intros [= <-].
  - destruct (Async.step any l s); [apply IH|discriminate].
Qed.

Lemma feed_schedule chunks c d s :
  Async.buffer s = buffer c -> Async.httpChecked s = httpChecked c ->
  Async.destroyed s = destroyed c -> Async.shuttingDown s = shuttingDown d ->
  Async.suspended s = [] -> Async.exited s = false ->
  exists labels s',
    run labels s = Some s'
    /\ Async.buffer s' = buffer (feed h chunks c d).1.1
    /\ Async.httpChecked s' = httpChecked (feed h chunks c d).1.1
    /\ Async.destroyed s' = destroyed (feed h chunks c d).1.1
    /\ Async.shuttingDown s' = shuttingDown (feed h chunks c d).1.2
    /\ Async.suspended s' = [] /\ Async.exited s' = false
    /\ Async.response <$> Async.written s'
       = (Async.response <$> Async.written s) ++ writes (feed h chunks c d).2.
Proof.
  revert c d s. induction chunks as [|data more IH]; intros c d s Hb Hhc Hds Hsd Hsus Hex.
  { exists [], s. simpl. by rewrite app_nil_r. }
  destruct (destroyed c) eqn:Hc.
  { rewrite feed_destroyed by done. exists [], s. simpl. rewrite app_nil_r.
    repeat split; congruence. }
  rewrite feed_cons by done.
  destruct (decide (httpChecked c = false
                    /\ httpRequestLine (Js.trimStart (buffer c +:+ data)) = true))
    as [[Hck Hre]|Hacc].
  - rewrite (onData_rejected h data c d Hck Hre). simpl.
    rewrite feed_destroyed by done. simpl.
    eexists [Async.Data data (isLaunched (browser d))], _. split.
    { simpl. unfold Async.step. rewrite Hex, Hds. unfold Async.onData.
      rewrite Hhc, Hb, Hck, Hre. simpl. reflexivity. }
    simpl. by rewrite app_nil_r.
  - assert (httpChecked c = true
            \/ httpRequestLine (Js.trimStart (buffer c +:+ data)) = false) as Hacc'.
    { destruct (httpChecked c); [by left|right].
      destruct (httpRequestLine _); [|done]. by destruct Hacc. }
    rewrite (onData_accepted h data c d Hacc'). simpl.
    destruct (processLines_schedule (buffer c +:+ data) d true false
                (Async.timer s) (Async.received s +:+ data) (Async.taken s)
                (Async.written s))
      as (labels1 & s1 & Hrun1 & Hb1 & Hsd1 & Hsus1 & Hex1 & Hhc1 & Hds1 & Hw1).
    set (c1 := {| buffer := (processLines h (buffer c +:+ data) d).1.1;
                  httpChecked := true; destroyed := false |}).
    destruct (IH c1 (processLines h (buffer c +:+ data) d).1.2 s1
                Hb1 Hhc1 Hds1 Hsd1 Hsus1 Hex1)
      as (labels2 & s2 & Hrun2 & Hb2 & Hhc2 & Hds2 & Hsd2 & Hsus2 & Hex2 & Hw2).
    exists (Async.Data data (isLaunched (browser d)) :: labels1 ++ labels2), s2.
    split.
    { cbn [Async.run]. unfold Async.step. rewrite Hex, Hds. unfold Async.onData.
      assert (negb (Async.httpChecked s)
              && httpRequestLine (Js.trimStart (Async.buffer s +:+ data)) = false) as ->.
      { rewrite Hhc, Hb. destruct Hacc' as [-> | ->]; [done|by rewrite andb_false_r]. }
      unfold Async.loop. simpl. rewrite Hb, Hsd, Hex, Hsus, Hds.
      by rewrite (run_app _ labels2 _ _ Hrun1). }
    repeat (split; [done|]).
    rewrite Hw2, Hw1, !writes_app, <- !(assoc_L (++)). f_equal.
    destruct (httpChecked c); simpl; done.
Qed.

(** The handler that runs each ['data'] event to completion is one of the
    schedules of the event loop: the one in which every awaited call ends
    before the next event. *)
Lemma feed_is_a_schedule chunks d :
  exists labels s,
    run labels (Async.fresh (shuttingDown d)) = Some s
    /\ Async.suspended s = []
    /\ Async.buffer s = buffer (feed h chunks freshConn d).1.1
    /\ Async.destroyed s = destroyed (feed h chunks freshConn d).1.1
    /\ Async.shuttingDown s = shuttingDown (feed h chunks freshConn d).1.2
    /\ Async.response <$> Async.written s = writes (feed h chunks freshConn d).2.
Proof.
  destruct (feed_schedule chunks freshConn d (Async.fresh (shuttingDown d))
              eq_refl eq_refl eq_refl eq_refl eq_refl eq_refl)
    as (labels & s & Hrun & Hb & _ & Hds & Hsd & Hsus & _ & Hw).
  by exists labels, s.
Qed.

End SequentialSchedule.

(** ** Auto-launch: the lists read from the environment *)
Section EnvFacts.
Import Session Daemon Traffic.

Lemma trimStart_chars c s : c ∈ chars (Js.trimStart s) -> c ∈ chars s.
Proof.
  induction s as [|a r IH]; simpl; [done|].
  destruct (Js.isWhiteSpace a); [|done]. intros Hin. right. by apply IH.
Qed.

Lemma trimEnd_chars c s : c ∈ chars (Js.trimEnd s) -> c ∈ chars s.
Proof.
  induction s as [|a r IH]; simpl; [done|].
  destruct (Js.trimEnd r) as [|b r'] eqn:E.
  - destruct (Js.isWhiteSpace a); simpl; [by intros ?%elem_of_nil|].
    intros [->|?%elem_of_nil]%elem_of_cons; [left|done].
  - simpl. intros [->|Hin]%elem_of_cons; [left|right]. by apply IH.
Qed.

Lemma trimEnd_idem s : Js.trimEnd (Js.trimEnd s) = Js.trimEnd s.
Proof.
  induction s as [|a r IH]; simpl; [done|].
  destruct (Js.trimEnd r) as [|b r'] eqn:E.
  - destruct (Js.isWhiteSpace a) eqn:Ea; simpl; [done|]. by rewrite Ea.
  - change (Js.trimEnd (String a (String b r')))
      with (match Js.trimEnd (String b r') with
            | "" => if Js.isWhiteSpace a then "" else String a ""
            | r0 => String a r0
            end).
    by rewrite IH.
Qed.

(** What [trimStart] returns does not start with white space, and [trimEnd]
    keeps it so. *)
Lemma trimStart_fixed s :
  match s with String c _ => Js.isWhiteSpace c = false | EmptyString => True end ->
  Js.trimStart s = s.
Proof. destruct s as [|c r]; simpl; [done|]. by intros ->. Qed.

Lemma trimStart_clean s :
  match Js.trimStart s with
  | String c _ => Js.isWhiteSpace c = false
  | EmptyString => True
  end.
Proof.
  induction s as [|a r IH]; simpl; [done|].
  by destruct (Js.isWhiteSpace a) eqn:E.
Qed.

Lemma trimEnd_clean s :
  match s with String c _ => Js.isWhiteSpace c = false | EmptyString => True end ->
  match Js.trimEnd s with
  | String c _ => Js.isWhiteSpace c = false
  | EmptyString => True
  end.
Proof.
  destruct s as [|a r]; simpl; [done|]. intros Ha.
  destruct (Js.trimEnd r); by rewrite ?Ha.
Qed.

Lemma trim_idem s : Js.trim (Js.trim s) = Js.trim s.
Proof.
  unfold Js.trim.
  rewrite (trimStart_fixed (Js.trimEnd (Js.trimStart s)))
    by apply trimEnd_clean, trimStart_clean.
  apply trimEnd_idem.
Qed.

Lemma splitBy_chars sep v y c :
  y ∈ Js.splitBy sep v -> c ∈ chars y -> sep c = false.
Proof.
  revert y. induction v as [|a r IH]; intros y; simpl.
  - intros [->|?%elem_of_nil]%elem_of_cons; [|done]. by intros ?%elem_of_nil.
  - destruct (sep a) eqn:Ea.
    + intros [->|Hin]%elem_of_cons; [by intros ?%elem_of_nil|]. by apply IH.
    + destruct (Js.splitBy sep r) as [|piece rest].
      * intros [->|?%elem_of_nil]%elem_of_cons; [|done]. simpl.
        intros [->|?%elem_of_nil]%elem_of_cons; done.
      * intros [->|Hin]%elem_of_cons.
        -- simpl. intros [->|Hc]%elem_of_cons; [done|].
           apply (IH piece); [left|done].
        -- apply IH. by right.
Qed.

Lemma envList_clean sep v x :
  x ∈ envList sep v ->
  x <> "" /\ Js.trim x = x /\ forall c, c ∈ chars x -> sep c = false.
Proof.
  unfold envList. rewrite list_elem_of_filter, list_elem_of_fmap.
  intros [Hx (y & -> & Hy)]. split; [|split].
  - intros E. by rewrite E in Hx.
  - apply trim_idem.
  - intros c Hc. apply (splitBy_chars sep v y c Hy).
    by apply trimStart_chars, trimEnd_chars.
Qed.

End EnvFacts.

(** X17: the extension and argument lists that auto-launch passes to the
    browser hold no empty entry, no entry with white space at either end and
    no entry with a separator in it (a comma; for the arguments, a comma or a
    line feed); and a variable that is unset or empty gives no list at all. *)
Theorem launch_lists_are_clean (h : Session.Host) :
  (forall l x, Daemon.extensions (Daemon.launchFromEnv h) = Some l -> x ∈ l ->
     x <> "" /\ Js.trim x = x /\ (","%char ∉ Traffic.chars x))
  /\ (forall l x, Daemon.args (Daemon.launchFromEnv h) = Some l -> x ∈ l ->
        x <> "" /\ Js.trim x = x
        /\ (","%char ∉ Traffic.chars x) /\ (Js.LF ∉ Traffic.chars x))
  /\ (Session.env h !! "AGENT_BROWSER_EXTENSIONS" ∈ [None; Some ""]
      -> Daemon.extensions (Daemon.launchFromEnv h) = None)
  /\ (Session.env h !! "AGENT_BROWSER_ARGS" ∈ [None; Some ""]
      -> Daemon.args (Daemon.launchFromEnv h) = None).
Proof.
  unfold Daemon.launchFromEnv, Session.envTruthy. simpl.
  split; [|split; [|split]].
  - intros l x Hl Hx.
    destruct (Session.env h !! "AGENT_BROWSER_EXTENSIONS") as [v|]; [|done].
    destruct (Js.truthy v); [|done]. injection Hl as <-.
    destruct (envList_clean _ _ _ Hx) as (Hne & Htrim & Hsep).
    split; [done|]. split; [done|]. intros Hc. by specialize (Hsep _ Hc).
  - intros l x Hl Hx.
    destruct (Session.env h !! "AGENT_BROWSER_ARGS") as [v|]; [|done].
    destruct (Js.truthy v); [|done]. injection Hl as <-.
    destruct (envList_clean _ _ _ Hx) as (Hne & Htrim & Hsep).
    split; [done|]. split; [done|].
    split; intros Hc; by specialize (Hsep _ Hc).
  - intros [->|[->|?%elem_of_nil]%elem_of_cons]%elem_of_cons; done.
  - intros [->|[->|?%elem_of_nil]%elem_of_cons]%elem_of_cons; done.
Qed.

(** ** The ways the process ends *)
Section LifecycleFacts.
Import Session Lifecycle.
Variable h : Host.
Variable t : Teardown.

Lemma cleanupAndExit_gone status p :
  exited (cleanupAndExit h status p) = Some status
  /\ Forall (fun q => files (cleanupAndExit h status p) !! q = None)
       (sessionFiles h None).
Proof. split; [done|]. apply cleanupSocket_removes. Qed.

(** What a reaction of a running process leaves when it ends the process. *)
Lemma react_exited p cause status :
  exited p = None -> exited (react h t p cause) = Some status ->
  Forall (fun q => files (react h t p cause) !! q = None) (sessionFiles h None)
  /\ (status = 0 \/ status = 1)
  /\ (status = 0 -> cause = Signal \/ cause = CloseTimer).
Proof.
  intros Hrun. unfold react. rewrite Hrun.
  destruct cause; simpl;
    try (intros [= <-]; split; [apply cleanupSocket_removes|];
         split; [auto|]; auto; discriminate).
  unfold shutdown. destruct (shuttingDown p); [congruence|]. simpl.
  destruct (streamServer p); [destruct (streamStops t)|];
    try destruct (browserCloses t); simpl;
    intros [= <-]; (split; [apply cleanupSocket_removes|]); auto.
Qed.

Lemma react_done p cause :
  exited p <> None -> react h t p cause = p.
Proof. unfold react. by destruct (exited p). Qed.

Lemma run_done causes p : exited p <> None -> run h t causes p = p.
Proof.
  revert p. induction causes as [|cause causes IH]; intros p Hp; [done|].
  unfold run in *. simpl. rewrite react_done by done. by apply IH.
Qed.

Lemma run_exited causes p status :
  exited p = None -> exited (run h t causes p) = Some status ->
  Forall (fun q => files (run h t causes p) !! q = None) (sessionFiles h None)
  /\ (status = 0 \/ status = 1)
  /\ (status = 0 -> Signal ∈ causes \/ CloseTimer ∈ causes).
Proof.
  revert p. induction causes as [|cause causes IH]; intros p Hrun; [simpl; congruence|].
  change (run h t (cause :: causes) p) with (run h t causes (react h t p cause)).
  destruct (exited (react h t p cause)) as [s|] eqn:Hs.
  - rewrite run_done by congruence. rewrite Hs. intros [= ->].
    destruct (react_exited p cause status Hrun Hs) as (Hgone & Hst & Hzero).
    split; [done|]. split; [done|].
    intros Hz. destruct (Hzero Hz) as [-> | ->]; [left|right]; by left.
  - intros Hex. destruct (IH _ Hs Hex) as (Hgone & Hst & Hzero).
    split; [done|]. split; [done|].
    intros Hz. destruct (Hzero Hz); [left|right]; by right.
Qed.

(** A signal that arrives while shutdown is under way does nothing: the
    handler that set [shuttingDown] ends the process, or the timer of the
    close command does. *)
Lemma shutdown_guard p : shuttingDown p = true -> shutdown h t p = p.
Proof. unfold shutdown. by intros ->. Qed.

End LifecycleFacts.

(** X18: however the process ends once the daemon is up (a signal, the timer
    of a close command, a server error, an uncaught exception, an unhandled
    rejection, in any sequence), when it has exited none of the session's
    files is left; the exit status is 0 or 1, and 0 only if a signal or the
    close timer was among the causes.  A signal that arrives while shutdown is
    under way changes nothing. *)
Theorem exit_leaves_no_session_file (h : Session.Host) (t : Lifecycle.Teardown)
    (causes : list Lifecycle.Cause) (p : Lifecycle.Process) :
  Lifecycle.exited p = None ->
  let p' := Lifecycle.run h t causes p in
  (forall status, Lifecycle.exited p' = Some status ->
     Forall (fun q => Lifecycle.files p' !! q = None) (Session.sessionFiles h None)
     /\ (status = 0 \/ status = 1)
     /\ (status = 0 ->
         Lifecycle.Signal ∈ causes \/ Lifecycle.CloseTimer ∈ causes))
  /\ (Lifecycle.shuttingDown p = true ->
      Lifecycle.react h t p Lifecycle.Signal = p).
Proof.
  intros Hrun p'. split.
  - intros status Hex. by apply run_exited.
  - intros Hsd. unfold Lifecycle.react. rewrite Hrun. by apply shutdown_guard.
Qed.

(** X18 on a daemon with a stream server whose browser fails to close: a
    signal ends the process with status 1 and a later signal is not seen. *)
Lemma exit_leaves_no_session_file_witness :
  let t := {| Lifecycle.streamStops := true; Lifecycle.browserCloses := false |} in
  let fs : Session.Files :=
    {[ Session.getPidFile unixHost None := "4521";
       Session.getStreamPortFile unixHost None := "9223";
       "/home/u/.agent-browser/notes.txt" := "keep" ]} in
  let p := {| Lifecycle.files := fs; Lifecycle.shuttingDown := false;
              Lifecycle.streamServer := true; Lifecycle.exited := None |} in
  let p' := Lifecycle.run unixHost t [Lifecycle.Signal; Lifecycle.Signal] p in
  Lifecycle.exited p' = Some 1
  /\ Forall (fun q => Lifecycle.files p' !! q = None) (Session.sessionFiles unixHost None).
Proof.
  intros t fs p p'. split; [reflexivity|].
  exact (proj1 (proj1 (exit_leaves_no_session_file unixHost t
                         [Lifecycle.Signal; Lifecycle.Signal] p eq_refl)
                  1 eq_refl)).
Defined.
